(** * shijuebiji: the visual-note pipeline, embedded and verified

    A shallow embedding of the pipeline core of the application
    ([processLeftBrain], [processSplitBrain], [processRightBrain],
    [processHand], [updateNote], [handleSplit], the two batch waves and the
    [chunk] helper of [handleBatchPaint]) together with the part of the
    JavaScript semantics these functions rely on; and of what stands around
    the core: [handleOrganize], the design wave, [checkApiKey],
    [handleBatchDownload], the outline editor and the cards of
    FlowCanvas.tsx, and the proxy of the image endpoint.

    Conventions.
    - A JavaScript string is the list of its UTF-16 code units, so that
      [length] is [String.prototype.length].  Literals are written as in the
      source with [js "..."], which decodes the UTF-8 bytes of a Rocq string.
    - Code that may throw returns a [completion]; [try]/[catch] is a [match].
    - An awaited external call is represented by its outcome (a [completion]
      too: resolved or rejected).  The request text that is sent to the
      service is not part of the model.
    - [JSON.parse] and [String.prototype.toLowerCase] are built-ins of the
      host: they are section variables. *)

From Stdlib Require Import String Ascii.
From Stdlib Require Import List NArith ZArith Arith Lia Bool.
From Stdlib Require DecimalNat.
From Stdlib Require Import Sorted.
Import ListNotations.

Set Implicit Arguments.
Set Warnings "-register-all".

(* ================================================================== *)
(** * JavaScript strings *)
(* ================================================================== *)

Module JsString.

Definition code_unit := N.
Definition jsstring := list code_unit.

(** UTF-8 bytes to UTF-16 code units (one, two, three and four byte forms;
    a four byte form yields a surrogate pair). *)
Fixpoint utf16_of_utf8 (bs : list N) : jsstring :=
  match bs with
  | [] => []
  | b0 :: t0 =>
    if (b0 <? 128)%N then b0 :: utf16_of_utf8 t0
    else match t0 with
    | [] => []
    | b1 :: t1 =>
      if (b0 <? 224)%N
      then ((b0 - 192) * 64 + (b1 - 128))%N :: utf16_of_utf8 t1
      else match t1 with
      | [] => []
      | b2 :: t2 =>
        if (b0 <? 240)%N
        then ((b0 - 224) * 4096 + (b1 - 128) * 64 + (b2 - 128))%N
               :: utf16_of_utf8 t2
        else match t2 with
        | [] => []
        | b3 :: t3 =>
          let cp := ((b0 - 240) * 262144 + (b1 - 128) * 4096
                     + (b2 - 128) * 64 + (b3 - 128))%N in
          let c' := (cp - 65536)%N in
          (55296 + c' / 1024)%N :: (56320 + c' mod 1024)%N
            :: utf16_of_utf8 t3
        end
      end
    end
  end.

Definition js (s : string) : jsstring :=
  utf16_of_utf8 (map N_of_ascii (list_ascii_of_string s)).
Arguments js s%_string : simpl never.

(** The double quote, which a Rocq literal cannot hold conveniently. *)
Definition dq : jsstring := [34%N].
(** Line feed. *)
Definition nl : jsstring := [10%N].

(** [===] on two strings. *)
Fixpoint jseqb (a b : jsstring) : bool :=
  match a, b with
  | [], [] => true
  | x :: a', y :: b' => (x =? y)%N && jseqb a' b'
  | _, _ => false
  end.

(** ECMAScript WhiteSpace and LineTerminator code units, the characters
    [String.prototype.trim] removes. *)
Definition is_white (c : code_unit) : bool :=
  ((9 <=? c) && (c <=? 13) || (c =? 32) || (c =? 160) || (c =? 5760)
   || (8192 <=? c) && (c <=? 8202) || (c =? 8232) || (c =? 8233)
   || (c =? 8239) || (c =? 8287) || (c =? 12288) || (c =? 65279))%N.

Fixpoint trimStart (s : jsstring) : jsstring :=
  match s with
  | [] => []
  | c :: r => if is_white c then trimStart r else s
  end.

Definition trimEnd (s : jsstring) : jsstring := rev (trimStart (rev s)).

Definition trim (s : jsstring) : jsstring := trimEnd (trimStart s).

(** Character comparison of a regular expression with the [i] flag and
    without the [u] flag: only ASCII letters fold onto each other. *)
Definition ci_eqb (p c : code_unit) : bool :=
  ((p =? c)
   || ((97 <=? p) && (p <=? 122) && (c =? p - 32))
   || ((65 <=? p) && (p <=? 90) && (c =? p + 32)))%N.

Fixpoint starts_with (eqc : code_unit -> code_unit -> bool)
         (pat s : jsstring) : bool :=
  match pat, s with
  | [], _ => true
  | p :: pat', c :: s' => eqc p c && starts_with eqc pat' s'
  | _ :: _, [] => false
  end.

(** [s.replace(/pat/g, '')] for a literal, non-empty pattern: matches are
    found left to right and do not overlap.  [skip] counts the code units of
    the current match that are still to be dropped. *)
Fixpoint remove_from (eqc : code_unit -> code_unit -> bool)
         (pat : jsstring) (skip : nat) (s : jsstring) : jsstring :=
  match s with
  | [] => []
  | c :: r =>
    match skip with
    | S k => remove_from eqc pat k r
    | O =>
      if starts_with eqc pat s
      then remove_from eqc pat (Nat.pred (length pat)) r
      else c :: remove_from eqc pat 0 r
    end
  end.

Definition remove_all (pat s : jsstring) : jsstring :=
  remove_from N.eqb pat 0 s.

Definition remove_all_ci (pat s : jsstring) : jsstring :=
  remove_from ci_eqb pat 0 s.

(** [s.includes(pat)]. *)
Fixpoint includes (s pat : jsstring) : bool :=
  starts_with N.eqb pat s
  || match s with
     | [] => false
     | _ :: r => includes r pat
     end.

(** Decimal rendering of a natural number, as [String(n)] gives for an
    array index. *)
Fixpoint digits (d : Decimal.uint) : jsstring :=
  match d with
  | Decimal.Nil => []
  | Decimal.D0 r => 48%N :: digits r
  | Decimal.D1 r => 49%N :: digits r
  | Decimal.D2 r => 50%N :: digits r
  | Decimal.D3 r => 51%N :: digits r
  | Decimal.D4 r => 52%N :: digits r
  | Decimal.D5 r => 53%N :: digits r
  | Decimal.D6 r => 54%N :: digits r
  | Decimal.D7 r => 55%N :: digits r
  | Decimal.D8 r => 56%N :: digits r
  | Decimal.D9 r => 57%N :: digits r
  end.

Definition decimal (n : nat) : jsstring := digits (Nat.to_uint n).

(** [parts.join(sep)] on strings. *)
Fixpoint join (sep : jsstring) (l : list jsstring) : jsstring :=
  match l with
  | [] => []
  | [x] => x
  | x :: r => x ++ sep ++ join sep r
  end.

End JsString.
Import JsString.

(* ================================================================== *)
(** * The fragment of JavaScript the pipeline uses *)
(* ================================================================== *)

Module Js.

(** What a [throw] (or a rejected promise) carries. *)
Inductive thrown :=
| TypeError
| SyntaxError
| Error (message : jsstring)   (* [new Error(message)] *)
| Rejection (reason : N)       (* a failure raised by the host or a service *)
| Undefined.                   (* the value [undefined], when it is thrown *)

Inductive completion (A : Type) :=
| Return (a : A)
| Throw (e : thrown).
Arguments Return {A} a.
Arguments Throw {A} e.

Definition bind {A B} (c : completion A) (k : A -> completion B)
  : completion B :=
  match c with
  | Return a => k a
  | Throw e => Throw e
  end.

(** [try { body } catch (e) { handler(e) }]. *)
Definition try_catch {A} (body : completion A) (handler : thrown -> completion A)
  : completion A :=
  match body with
  | Return a => Return a
  | Throw e => handler e
  end.

(** A number is an IEEE double in JavaScript.  The pipeline never computes
    with the numbers it receives: it can only test them ([ToBoolean]) and
    print them ([ToString]), so a number is carried as these two
    observations. *)
Record number := { num_truthy : bool; num_text : jsstring }.

Definition number_of_nat (n : nat) : number :=
  {| num_truthy := negb (Nat.eqb n 0); num_text := decimal n |}.

(** Values: [undefined] and what [JSON.parse] and object literals build.
    An object is the list of its own properties in creation order; a name
    occurs once. *)
Inductive value :=
| VUndefined
| VNull
| VBool (b : bool)
| VNumber (n : number)
| VString (s : jsstring)
| VArray (elems : list value)
| VObject (fields : list (jsstring * value)).

Fixpoint lookup (k : jsstring) (fs : list (jsstring * value)) : option value :=
  match fs with
  | [] => None
  | (k', v) :: r => if jseqb k' k then Some v else lookup k r
  end.

(** Defining or overwriting an own property: an existing property keeps its
    place, a new one goes last. *)
Fixpoint set_field (k : jsstring) (v : value) (fs : list (jsstring * value))
  : list (jsstring * value) :=
  match fs with
  | [] => [(k, v)]
  | (k', v') :: r =>
    if jseqb k' k then (k', v) :: r else (k', v') :: set_field k v r
  end.

Definition ToBoolean (v : value) : bool :=
  match v with
  | VUndefined | VNull => false
  | VBool b => b
  | VNumber n => num_truthy n
  | VString s => negb (jseqb s [])
  | VArray _ | VObject _ => true
  end.

(** [a || b] *)
Definition or_else (a b : value) : value := if ToBoolean a then a else b.

(** [v.k] for a property name [k] that is neither an array index nor
    [length] nor the name of a built-in method; every name the pipeline reads
    is of this kind. *)
Definition Get (v : value) (k : jsstring) : completion value :=
  match v with
  | VUndefined | VNull => Throw TypeError
  | VObject fs =>
    Return (match lookup k fs with Some x => x | None => VUndefined end)
  | _ => Return VUndefined
  end.

(** [v?.k] *)
Definition OptGet (v : value) (k : jsstring) : value :=
  match v with
  | VObject fs => match lookup k fs with Some x => x | None => VUndefined end
  | _ => VUndefined
  end.

(** [v?.[i]] *)
Definition OptIndex (v : value) (i : nat) : value :=
  match v with
  | VArray l => nth i l VUndefined
  | VString s =>
    match nth_error s i with Some c => VString [c] | None => VUndefined end
  | VObject fs =>
    match lookup (decimal i) fs with Some x => x | None => VUndefined end
  | _ => VUndefined
  end.

(** [ToString], as a template literal applies it.  An object of plain data
    prints as [[object Object]] unless it has an own [toString] property,
    which data cannot make callable: the conversion then throws. *)
Fixpoint ToString (v : value) : completion jsstring :=
  match v with
  | VUndefined => Return (js "undefined")
  | VNull => Return (js "null")
  | VBool true => Return (js "true")
  | VBool false => Return (js "false")
  | VNumber n => Return (num_text n)
  | VString s => Return s
  | VArray l =>
    (fix join_values (l : list value) : completion jsstring :=
       match l with
       | [] => Return []
       | x :: r =>
         bind (match x with
               | VUndefined | VNull => Return []
               | _ => ToString x
               end)
              (fun sx =>
                 match r with
                 | [] => Return sx
                 | _ => bind (join_values r)
                             (fun sr => Return (sx ++ js "," ++ sr))
                 end)
       end) l
  | VObject fs =>
    match lookup (js "toString") fs with
    | Some _ => Throw TypeError
    | None => Return (js "[object Object]")
    end
  end.

(** [Array.prototype.map] with the index passed to the callback. *)
Fixpoint mapi_from {A B} (f : A -> nat -> B) (i : nat) (l : list A) : list B :=
  match l with
  | [] => []
  | x :: r => f x i :: mapi_from f (S i) r
  end.

Definition mapi {A B} (f : A -> nat -> B) (l : list A) : list B :=
  mapi_from f 0 l.

(** [v?.map(f)]: [undefined] on [null] and [undefined], the mapped array on
    an array, and a [TypeError] on every other value, none of which has a
    callable [map]. *)
Definition OptMap (v : value) (f : value -> nat -> value) : completion value :=
  match v with
  | VUndefined | VNull => Return VUndefined
  | VArray l => Return (VArray (mapi f l))
  | _ => Throw TypeError
  end.

(** The own enumerable properties [{...v}] copies. *)
Definition spread (v : value) : list (jsstring * value) :=
  match v with
  | VObject fs => fs
  | VArray l => mapi (fun x i => (decimal i, x)) l
  | VString s => mapi (fun c i => (decimal i, VString [c])) s
  | _ => []
  end.

(** [target.k = v] in strict code (the sources are ES modules): a
    [TypeError] on a primitive.  An array accepts a named property as well;
    [VArray] has no place to keep it, so the array is returned as it was:
    the only array that is assigned to, in [processLeftBrain], is never
    looked at again. *)
Definition Put (target : value) (k : jsstring) (v : value) : completion value :=
  match target with
  | VObject fs => Return (VObject (set_field k v fs))
  | VArray l => Return (VArray l)
  | _ => Throw TypeError
  end.

End Js.
Import Js.

Declare Scope js_scope.
Delimit Scope js_scope with js.
Notation "x <- c ;; k" := (bind c (fun x => k))
  (at level 61, c at next level, right associativity) : js_scope.
Open Scope js_scope.

(* ================================================================== *)
(** * Data model (types.ts) *)
(* ================================================================== *)

Inductive Stage :=
| Input | Splitting | ReviewSplit | Organizing | ReviewStructure
| Designing | ReviewPrompt | Painting | Done | BatchProcessing.

Record VisualSettings := {
  styleId : jsstring;
  colorTheme : jsstring;
  watermark : jsstring
}.

(** [LeftBrainData] and [ContentModule] are interfaces over what
    [JSON.parse] returned, and TypeScript erases them: an outline is a
    [value]. *)
Record NoteUnit := {
  id : jsstring;
  order : nat;
  originalText : jsstring;
  stage : Stage;
  isProcessing : bool;
  error : option jsstring;
  structure : option value;
  generatedPrompt : option jsstring;
  finalImage : option jsstring
}.

(** [Partial<NoteUnit>]: the properties an update carries. *)
Record PartialNote := {
  p_id : option jsstring;
  p_order : option nat;
  p_originalText : option jsstring;
  p_stage : option Stage;
  p_isProcessing : option bool;
  p_error : option jsstring;
  p_structure : option value;
  p_generatedPrompt : option jsstring;
  p_finalImage : option jsstring
}.

Definition no_updates : PartialNote :=
  {| p_id := None; p_order := None; p_originalText := None; p_stage := None;
     p_isProcessing := None; p_error := None; p_structure := None;
     p_generatedPrompt := None; p_finalImage := None |}.

Definition over {A} (new : option A) (old : A) : A :=
  match new with Some a => a | None => old end.

Definition over_opt {A} (new : option A) (old : option A) : option A :=
  match new with Some a => Some a | None => old end.

(** [{ ...n, ...updates }] *)
Definition merge (n : NoteUnit) (u : PartialNote) : NoteUnit :=
  {| id := over (p_id u) (id n);
     order := over (p_order u) (order n);
     originalText := over (p_originalText u) (originalText n);
     stage := over (p_stage u) (stage n);
     isProcessing := over (p_isProcessing u) (isProcessing n);
     error := over_opt (p_error u) (error n);
     structure := over_opt (p_structure u) (structure n);
     generatedPrompt := over_opt (p_generatedPrompt u) (generatedPrompt n);
     finalImage := over_opt (p_finalImage u) (finalImage n) |}.

(** [setNotes(prev => prev.map(n => n.id === id ? { ...n, ...updates } : n))] *)
Definition updateNote (id0 : jsstring) (updates : PartialNote)
           (prev : list NoteUnit) : list NoteUnit :=
  map (fun n => if jseqb (id n) id0 then merge n updates else n) prev.

(* ================================================================== *)
(** * The external services, by the shape of what they answer *)
(* ================================================================== *)

Module Gen.
Record InlineData := { data : option jsstring; mimeType : option jsstring }.
Record Part := { inlineData : option InlineData }.
Record Content := { parts : option (list (option Part)) }.
Record Candidate := { content : option Content }.
(** The response of [ai.models.generateContent]; [None] is [undefined]. *)
Record Response := {
  text : option jsstring;
  candidates : option (list (option Candidate))
}.
End Gen.

Module Http.
(** The response of [fetch]: [text()] and [json()] are promises. *)
Record Response := {
  ok : bool;
  status : number;
  text : completion jsstring;
  json : completion value
}.
End Http.

(** [process.env], as far as [processHand] reads it. *)
Record Env := {
  env_API_KEY : option jsstring;
  env_IMAGE_MODEL : option jsstring
}.

(** [x || d] on a possibly undefined string. *)
Definition str_or (x : option jsstring) (d : jsstring) : jsstring :=
  match x with
  | Some (c :: r) => c :: r
  | _ => d
  end.

(** [!x] on a possibly undefined string. *)
Definition falsy (x : option jsstring) : bool :=
  match x with
  | Some (_ :: _) => false
  | _ => true
  end.

(* ================================================================== *)
(** * processRightBrain *)
(* ================================================================== *)

Module Style.
Record t := { id : jsstring; name : jsstring; emoji : jsstring; desc : jsstring }.
End Style.

Definition healing : Style.t :=
  {| Style.id := js "healing"; Style.name := js "可爱手帐 (Cute Journal)";
     Style.emoji := js "📒";
     Style.desc := js "Hand-drawn grid paper background, pastel markers, dense text notes, cute stickers, kawaii aesthetic, study note style" |}.
Definition tech : Style.t :=
  {| Style.id := js "tech"; Style.name := js "极客蓝图 (Tech Blueprint)";
     Style.emoji := js "📟";
     Style.desc := js "Dark blue blueprint background, neon cyan lines, dense data visualization, holographic UI elements, futuristic technical schematic" |}.
Definition retro : Style.t :=
  {| Style.id := js "retro"; Style.name := js "复古海报 (Retro Poster)";
     Style.emoji := js "📰";
     Style.desc := js "Vintage paper texture, bold typography, densely packed layout, pop art halftone patterns, collage style, infographic poster" |}.
Definition zen : Style.t :=
  {| Style.id := js "zen"; Style.name := js "新中式 (Zen Ink)";
     Style.emoji := js "🎋";
     Style.desc := js "White rice paper texture, minimalist ink wash painting, black calligraphy, vertical layout, red seal, intellectual aesthetic" |}.
Definition clay : Style.t :=
  {| Style.id := js "clay"; Style.name := js "3D粘土 (3D Clay)";
     Style.emoji := js "🧸";
     Style.desc := js "3D rendered claymorphism, plasticine texture, soft lighting, rounded edges, playful toy-like look, flat text labels on clay surfaces" |}.

Definition STYLES : list Style.t := [healing; tech; retro; zen; clay].

Definition promptTemplate
  (styleName styleDesc palette keywords title summary modulesText watermark
   : jsstring) : jsstring :=
  nl
  ++ js "Role: You are an expert Information Designer specializing in high - clarity educational sketchnotes.Your goal is to visualize complex information into a clean, organized, and readable " ++ dq ++ js "Visual Note" ++ dq ++ js "." ++ nl
  ++ nl
  ++ js "# VISUAL STYLE: [User Selection: " ++ styleName ++ js "]" ++ nl
  ++ js "  - Core Aesthetic: " ++ styleDesc ++ js ". Flat Vector Illustration style.Clean lines, high resolution, no blurring." ++ nl
  ++ js "- Background: Light beige(#F5F5DC) or style - appropriate light background with a faint dot grid pattern.CLEAN background, no heavy textures that interfere with text." ++ nl
  ++ js "- Color Palette: " ++ palette ++ js " + Dark Charcoal(#333333) for all text." ++ nl
  ++ js "- Decorations: Simple 2D icons(flat style), subtle doodles related to " ++ dq ++ keywords ++ dq ++ js " scattered * around * text boxes, not * behind * text." ++ nl
  ++ nl
  ++ js "# CRITICAL TEXT RENDERING RULES(Priority Level: MAX)" ++ nl
  ++ js "1. Font Strategy(The Success Secret): Use a font style resembling " ++ dq ++ js "Bold Sans-serif" ++ dq ++ js " or " ++ dq ++ js "Clean Handwriting" ++ dq ++ js "(like 楷体 / Heiti).Absolutely NO cursive, calligraphy, or messy strokes.Characters must be blocky and distinct." ++ nl
  ++ js "2. Text Container Strategy: All main text blocks MUST be placed inside ** Solid Color Text Bubbles or Rectangular Boxes ** (White or very light pastel fill) to ensure maximum contrast against the background dots." ++ nl
  ++ js "3. Clarity Over Style: Legibility is the #1 priority.Text characters must be sharp, high - contrast, and fully formed." ++ nl
  ++ js "4. Language: Simplified Chinese(简体中文).Check for correct stroke counts.NO Japanese Kana." ++ nl
  ++ js "5. Hierarchy(Relative Sizes):" ++ nl
  ++ js "- Title: Very large, decorative, centered at top." ++ nl
  ++ js "    - Headers(1., 2., ...): Large, bold." ++ nl
  ++ js "    - Body Text: Medium size, clear bullet points." ++ nl
  ++ nl
  ++ js "# LAYOUT & COMPOSITION" ++ nl
  ++ js "  - Grid System: Use a modular layout(like a bento box).Divide the canvas into 5 clear, non - overlapping sections for the main points, plus a title area and footer." ++ nl
  ++ js "- Flow: Use cute, hand - drawn dotted arrows to guide the eye from section 1 to 5 logically." ++ nl
  ++ nl
  ++ js "# OUTPUT SPECS" ++ nl
  ++ js "  - Ratio: 3: 4(Vertical Long Chart)" ++ nl
  ++ js "    - Resolution: High Definition(Vector - like sharpness)" ++ nl
  ++ nl
  ++ js "# VISUALIZATION CONTENT(Render exactly as structured below):" ++ nl
  ++ js "Title: " ++ dq ++ title ++ dq ++ nl
  ++ js "Subtitle: " ++ dq ++ summary ++ dq ++ nl
  ++ js "Modules:" ++ nl
  ++ modulesText ++ nl
  ++ nl
  ++ js "Footer Watermark: " ++ dq ++ watermark ++ dq ++ nl
  ++ js "  ".

(** [STYLES.find(s => s.id === settings.styleId) || STYLES[0]] *)
Definition styleObj_of (settings : VisualSettings) : Style.t :=
  match find (fun s => jseqb (Style.id s) (styleId settings)) STYLES with
  | Some s => s
  | None => nth 0 STYLES healing
  end.

(** One line pair of the module list:
    [`${i + 1}. Heading: "${m?.heading || ''}"\n   Content: "${m?.content || ''}"`] *)
Definition moduleText (m : value) (i : nat) : completion jsstring :=
  heading <- ToString (or_else (OptGet m (js "heading")) (VString [])) ;;
  content <- ToString (or_else (OptGet m (js "content")) (VString [])) ;;
  Return (decimal (i + 1) ++ js ". Heading: " ++ dq ++ heading ++ dq ++ nl
          ++ js "   Content: " ++ dq ++ content ++ dq).

Fixpoint mapM_from {A B} (f : A -> nat -> completion B) (i : nat) (l : list A)
  : completion (list B) :=
  match l with
  | [] => Return []
  | x :: r =>
    y <- f x i ;;
    ys <- mapM_from f (S i) r ;;
    Return (y :: ys)
  end.

(** [modules.map(f)], which needs [modules] to be an array. *)
Definition ArrayMap {B} (modules : value) (f : value -> nat -> completion B)
  : completion (list B) :=
  match modules with
  | VArray l => mapM_from f 0 l
  | _ => Throw TypeError
  end.

Definition processRightBrain (data : value) (settings : VisualSettings)
  : completion jsstring :=
  if negb (ToBoolean data) then Return (js "Error: No data provided")
  else
    let styleObj := styleObj_of settings in
    t <- Get data (js "title") ;;
    let title := or_else t (VString (js "未命名笔记")) in
    s <- Get data (js "summary_context") ;;
    let summary := or_else s (VString []) in
    k <- Get data (js "visual_theme_keywords") ;;
    let keywords := or_else k (VString (js "abstract concepts")) in
    m <- Get data (js "modules") ;;
    let modules := or_else m (VArray []) in
    let palette :=
      match colorTheme settings with
      | [] => js "Pastel low-saturation colors (Macaron Blue, Cream Yellow, Soft Pink)"
      | c => c
      end in
    keywords' <- ToString keywords ;;
    title' <- ToString title ;;
    summary' <- ToString summary ;;
    lines <- ArrayMap modules moduleText ;;
    Return (trim (promptTemplate (Style.name styleObj) (Style.desc styleObj)
                                 palette keywords' title' summary'
                                 (join nl lines) (watermark settings))).

(* ================================================================== *)
(** * Stand-ins for the host built-ins, used to run the model *)
(* ================================================================== *)

(** [JSON.parse] tabulated on finitely many inputs; an input that is not in
    the table is rejected. *)
Fixpoint parse_table (table : list (jsstring * value)) (raw : jsstring)
  : option value :=
  match table with
  | [] => None
  | (k, v) :: r => if jseqb k raw then Some v else parse_table r raw
  end.

(** [toLowerCase] on ASCII text. *)
Definition ascii_lower (s : jsstring) : jsstring :=
  map (fun c => if ((65 <=? c) && (c <=? 90))%N then (c + 32)%N else c) s.

(** Sample inputs. *)
Module Demo.

Definition sentence : jsstring := js "这是一句话。".

Definition segment_a : jsstring := repeat 97%N 100.
Definition segment_b : jsstring := repeat 98%N 100.

(** The JSON text of an array of strings (none of which needs escaping). *)
Definition array_text (items : list jsstring) : jsstring :=
  js "[" ++ join (js ",") (map (fun s => dq ++ s ++ dq) items) ++ js "]".

Definition parse : jsstring -> option value :=
  parse_table
    [ (js "{}", VObject []);
      (js "[]", VArray []);
      (array_text [sentence], VArray [VString sentence]);
      (array_text [segment_a; segment_b],
       VArray [VString segment_a; VString segment_b]) ].

(** A reply of the text service. *)
Definition reply (t : jsstring) : completion Gen.Response :=
  Return {| Gen.text := Some t; Gen.candidates := None |}.

(** A reply of the image service with one inline image. *)
Definition image_reply (payload : jsstring) : completion Gen.Response :=
  Return
    {| Gen.text := None;
       Gen.candidates :=
         Some [Some {| Gen.content :=
                         Some {| Gen.parts :=
                                   Some [Some {| Gen.inlineData :=
                                                   Some {| Gen.data := Some payload;
                                                           Gen.mimeType := None |} |}] |} |}] |}.

Definition uuidv4 (i : nat) : jsstring := js "unit-" ++ decimal i.

Definition settings : VisualSettings :=
  {| styleId := js "healing"; colorTheme := []; watermark := [] |}.

(** A unit that is ready for the rendering phase. *)
Definition prompted (i : nat) : NoteUnit :=
  {| id := uuidv4 i; order := i + 1; originalText := sentence;
     stage := ReviewPrompt; isProcessing := false; error := None;
     structure := Some (VObject []); generatedPrompt := Some (js "prompt");
     finalImage := None |}.

Definition notes : list NoteUnit := [prompted 0; prompted 1; prompted 2].

Definition default_env : Env :=
  {| env_API_KEY := Some (js "key"); env_IMAGE_MODEL := None |}.

Definition imagen_env : Env :=
  {| env_API_KEY := Some (js "key");
     env_IMAGE_MODEL := Some (js "imagen-4.0-generate-001") |}.

(** An image service that is down, and one that answers at its second
    call. *)
Definition always_down (i : nat) : completion Gen.Response :=
  Throw (Rejection (N.of_nat i)).

Definition up_at_second_call (i : nat) : completion Gen.Response :=
  match i with
  | 1 => image_reply (js "AAAA")
  | _ => Throw (Rejection (N.of_nat i))
  end.

Definition no_fetch (i : nat) : completion Http.Response :=
  Throw (Rejection 0).

(** An answer of the prediction endpoint with one image. *)
Definition prediction (i : nat) : completion Http.Response :=
  Return {| Http.ok := true; Http.status := number_of_nat 200;
            Http.text := Return [];
            Http.json :=
              Return (VObject
                        [ (js "predictions",
                           VArray [VObject [ (js "bytesBase64Encoded",
                                              VString (js "BBBB")) ]]) ]) |}.

End Demo.

(* ================================================================== *)
(** * Helpers of the application that call no service *)
(* ================================================================== *)

(** [getStyleInstructions], the helper of [processHand] that picks the
    style clause of the image request: a [switch] on the identifier, whose
    [default] shares the branch of ['healing']. *)
Definition getStyleInstructions (id0 : jsstring) : jsstring :=
  if jseqb id0 (js "tech") then
    nl ++ js "            - TECH BLUEPRINT: geometric shapes, straight neon cyan lines, dark blue background, circuit motifs, monospaced label style." ++ nl
    ++ js "            - Add grid overlays and holographic UI hints; crisp thin strokes; keep text high-contrast." ++ nl
    ++ js "          "
  else if jseqb id0 (js "retro") then
    nl ++ js "            - RETRO POSTER: bold blocky layout, halftone texture, vibrant red/yellow/blue with aged paper feel, collage starbursts." ++ nl
    ++ js "            - Use impactful headline typography and chunky separators; keep text clear." ++ nl
    ++ js "          "
  else if jseqb id0 (js "zen") then
    nl ++ js "            - ZEN INK: rice paper white/cream background, ink wash strokes, sparse bamboo or red seal accents, calligraphic headings." ++ nl
    ++ js "            - Minimal composition with generous whitespace and crisp black text." ++ nl
    ++ js "          "
  else if jseqb id0 (js "clay") then
    nl ++ js "            - 3D CLAY: soft pastel claymorphism, rounded blobs, gentle gradients and shadows, toy-like icons." ++ nl
    ++ js "            - Text on flat labels with clear sans-serif; avoid noisy details." ++ nl
    ++ js "          "
  else
    nl ++ js "            - CUTE JOURNAL: pastel palette, rounded note boxes, dotted arrows, small doodles (stars/hearts), subtle cream grid background." ++ nl
    ++ js "            - Clean sans-serif handwriting style, high readability." ++ nl
    ++ js "          ".

(** [!!note.structure] and the like. *)
Definition truthy (x : option value) : bool :=
  match x with
  | Some v => ToBoolean v
  | None => false
  end.

(** ** handleBatchDownload *)

Module Link.
(** The anchor element that is clicked. *)
Record t := { href : jsstring; download : jsstring }.
End Link.

(** The callback of [notes.forEach]: the timer it sets for a unit, if any,
    as the delay in milliseconds and the link that is clicked. *)
Definition downloadTimer (note : NoteUnit) (index : nat)
  : list (nat * Link.t) :=
  match finalImage note with
  | Some (c :: r) =>
    [ (index * 500,
       {| Link.href := c :: r;
          Link.download :=
            js "soulnote_batch_" ++ decimal (index + 1) ++ js ".png" |}) ]
  | _ => []
  end.

(** The timers [handleBatchDownload] sets. *)
Definition handleBatchDownload (notes : list NoteUnit)
  : list (nat * Link.t) :=
  concat (mapi downloadTimer notes).

(** ** checkApiKey *)





(** ** BlockEditor (FlowCanvas.tsx): the edits of an outline *)

Module BlockEditor.

(** [{ ...structure, [k]: v }] *)
Definition with_property (structure : value) (k : jsstring) (v : value)
  : value :=
  VObject (set_field k v (spread structure)).

Definition handleTitleChange (structure : value) (v : jsstring) : value :=
  with_property structure (js "title") (VString v).

Definition handleSummaryChange (structure : value) (v : jsstring) : value :=
  with_property structure (js "summary_context") (VString v).

(** The code points of a string, which iterating it yields: a high
    surrogate followed by a low one is one element. *)
Fixpoint code_points (s : jsstring) : list jsstring :=
  match s with
  | [] => []
  | c :: r =>
    match r with
    | d :: r' =>
      if ((55296 <=? c) && (c <=? 56319) && (56320 <=? d) && (d <=? 57343))%N
      then [c; d] :: code_points r'
      else [c] :: code_points r
    | [] => [[c]]
    end
  end.

(** [[...v]] *)
Definition iterate (v : value) : completion (list value) :=
  match v with
  | VArray l => Return l
  | VString s => Return (map VString (code_points s))
  | _ => Throw TypeError
  end.

(** [l[index] = v].  Past the end the array grows; the empty slots in
    between are represented by [undefined]. *)
Fixpoint set_index (l : list value) (index : nat) (v : value) : list value :=
  match index, l with
  | O, [] => [v]
  | O, _ :: r => v :: r
  | S i, [] => VUndefined :: set_index [] i v
  | S i, x :: r => x :: set_index r i v
  end.

Definition handleModuleChange (structure : value) (index : nat)
           (field text : jsstring) : completion value :=
  modules <- Get structure (js "modules") ;;
  newModules <- iterate modules ;;
  let edited :=
    VObject (set_field field (VString text)
                       (spread (nth index newModules VUndefined))) in
  Return (with_property structure (js "modules")
                        (VArray (set_index newModules index edited))).

(** [now] is [Date.now().toString()]. *)
Definition addModule (now : jsstring) (structure : value) : completion value :=
  let newModule :=
    VObject [ (js "id", VString now);
              (js "heading", VString (js "新模块"));
              (js "content", VString []) ] in
  modules <- Get structure (js "modules") ;;
  items <- iterate modules ;;
  Return (with_property structure (js "modules")
                        (VArray (items ++ [newModule]))).

(** [l.filter((_, i) => i !== index)] *)
Fixpoint without_index {A} (l : list A) (index : nat) : list A :=
  match l, index with
  | [], _ => []
  | _ :: r, O => r
  | x :: r, S i => x :: without_index r i
  end.

Definition deleteModule (structure : value) (index : nat) : completion value :=
  modules <- Get structure (js "modules") ;;
  match modules with
  | VArray l =>
    Return (with_property structure (js "modules")
                          (VArray (without_index l index)))
  | _ => Throw TypeError
  end.

End BlockEditor.

(** ** EditableCard (FlowCanvas.tsx): what a card shows of a unit *)

(** The numeric value of a stage in the enumeration. *)
Definition Stage_value (s : Stage) : nat :=
  match s with
  | Input => 0 | Splitting => 1 | ReviewSplit => 2 | Organizing => 3
  | ReviewStructure => 4 | Designing => 5 | ReviewPrompt => 6
  | Painting => 7 | Done => 8 | BatchProcessing => 9
  end.

(** [type: 'split' | 'structure' | 'prompt' | 'image'] *)
Inductive card := SplitCard | StructureCard | PromptCard | ImageCard.

Module EditableCard.

Definition isCompleted (type : card) (note : NoteUnit) : bool :=
  match type with
  | SplitCard => truthy (structure note)
  | StructureCard => negb (falsy (generatedPrompt note))
  | PromptCard => negb (falsy (generatedPrompt note))
  | ImageCard => negb (falsy (finalImage note))
  end.

Definition locked (type : card) (note : NoteUnit) : bool :=
  match type with
  | SplitCard => Stage_value ReviewSplit <? Stage_value (stage note)
  | StructureCard => Stage_value ReviewPrompt <=? Stage_value (stage note)
  | PromptCard => Stage_value Painting <=? Stage_value (stage note)
  | ImageCard => Stage_value Done <=? Stage_value (stage note)
  end.

End EditableCard.

(** ** getActiveCardInfo (FlowCanvas.tsx) *)

(** [l.findIndex(p)], with [None] for [-1]. *)
Fixpoint findIndex {A} (p : A -> bool) (l : list A) : option nat :=
  match l with
  | [] => None
  | x :: r =>
    if p x then Some 0
    else match findIndex p r with
         | Some i => Some (S i)
         | None => None
         end
  end.

(** The card to focus; [None] is [{ index: -1, type: 'none' }]. *)
Definition getActiveCardInfo (notes : list NoteUnit) : option (nat * card) :=
  match notes with
  | [] => None
  | first :: _ =>
    match findIndex isProcessing notes with
    | Some processingIndex =>
      let note := nth processingIndex notes first in
      if negb (truthy (structure note)) then Some (processingIndex, SplitCard)
      else if falsy (generatedPrompt note)
           then Some (processingIndex, StructureCard)
           else if falsy (finalImage note)
                then Some (processingIndex, PromptCard)
                else Some (processingIndex, ImageCard)
    | None =>
      let lastIndex := length notes - 1 in
      let lastNote := nth lastIndex notes first in
      if negb (falsy (finalImage lastNote)) then Some (lastIndex, ImageCard)
      else if negb (falsy (generatedPrompt lastNote))
           then Some (lastIndex, PromptCard)
           else if truthy (structure lastNote)
                then Some (lastIndex, StructureCard)
                else Some (lastIndex, SplitCard)
    end
  end.

(** ** The proxy of the image endpoint (the serverless function) *)

Module Proxy.

(** An awaited promise of the handler: resolved, or rejected with a value
    whose [message] is the given text ([None] when it has none). *)
Inductive outcome (A : Type) :=
| Resolved (a : A)
| Rejected (message : option jsstring).
Arguments Resolved {A} a.
Arguments Rejected {A} message.

Definition and_then {A B} (c : outcome A) (k : A -> outcome B) : outcome B :=
  match c with
  | Resolved a => k a
  | Rejected m => Rejected m
  end.

(** A chunk of the request stream. *)
Inductive chunk := Text (s : jsstring) | Bytes (b : list N).

(** [Buffer.from(s)]: the UTF-8 bytes of a string; a surrogate that is not
    part of a pair is written as U+FFFD. *)
Fixpoint utf8_of_utf16 (s : jsstring) : list N :=
  match s with
  | [] => []
  | c :: r =>
    if (c <? 128)%N then c :: utf8_of_utf16 r
    else if (c <? 2048)%N
    then (192 + c / 64)%N :: (128 + c mod 64)%N :: utf8_of_utf16 r
    else if ((55296 <=? c) && (c <=? 56319))%N
    then match r with
         | d :: r' =>
           if ((56320 <=? d) && (d <=? 57343))%N
           then let cp := (65536 + (c - 55296) * 1024 + (d - 56320))%N in
                (240 + cp / 262144)%N :: (128 + (cp / 4096) mod 64)%N
                  :: (128 + (cp / 64) mod 64)%N :: (128 + cp mod 64)%N
                  :: utf8_of_utf16 r'
           else 239%N :: 191%N :: 189%N :: utf8_of_utf16 r
         | [] => [239; 191; 189]%N
         end
    else if ((56320 <=? c) && (c <=? 57343))%N
    then 239%N :: 191%N :: 189%N :: utf8_of_utf16 r
    else (224 + c / 4096)%N :: (128 + (c / 64) mod 64)%N
           :: (128 + c mod 64)%N :: utf8_of_utf16 r
  end.

Record Request := {
  method : option jsstring;
  url : option jsstring;
  content_type : option jsstring;       (* [req.headers['content-type']] *)
  stream : outcome (list chunk)         (* [for await (const chunk of req)] *)
}.

(** The second argument of [fetch]. *)
Record Init := {
  init_method : option jsstring;
  init_content_type : jsstring;
  init_body : option (list N)
}.

(** The upstream response. *)
Record Upstream := {
  status : nat;
  headers : list (jsstring * jsstring);
  arrayBuffer : outcome (list N)
}.

(** What the handler sends. *)
Record Reply := {
  reply_status : nat;
  reply_headers : list (jsstring * jsstring);
  reply_body : chunk
}.

Definition TARGET : jsstring := js "https://generativelanguage.googleapis.com".

Definition readBody (req : Request) : outcome (option (list N)) :=
  if match method req with
     | Some m => jseqb m (js "GET") || jseqb m (js "HEAD")
     | None => false
     end
  then Resolved None
  else
    and_then (stream req)
      (fun chunks =>
         match chunks with
         | [] => Resolved None
         | _ =>
           Resolved
             (Some (concat (map (fun c => match c with
                                          | Text s => utf8_of_utf16 s
                                          | Bytes b => b
                                          end) chunks)))
         end).

(** [s.replace(/^\/api\/imagen/, '')] *)
Definition strip_prefix (s : jsstring) : jsstring :=
  if starts_with N.eqb (js "/api/imagen") s
  then skipn (length (js "/api/imagen")) s
  else s.

(** [`${TARGET}${req.url?.replace(/^\/api\/imagen/, '')}?key=${key}`] *)
Definition upstreamUrl (key : jsstring) (req : Request) : jsstring :=
  TARGET
  ++ match url req with
     | Some u => strip_prefix u
     | None => js "undefined"
     end
  ++ js "?key=" ++ key.

(** The handler; [fetch u init] is the outcome of the upstream call. *)
Definition handler (GEMINI_API_KEY API_KEY : option jsstring)
           (req : Request) (fetch : jsstring -> Init -> outcome Upstream)
  : Reply :=
  match str_or GEMINI_API_KEY (str_or API_KEY []) with
  | [] =>
    {| reply_status := 500; reply_headers := [];
       reply_body := Text (js "Missing GEMINI_API_KEY/API_KEY") |}
  | key =>
    match
      and_then (readBody req) (fun body =>
      and_then (fetch (upstreamUrl key req)
                      {| init_method := method req;
                         init_content_type :=
                           str_or (content_type req) (js "application/json");
                         init_body := body |}) (fun upstream =>
      and_then (arrayBuffer upstream) (fun buffer =>
      Resolved {| reply_status := status upstream;
                  reply_headers := headers upstream;
                  reply_body := Bytes buffer |})))
    with
    | Resolved reply => reply
    | Rejected message =>
      {| reply_status := 500; reply_headers := [];
         reply_body := Text (str_or message (js "Proxy error")) |}
    end
  end.

End Proxy.


(** ** More sample inputs *)

Module Scenario.

Definition quoted (s : jsstring) : jsstring := dq ++ s ++ dq.

(** The JSON text of an outline with one module, and its value. *)
Definition outline_text : jsstring :=
  js "{" ++ quoted (js "title") ++ js ":" ++ quoted (js "潮汐")
  ++ js "," ++ quoted (js "modules") ++ js ":[{"
  ++ quoted (js "heading") ++ js ":" ++ quoted (js "成因")
  ++ js "," ++ quoted (js "content") ++ js ":" ++ quoted (js "月球引力")
  ++ js "}]}".

Definition outline_fields : list (jsstring * value) :=
  [ (js "title", VString (js "潮汐"));
    (js "modules",
     VArray [ VObject [ (js "heading", VString (js "成因"));
                        (js "content", VString (js "月球引力")) ] ]) ].

Definition parse : jsstring -> option value :=
  parse_table [ (outline_text, VObject outline_fields) ].

(** An outline whose [modules] is a text. *)
Definition broken_fields : list (jsstring * value) :=
  [ (js "title", VString (js "潮汐"));
    (js "modules", VString (js "成因, 影响")) ].

(** A unit with a structure and no prompt. *)
Definition structured_unit (i : nat) (fields : list (jsstring * value))
  : NoteUnit :=
  {| id := Demo.uuidv4 i; order := i + 1; originalText := Demo.sentence;
     stage := ReviewStructure; isProcessing := false; error := None;
     structure := Some (VObject fields); generatedPrompt := None;
     finalImage := None |}.

(** An environment that names a prediction model and holds no key. *)
Definition env_without_key : Env :=
  {| env_API_KEY := None;
     env_IMAGE_MODEL := Some (js "imagen-4.0-generate-001") |}.

Definition image : jsstring := js "data:image/png;base64,AAAA".


End Scenario.
(* ================================================================== *)
(** * The pipeline *)
(* ================================================================== *)

Section Pipeline.

Set Default Proof Using "Type".

(** [JSON.parse]; [None] stands for the [SyntaxError] it throws. *)
Variable JSON_parse : jsstring -> option value.
(** [String.prototype.toLowerCase]. *)
Variable toLowerCase : jsstring -> jsstring.

Definition parse (raw : jsstring) : completion value :=
  match JSON_parse raw with
  | Some v => Return v
  | None => Throw SyntaxError
  end.

(** [text?.replace(/```json/gi, '').replace(/```/g, '').trim() || dflt] *)
Definition unfence (text : option jsstring) (dflt : jsstring) : jsstring :=
  match text with
  | None => dflt
  | Some t =>
    match trim (remove_all (js "```") (remove_all_ci (js "```json") t)) with
    | [] => dflt
    | r => r
    end
  end.

(** ** processLeftBrain *)

Definition fallbackOutline : value :=
  VObject
    [ (js "title", VString (js "解析失败"));
      (js "summary_context", VString (js "请重试或检查输入"));
      (js "visual_theme_keywords", VString (js "abstract"));
      (js "modules",
       VArray [ VObject [ (js "id", VString (js "err1"));
                          (js "heading", VString (js "错误"));
                          (js "content", VString (js "无法解析内容，请重试")) ] ]) ].

(** [(s, i) => ({ ...s, id: `m${i} ` })] *)
Definition with_id (s : value) (i : nat) : value :=
  VObject (set_field (js "id") (VString (js "m" ++ decimal i ++ js " "))
                     (spread s)).

(** [v.length === 0] *)
Definition length_is_zero (v : value) : bool :=
  match v with
  | VArray [] | VString [] => true
  | _ => false
  end.

(** The body of the [try] block.  After [json.modules = ...] the source
    reads [json.modules] back; on the objects and arrays of [JSON.parse]
    this is the value just stored, which the model tests directly. *)
Definition leftBrain_try (ai : completion Gen.Response) : completion value :=
  res <- ai ;;
  let raw := unfence (Gen.text res) (js "{}") in
  json <- parse raw ;;
  m <- Get json (js "modules") ;;
  mapped <- OptMap m with_id ;;
  let modules := or_else mapped (VArray []) in
  json' <- Put json (js "modules") modules ;;
  if negb (ToBoolean modules) || length_is_zero modules
  then Throw (Error (js "Empty modules"))
  else Return json'.

Definition processLeftBrain (ai : completion Gen.Response) (text : jsstring)
  : completion value :=
  try_catch (leftBrain_try ai) (fun _ => Return fallbackOutline).

(** ** processSplitBrain *)

(** [typeof p === 'string' && p.trim().length >= 100] *)
Definition validPart (p : value) : bool :=
  match p with
  | VString s => 100 <=? length (trim s)
  | _ => false
  end.

(** The strings of a list of values. *)
Fixpoint strings_of (l : list value) : list jsstring :=
  match l with
  | [] => []
  | VString s :: r => s :: strings_of r
  | _ :: r => strings_of r
  end.

Definition splitBrain_try (ai : completion Gen.Response) (text : jsstring)
  : completion (list jsstring) :=
  res <- ai ;;
  let raw := unfence (Gen.text res) (js "[]") in
  parts <- parse raw ;;
  match parts with
  | VArray (p :: ps) =>
    match filter validPart (p :: ps) with
    | [] => Return [text]
    | validParts => Return (strings_of validParts)
    end
  | _ => Return [text]
  end.

Definition processSplitBrain (ai : completion Gen.Response) (text : jsstring)
  : completion (list jsstring) :=
  try_catch (splitBrain_try ai text) (fun _ => Return [text]).

(** ** handleSplit *)

(** [parts.map((text, i) => ({ id: uuidv4(), order: i + 1, ... }))];
    [uuidv4 i] is the identifier drawn for the unit at index [i]. *)
Definition newNotes (uuidv4 : nat -> jsstring) (parts : list jsstring)
  : list NoteUnit :=
  mapi (fun text i =>
          {| id := uuidv4 i; order := i + 1; originalText := text;
             stage := Organizing; isProcessing := false; error := None;
             structure := None; generatedPrompt := None;
             finalImage := None |}) parts.

(** The units [handleSplit] stores with [setNotes]; [None] when it returns
    before storing any ([rawText] blank, no API key, or an exception). *)
Definition handleSplit (rawText : jsstring) (hasApiKey : bool)
           (ai : completion Gen.Response) (uuidv4 : nat -> jsstring)
  : option (list NoteUnit) :=
  match trim rawText with
  | [] => None
  | inputText =>
    if negb hasApiKey then None
    else match processSplitBrain ai inputText with
         | Return parts => Some (newNotes uuidv4 parts)
         | Throw _ => None
         end
  end.

(** ** processHand

    The arguments [prompt] and [styleId] of the source, and its helper
    [getStyleInstructions], only build the text of the request; what
    [processHand] does next depends on the answers alone. *)

Definition IMAGE_MODEL (env : Env) : jsstring :=
  str_or (env_IMAGE_MODEL env) (js "gemini-3-pro-image-preview").

Definition maxRetries : nat := 3.

(** The inner loop of [extractInlineImage], over the parts of one
    candidate.  [part.inlineData] on a missing part is a [TypeError]. *)
Fixpoint inlineOfParts (parts : list (option Gen.Part))
  : completion (option (jsstring * jsstring)) :=
  match parts with
  | [] => Return None
  | None :: _ => Throw TypeError
  | Some part :: r =>
    match Gen.inlineData part with
    | Some inline =>
      match Gen.data inline with
      | Some (c :: d) =>
        Return (Some (c :: d, str_or (Gen.mimeType inline) (js "image/png")))
      | _ => inlineOfParts r
      end
    | None => inlineOfParts r
    end
  end.

(** [cand?.content?.parts || []] *)
Definition partsOf (cand : option Gen.Candidate) : list (option Gen.Part) :=
  match cand with
  | Some c =>
    match Gen.content c with
    | Some ct => match Gen.parts ct with Some ps => ps | None => [] end
    | None => []
    end
  | None => []
  end.

Fixpoint inlineOfCandidates (cands : list (option Gen.Candidate))
  : completion (option (jsstring * jsstring)) :=
  match cands with
  | [] => Return None
  | cand :: r =>
    found <- inlineOfParts (partsOf cand) ;;
    match found with
    | Some img => Return (Some img)
    | None => inlineOfCandidates r
    end
  end.

Definition extractInlineImage (response : Gen.Response)
  : completion (option (jsstring * jsstring)) :=
  inlineOfCandidates
    (match Gen.candidates response with Some cs => cs | None => [] end).

(** [`data:${mimeType};base64,${data}`] *)
Definition dataUri (mimeType data : jsstring) : jsstring :=
  js "data:" ++ mimeType ++ js ";base64," ++ data.

Definition fetchImagen (env : Env) (fetch : completion Http.Response)
  : completion jsstring :=
  if falsy (env_API_KEY env)
  then Throw (Error (js "Missing API_KEY for Imagen request"))
  else
    res <- fetch ;;
    if negb (Http.ok res)
    then
      errText <- Http.text res ;;
      Throw (Error (js "Imagen HTTP " ++ num_text (Http.status res)
                    ++ js ": " ++ errText))
    else
      json <- Http.json res ;;
      let img := OptIndex (OptGet json (js "predictions")) 0 in
      let data :=
        or_else (or_else (OptGet img (js "bytesBase64Encoded"))
                         (OptGet img (js "base64Data")))
                (OptGet img (js "data")) in
      let mimeType :=
        or_else (OptGet img (js "mimeType")) (VString (js "image/png")) in
      if negb (ToBoolean data)
      then Throw (Error (js "Imagen response missing image data"))
      else
        mimeType' <- ToString mimeType ;;
        data' <- ToString data ;;
        Return (dataUri mimeType' data').

(** The two backend shapes. *)
Inductive backend := InlinePart | PredictionList.

(** [IMAGE_MODEL.toLowerCase().includes('gemini')] *)
Definition backendOf (env : Env) : backend :=
  if includes (toLowerCase (IMAGE_MODEL env)) (js "gemini")
  then InlinePart
  else PredictionList.

(** The body of the [try] block of one iteration. *)
Definition attempt (env : Env) (ai : completion Gen.Response)
           (fetch : completion Http.Response) : completion jsstring :=
  match backendOf env with
  | InlinePart =>
    res <- ai ;;
    inline <- extractInlineImage res ;;
    match inline with
    | None => Throw (Error (js "No inline image returned"))
    | Some (data, mimeType) => Return (dataUri mimeType data)
    end
  | PredictionList => fetchImagen env fetch
  end.

(** What an observer of [processHand] sees: the attempts, with the backend
    each one used, and the [setTimeout] delays in milliseconds. *)
Inductive event :=
| Attempt (i : nat) (b : backend)
| Delay (ms : nat).

(** The [for] loop from iteration [i] on, with [remaining = maxRetries - i]
    iterations left.  [ai i] and [fetch i] are what the services answer to
    the call of iteration [i]. *)
Fixpoint attemptsFrom (env : Env) (ai : nat -> completion Gen.Response)
         (fetch : nat -> completion Http.Response)
         (remaining i : nat) (lastError : thrown)
  : list event * completion jsstring :=
  match remaining with
  | O => ([], Throw lastError)
  | S remaining' =>
    match attempt env (ai i) (fetch i) with
    | Return uri => ([Attempt i (backendOf env)], Return uri)
    | Throw e =>
      let (trace, result) :=
        attemptsFrom env ai fetch remaining' (S i) e in
      (Attempt i (backendOf env) :: Delay (1000 * (i + 1)) :: trace, result)
    end
  end.

Definition processHand (env : Env) (ai : nat -> completion Gen.Response)
           (fetch : nat -> completion Http.Response)
  : list event * completion jsstring :=
  attemptsFrom env ai fetch maxRetries 0 Undefined.

Definition delays (trace : list event) : list nat :=
  flat_map (fun e => match e with Delay ms => [ms] | Attempt _ _ => [] end)
           trace.

Definition attempts (trace : list event) : list (nat * backend) :=
  flat_map (fun e => match e with Attempt i b => [(i, b)] | Delay _ => [] end)
           trace.

(** ** The batch waves *)

(** A wave runs one task per unit.  A task touches the store twice: when it
    issues its external call and when that call has settled. *)
Inductive step :=
| Issue (target : jsstring) (updates : PartialNote)
| Settle (target : jsstring) (updates : PartialNote).

Definition step_target (s : step) : jsstring :=
  match s with Issue t _ | Settle t _ => t end.

Definition step_updates (s : step) : PartialNote :=
  match s with Issue _ u | Settle _ u => u end.

Definition apply_step (store : list NoteUnit) (s : step) : list NoteUnit :=
  updateNote (step_target s) (step_updates s) store.

Definition run (trace : list step) (store : list NoteUnit) : list NoteUnit :=
  fold_left apply_step trace store.

(** The calls in flight after a trace: issued and not yet settled. *)
Definition in_flight (trace : list step) : Z :=
  fold_left (fun k s => match s with
                        | Issue _ _ => k + 1
                        | Settle _ _ => k - 1
                        end)%Z trace 0%Z.

(** The orders in which [Promise.all] can run its tasks: every merge of
    their step lists that keeps the order of each task. *)
Inductive interleave {A} : list (list A) -> list A -> Prop :=
| interleave_done ts :
    Forall (fun t => t = []) ts -> interleave ts []
| interleave_step ts1 a t ts2 l :
    interleave (ts1 ++ t :: ts2) l ->
    interleave (ts1 ++ (a :: t) :: ts2) (a :: l).

(** [for (const c of chunks) await Promise.all(c.map(task))]: the chunks
    one after another. *)
Inductive in_sequence {A U} (task : U -> list A)
  : list (list U) -> list A -> Prop :=
| in_sequence_nil : in_sequence task [] []
| in_sequence_cons c cs l ls :
    interleave (map task c) l -> in_sequence task cs ls ->
    in_sequence task (c :: cs) (l ++ ls).

Definition processing (b : bool) : PartialNote :=
  {| p_id := None; p_order := None; p_originalText := None; p_stage := None;
     p_isProcessing := Some b; p_error := None; p_structure := None;
     p_generatedPrompt := None; p_finalImage := None |}.

Definition failed (message : jsstring) : PartialNote :=
  {| p_id := None; p_order := None; p_originalText := None; p_stage := None;
     p_isProcessing := Some false; p_error := Some message;
     p_structure := None; p_generatedPrompt := None; p_finalImage := None |}.

(** [processNoteStructure], given how [processLeftBrain] completed. *)
Definition processNoteStructure (left : completion value) (note : NoteUnit)
  : list step :=
  [ Issue (id note) (processing true);
    match left with
    | Return res =>
      Settle (id note)
             {| p_id := None; p_order := None; p_originalText := None;
                p_stage := Some ReviewStructure;
                p_isProcessing := Some false; p_error := None;
                p_structure := Some res; p_generatedPrompt := None;
                p_finalImage := None |}
    | Throw _ => Settle (id note) (failed (js "结构整理失败"))
    end ].

(** [await Promise.all(notes.map(n => processNoteStructure(n)))], where
    [ai n] is what the service answers for unit [n]. *)
Definition handleBatchOrganize (ai : NoteUnit -> completion Gen.Response)
           (notes : list NoteUnit) (trace : list step) : Prop :=
  interleave
    (map (fun n =>
            processNoteStructure (processLeftBrain (ai n) (originalText n)) n)
         notes)
    trace.

(** [paintNote], given how [processHand] completed. *)
Definition paintNote (hand : completion jsstring) (note : NoteUnit)
  : list step :=
  if falsy (generatedPrompt note) then []
  else
    [ Issue (id note) (processing true);
      match hand with
      | Return img =>
        Settle (id note)
               {| p_id := None; p_order := None; p_originalText := None;
                  p_stage := Some Done; p_isProcessing := Some false;
                  p_error := None; p_structure := None;
                  p_generatedPrompt := None; p_finalImage := Some img |}
      | Throw _ => Settle (id note) (failed (js "绘制失败"))
      end ].

(** [arr.slice(a, b)] for [a <= b]. *)
Definition slice {A} (arr : list A) (a b : nat) : list A :=
  firstn (b - a) (skipn a arr).

(** [Math.ceil(n / size)] for a positive [size]. *)
Definition ceil_div (n size : nat) : nat := (n + size - 1) / size.

(** [Array.from({ length: Math.ceil(arr.length / size) },
                (v, i) => arr.slice(i * size, i * size + size))] *)
Definition chunk {A} (arr : list A) (size : nat) : list (list A) :=
  map (fun i => slice arr (i * size) (i * size + size))
      (seq 0 (ceil_div (length arr) size)).

(** The traces of [handleBatchPaint]; [hand n] is how [processHand]
    completes for unit [n].  Without an API key nothing is started. *)
Definition handleBatchPaint (hasApiKey : bool)
           (hand : NoteUnit -> completion jsstring)
           (notes : list NoteUnit) (trace : list step) : Prop :=
  if hasApiKey
  then in_sequence (fun n => paintNote (hand n) n) (chunk notes 3) trace
  else trace = [].

(** ** Vocabulary of the statements *)

(** A unit after a failed phase: [{ ...n, isProcessing: false, error }]. *)
Definition with_failure (n : NoteUnit) (message : jsstring) : NoteUnit :=
  {| id := id n; order := order n; originalText := originalText n;
     stage := stage n; isProcessing := false; error := Some message;
     structure := structure n; generatedPrompt := generatedPrompt n;
     finalImage := finalImage n |}.

(** A unit after a successful structuring phase. *)
Definition with_structure (n : NoteUnit) (res : value) : NoteUnit :=
  {| id := id n; order := order n; originalText := originalText n;
     stage := ReviewStructure; isProcessing := false; error := error n;
     structure := Some res; generatedPrompt := generatedPrompt n;
     finalImage := finalImage n |}.

(** A unit after a successful rendering phase. *)
Definition with_image (n : NoteUnit) (img : jsstring) : NoteUnit :=
  {| id := id n; order := order n; originalText := originalText n;
     stage := Done; isProcessing := false; error := error n;
     structure := structure n; generatedPrompt := generatedPrompt n;
     finalImage := Some img |}.

(** Where the structuring wave leaves a unit whose [processLeftBrain]
    completed with [left]. *)
Definition structured (left : completion value) (n : NoteUnit) : NoteUnit :=
  match left with
  | Return res => with_structure n res
  | Throw _ => with_failure n (js "结构整理失败")
  end.

(** Where the rendering wave leaves a unit whose [processHand] completed
    with [hand]. *)
Definition painted (hand : completion jsstring) (n : NoteUnit) : NoteUnit :=
  if falsy (generatedPrompt n) then n
  else match hand with
       | Return img => with_image n img
       | Throw _ => with_failure n (js "绘制失败")
       end.

(** The outline type of types.ts, read with every property optional: a
    property is a string or is missing ([undefined] or [null]), [modules] is
    an array of modules or is missing, and a module is missing or is an
    object whose [heading] and [content] are strings or are missing. *)
Definition string_or_missing (v : value) : bool :=
  match v with
  | VUndefined | VNull | VString _ => true
  | _ => false
  end.

Definition is_ContentModule (m : value) : bool :=
  match m with
  | VUndefined | VNull => true
  | VObject _ =>
    string_or_missing (OptGet m (js "heading"))
    && string_or_missing (OptGet m (js "content"))
  | _ => false
  end.

Definition is_LeftBrainData (data : value) : bool :=
  match data with
  | VObject _ =>
    string_or_missing (OptGet data (js "title"))
    && string_or_missing (OptGet data (js "summary_context"))
    && string_or_missing (OptGet data (js "visual_theme_keywords"))
    && match OptGet data (js "modules") with
       | VUndefined | VNull => true
       | VArray ms => forallb is_ContentModule ms
       | _ => false
       end
  | _ => false
  end.






(** The effect of one step on one unit of the store. *)
Definition apply_to (n : NoteUnit) (s : step) : NoteUnit :=
  if jseqb (id n) (step_target s) then merge n (step_updates s) else n.

(** A step that does not rename the unit it updates. *)
Definition keeps_id (s : step) : Prop := p_id (step_updates s) = None.

(** The calls a trace issues. *)
Definition issues (trace : list step) : nat :=
  length (filter (fun s => match s with Issue _ _ => true | _ => false end)
                 trace).

(** What a step adds to the number of calls in flight. *)
Definition weight (s : step) : Z :=
  match s with Issue _ _ => 1 | Settle _ _ => -1 end.

(** The tasks of a wave, each owned by its unit. *)
Definition owned_tasks (task : NoteUnit -> list step) : Prop :=
  forall n, Forall (fun s => keeps_id s /\ step_target s = id n) (task n).

(** ** The other phases *)

(** ** handleOrganize

    The single-unit path: the application stage it ends in, and the units
    it stores with [setNotes], if it stores any.  [None] when it returns
    before doing anything ([rawText] blank, no API key).  [getAI] is how
    the construction of the client completes, and, when it returns, how
    the call of the service completes. *)
Definition handleOrganize (rawText : jsstring) (hasApiKey : bool)
           (getAI : completion (completion Gen.Response))
           (uuidv4 : nat -> jsstring)
  : option (Stage * option (list NoteUnit)) :=
  match trim rawText with
  | [] => None
  | inputText =>
    if negb hasApiKey then None
    else
      Some match (ai <- getAI ;; processLeftBrain ai inputText) with
           | Return res =>
             (ReviewStructure,
              Some [ {| id := uuidv4 0; order := 1;
                        originalText := inputText;
                        stage := ReviewStructure; isProcessing := false;
                        error := None; structure := Some res;
                        generatedPrompt := None; finalImage := None |} ])
           | Throw _ => (Input, None)
           end
  end.

(** ** handleBatchDesign *)

(** [designNote]: the update made at once and the one made when the timer
    fires.  When [processRightBrain] throws in the timer callback the second
    update is not made. *)
Definition designNote (visualSettings : VisualSettings) (note : NoteUnit)
  : list step :=
  match structure note with
  | Some s =>
    if ToBoolean s
    then Issue (id note) (processing true)
         :: match processRightBrain s visualSettings with
            | Return prompt =>
              [ Settle (id note)
                       {| p_id := None; p_order := None;
                          p_originalText := None;
                          p_stage := Some ReviewPrompt;
                          p_isProcessing := Some false; p_error := None;
                          p_structure := None;
                          p_generatedPrompt := Some prompt;
                          p_finalImage := None |} ]
            | Throw _ => []
            end
    else []
  | None => []
  end.

(** [notes.forEach(n => designNote(n))]: the timers have random delays and
    fire in any order. *)
Definition handleBatchDesign (visualSettings : VisualSettings)
           (notes : list NoteUnit) (trace : list step) : Prop :=
  interleave (map (designNote visualSettings) notes) trace.

(** Where the design wave leaves a unit. *)
Definition designed (visualSettings : VisualSettings) (n : NoteUnit)
  : NoteUnit :=
  match structure n with
  | Some s =>
    if ToBoolean s
    then match processRightBrain s visualSettings with
         | Return prompt =>
           {| id := id n; order := order n; originalText := originalText n;
              stage := ReviewPrompt; isProcessing := false;
              error := error n; structure := structure n;
              generatedPrompt := Some prompt; finalImage := finalImage n |}
         | Throw _ =>
           {| id := id n; order := order n; originalText := originalText n;
              stage := stage n; isProcessing := true;
              error := error n; structure := structure n;
              generatedPrompt := generatedPrompt n;
              finalImage := finalImage n |}
         end
    else n
  | None => n
  end.


(** What no phase changes of a unit. *)
Definition identity (n : NoteUnit) : jsstring * nat * jsstring :=
  (id n, order n, originalText n).

(** A step that leaves the identity of its unit alone. *)
Definition keeps_identity (s : step) : Prop :=
  p_id (step_updates s) = None /\ p_order (step_updates s) = None
  /\ p_originalText (step_updates s) = None.

(** A step that does not take its unit back to a stage in which its text
    can be edited. *)
Definition keeps_text_locked (s : step) : Prop :=
  match p_stage (step_updates s) with
  | Some st => Stage_value ReviewSplit < Stage_value st
  | None => True
  end.

(** The trace of a wave whose tasks run one after the other, and of a
    wave in chunks whose tasks do. *)
Definition sequential {U} (task : U -> list step) (units : list U)
  : list step :=
  concat (map task units).

Definition sequential_chunks {U} (task : U -> list step)
           (chunks : list (list U)) : list step :=
  concat (map (sequential task) chunks).
(* ================================================================== *)
(** * Basic facts *)
(* ================================================================== *)

Lemma jseqb_eq (a b : jsstring) : jseqb a b = true <-> a = b.
Proof.
  revert b; induction a as [|x a IH]; intros [|y b]; simpl;
    try (split; [discriminate | discriminate]); try tauto.
  rewrite andb_true_iff, N.eqb_eq, IH. split.
  - intros [-> ->]; reflexivity.
  - intros H; injection H as -> ->; split; reflexivity.
Qed.

Lemma jseqb_refl (a : jsstring) : jseqb a a = true.
Proof. apply jseqb_eq; reflexivity. Qed.

Lemma jseqb_neq (a b : jsstring) : jseqb a b = false <-> a <> b.
Proof.
  rewrite <- jseqb_eq. destruct (jseqb a b); split; congruence.
Qed.

Lemma trimStart_length (s : jsstring) : length (trimStart s) <= length s.
Proof.
  induction s as [|c r IH]; simpl; [lia|].
  destruct (is_white c); simpl; lia.
Qed.

Lemma trim_length (s : jsstring) : length (trim s) <= length s.
Proof.
  unfold trim, trimEnd. rewrite length_rev.
  etransitivity; [apply trimStart_length|].
  rewrite length_rev. apply trimStart_length.
Qed.

(* ================================================================== *)
(** * StructureExtractor *)
(* ================================================================== *)

Lemma run_processNoteStructure (left : completion value) (note : NoteUnit) :
  run (processNoteStructure left note) [note] = [structured left note].
Proof.
  unfold run, processNoteStructure, apply_step, updateNote; simpl.
  rewrite jseqb_refl; simpl.
  destruct left; simpl; rewrite jseqb_refl; reflexivity.
Qed.

(** [processLeftBrain] never throws: its [catch] turns every exception of
    the [try] block into the fallback outline. *)
Lemma processLeftBrain_returns (ai : completion Gen.Response) (text : jsstring) :
  exists outline, processLeftBrain ai text = Return outline.
Proof.
  unfold processLeftBrain, try_catch.
  destruct (leftBrain_try ai); eauto.
Qed.

(** The outline is the fallback one exactly when the [try] block throws. *)
Lemma processLeftBrain_throw (ai : completion Gen.Response) (text : jsstring)
      (e : thrown) :
  leftBrain_try ai = Throw e ->
  processLeftBrain ai text = Return fallbackOutline.
Proof. unfold processLeftBrain; intros ->; reflexivity. Qed.

(** The two outcomes of [processLeftBrain]: the fallback outline, or the
    parsed object with its non-empty module list renumbered. *)
Lemma processLeftBrain_cases (ai : completion Gen.Response) (text : jsstring) :
  processLeftBrain ai text = Return fallbackOutline
  \/ exists res fields m ms,
      ai = Return res
      /\ JSON_parse (unfence (Gen.text res) (js "{}")) = Some (VObject fields)
      /\ lookup (js "modules") fields = Some (VArray (m :: ms))
      /\ processLeftBrain ai text
         = Return (VObject (set_field (js "modules")
                                      (VArray (mapi with_id (m :: ms)))
                                      fields)).
Proof.
  unfold processLeftBrain, leftBrain_try, parse.
  destruct ai as [res|e]; [|now left]. cbn [bind].
  destruct (JSON_parse _) as [json|] eqn:Hj; [|now left]. cbn [bind].
  destruct json as [| | | | | |fields]; try (now left).
  cbn [Get bind].
  destruct (lookup (js "modules") fields) as [v|] eqn:Hm; [|now left].
  destruct v as [| | | | |ms|]; try (now left).
  destruct ms as [|m ms]; [now left|].
  right. exists res, fields, m, ms. repeat split; try assumption.
Qed.

(** C1: when the response of the structuring service cannot be parsed as
    JSON, or parses to an object whose [modules] is missing or is the empty
    array, [processLeftBrain] returns the fixed fallback outline, whose
    title is "解析失败" and whose module list has exactly one module, and
    [processNoteStructure] moves the unit to [ReviewStructure] with this
    outline as its structure, without setting its error. *)
Theorem structure_fallback_on_malformed_response
        (res : Gen.Response) (text : jsstring) (note : NoteUnit) :
  (JSON_parse (unfence (Gen.text res) (js "{}")) = None
   \/ exists fields,
       JSON_parse (unfence (Gen.text res) (js "{}")) = Some (VObject fields)
       /\ (lookup (js "modules") fields = None
           \/ lookup (js "modules") fields = Some (VArray []))) ->
  processLeftBrain (Return res) text = Return fallbackOutline
  /\ Get fallbackOutline (js "title") = Return (VString (js "解析失败"))
  /\ (exists m, Get fallbackOutline (js "modules") = Return (VArray [m]))
  /\ run (processNoteStructure
            (processLeftBrain (Return res) (originalText note)) note) [note]
     = [ {| id := id note; order := order note;
            originalText := originalText note;
            stage := ReviewStructure; isProcessing := false;
            error := error note; structure := Some fallbackOutline;
            generatedPrompt := generatedPrompt note;
            finalImage := finalImage note |} ].
Proof.
  intros H.
  assert (Hfb : forall t, processLeftBrain (Return res) t = Return fallbackOutline).
  { intros t. unfold processLeftBrain, leftBrain_try, parse; simpl.
    destruct H as [-> | (fields & -> & [Hm | Hm])]; simpl.
    - reflexivity.
    - rewrite Hm; reflexivity.
    - rewrite Hm; reflexivity. }
  split; [apply Hfb|].
  split; [reflexivity|].
  split; [eexists; reflexivity|].
  rewrite run_processNoteStructure, Hfb. reflexivity.
Qed.

(** C2: a rejected call of the structuring service is caught inside
    [processLeftBrain] like a malformed response: the unit receives the
    fallback outline and moves to [ReviewStructure] with its error
    untouched; the failure branch of [processNoteStructure] is not taken. *)
Theorem transport_failure_absorbed_by_fallback
        (e : thrown) (text : jsstring) (note : NoteUnit) :
  processLeftBrain (Throw e) text = Return fallbackOutline
  /\ run (processNoteStructure
            (processLeftBrain (Throw e) (originalText note)) note) [note]
     = [ {| id := id note; order := order note;
            originalText := originalText note;
            stage := ReviewStructure; isProcessing := false;
            error := error note; structure := Some fallbackOutline;
            generatedPrompt := generatedPrompt note;
            finalImage := finalImage note |} ].
Proof.
  split; [reflexivity|].
  rewrite run_processNoteStructure. reflexivity.
Qed.

(** Whatever the service does, a unit of the structuring wave ends in
    [ReviewStructure] with a structure and no new error. *)
Lemma structuring_never_fails (ai : completion Gen.Response) (note : NoteUnit) :
  exists outline,
    run (processNoteStructure
           (processLeftBrain ai (originalText note)) note) [note]
    = [with_structure note outline].
Proof.
  destruct (processLeftBrain_returns ai (originalText note)) as [o Ho].
  exists o. rewrite run_processNoteStructure, Ho. reflexivity.
Qed.

(* ================================================================== *)
(** * TextSplitter *)
(* ================================================================== *)

Lemma validPart_inv (p : value) :
  validPart p = true -> exists s, p = VString s /\ 100 <= length (trim s).
Proof.
  destruct p; try discriminate. unfold validPart.
  intros H. exists s. split; [reflexivity|]. now apply Nat.leb_le.
Qed.

Lemma validPart_short (s : jsstring) :
  length s < 100 -> validPart (VString s) = false.
Proof.
  intros H. unfold validPart. apply Nat.leb_gt.
  pose proof (trim_length s). lia.
Qed.

Lemma strings_of_valid (l : list value) :
  Forall (fun s => 100 <= length (trim s) /\ In (VString s) l)
         (strings_of (filter validPart l)).
Proof.
  induction l as [|p l IH]; simpl; [constructor|].
  assert (IH' : Forall (fun s => 100 <= length (trim s) /\ In (VString s) (p :: l))
                       (strings_of (filter validPart l))).
  { eapply Forall_impl; [|exact IH]. simpl. intros s [? ?]. auto. }
  destruct (validPart p) eqn:Hp; [|exact IH'].
  destruct (validPart_inv p Hp) as (s & -> & Hs). simpl.
  constructor; [split; [exact Hs | now left] | exact IH'].
Qed.

Lemma strings_of_valid_nil (l : list value) :
  strings_of (filter validPart l) = [] -> filter validPart l = [].
Proof.
  induction l as [|p l IH]; simpl; [reflexivity|].
  destruct (validPart p) eqn:Hp; [|exact IH].
  destruct (validPart_inv p Hp) as (s & -> & _). simpl. discriminate.
Qed.

(** [processSplitBrain] in closed form: the [catch] and the three [return]s
    of the source. *)
Lemma processSplitBrain_eq (ai : completion Gen.Response) (text : jsstring) :
  processSplitBrain ai text =
  Return match ai with
         | Return res =>
           match JSON_parse (unfence (Gen.text res) (js "[]")) with
           | Some (VArray parts) =>
             match filter validPart parts with
             | [] => [text]
             | validParts => strings_of validParts
             end
           | _ => [text]
           end
         | Throw _ => [text]
         end.
Proof.
  unfold processSplitBrain, splitBrain_try, parse.
  destruct ai as [res|e]; [|reflexivity].
  cbn -[filter validPart strings_of unfence].
  destruct (JSON_parse _) as [v|]; [|reflexivity].
  destruct v as [| | | | |parts|]; try reflexivity.
  destruct parts as [|p ps]; [reflexivity|].
  cbn -[filter validPart strings_of].
  destruct (filter validPart (p :: ps)); reflexivity.
Qed.

(** C4: [processSplitBrain] always returns a non-empty list of segments and
    never throws.  A returned string shorter than 100 characters does not
    pass the filter.  The result is the one segment [text] when the call is
    rejected, when the reply is not JSON, when it is not an array, and when
    no segment passes the filter; otherwise it is the list of the segments
    that passed, each of at least 100 characters. *)
Theorem split_is_total_with_fallback
        (ai : completion Gen.Response) (text : jsstring) :
  (exists segments,
      processSplitBrain ai text = Return segments /\ segments <> [])
  /\ (forall s, length s < 100 -> validPart (VString s) = false)
  /\ (forall e, ai = Throw e -> processSplitBrain ai text = Return [text])
  /\ (forall res,
         ai = Return res ->
         (forall parts,
             JSON_parse (unfence (Gen.text res) (js "[]"))
             <> Some (VArray parts)) ->
         processSplitBrain ai text = Return [text])
  /\ (forall res parts,
         ai = Return res ->
         JSON_parse (unfence (Gen.text res) (js "[]")) = Some (VArray parts) ->
         (filter validPart parts = [] ->
          processSplitBrain ai text = Return [text])
         /\ (filter validPart parts <> [] ->
             processSplitBrain ai text
             = Return (strings_of (filter validPart parts))
             /\ Forall (fun s => 100 <= length s /\ In (VString s) parts)
                       (strings_of (filter validPart parts)))).
Proof.
  split; [|split; [|split; [|split]]].
  - rewrite processSplitBrain_eq. eexists; split; [reflexivity|].
    destruct ai as [res|e]; [|discriminate].
    destruct (JSON_parse _) as [[| | | | |parts|]|]; try discriminate.
    destruct (filter validPart parts) as [|v vs] eqn:Hf; [discriminate|].
    intros Hnil. rewrite <- Hf in Hnil.
    apply strings_of_valid_nil in Hnil. congruence.
  - exact validPart_short.
  - intros e ->. apply processSplitBrain_eq.
  - intros res -> Hna. rewrite processSplitBrain_eq.
    destruct (JSON_parse _) as [[| | | | |parts|]|]; try reflexivity.
    exfalso. eapply Hna; reflexivity.
  - intros res parts -> Hp. rewrite processSplitBrain_eq, Hp. split.
    + intros ->. reflexivity.
    + intros Hne. split.
      * destruct (filter validPart parts); [congruence | reflexivity].
      * eapply Forall_impl; [|apply strings_of_valid].
        simpl. intros s [H1 H2]. split; [|exact H2].
        pose proof (trim_length s). lia.
Qed.

Lemma newNotes_single (uuidv4 : nat -> jsstring) (text : jsstring) :
  newNotes uuidv4 [text]
  = [ {| id := uuidv4 0; order := 1; originalText := text;
         stage := Organizing; isProcessing := false; error := None;
         structure := None; generatedPrompt := None; finalImage := None |} ].
Proof. reflexivity. Qed.



(* ================================================================== *)
(** * PromptSynthesizer *)
(* ================================================================== *)

Lemma lookup_set_field (k k' : jsstring) (v : value)
      (fs : list (jsstring * value)) :
  lookup k' (set_field k v fs)
  = if jseqb k k' then Some v else lookup k' fs.
Proof.
  induction fs as [|[k0 v0] r IH]; simpl.
  - destruct (jseqb k k'); reflexivity.
  - destruct (jseqb k0 k) eqn:E0; simpl.
    + apply jseqb_eq in E0; subst k0.
      destruct (jseqb k k'); reflexivity.
    + rewrite IH. destruct (jseqb k0 k') eqn:E1; [|reflexivity].
      apply jseqb_eq in E1; subst k0.
      apply jseqb_neq in E0.
      destruct (jseqb k k') eqn:E2; [|reflexivity].
      apply jseqb_eq in E2. congruence.
Qed.

Lemma or_else_falsy (v d : value) : ToBoolean v = false -> or_else v d = d.
Proof. unfold or_else; intros ->; reflexivity. Qed.





Ltac decide_keys :=
  repeat match goal with
         | |- context [jseqb (js ?a) (js ?b)] =>
           let r := eval vm_compute in (jseqb (js a) (js b)) in
           change (jseqb (js a) (js b)) with r
         end;
  cbv iota.






Lemma ToString_or_string (v : value) (d : jsstring) :
  string_or_missing v = true ->
  exists s, ToString (or_else v (VString d)) = Return s.
Proof.
  destruct v; try discriminate; intros _; unfold or_else; cbn [ToBoolean];
    try (eexists; reflexivity).
  destruct (negb (jseqb s [])); eexists; reflexivity.
Qed.

Lemma moduleText_returns (m : value) (i : nat) :
  is_ContentModule m = true -> exists s, moduleText m i = Return s.
Proof.
  intros Hm. unfold moduleText.
  assert (Hh : string_or_missing (OptGet m (js "heading")) = true
               /\ string_or_missing (OptGet m (js "content")) = true).
  { destruct m; try discriminate; try (split; reflexivity).
    unfold is_ContentModule in Hm. now apply andb_true_iff in Hm. }
  destruct Hh as [Hh Hc].
  destruct (ToString_or_string _ [] Hh) as [h ->].
  destruct (ToString_or_string _ [] Hc) as [c ->].
  eexists; reflexivity.
Qed.

Lemma mapM_moduleText_returns (ms : list value) (i : nat) :
  forallb is_ContentModule ms = true ->
  exists lines, mapM_from moduleText i ms = Return lines.
Proof.
  revert i; induction ms as [|m ms IH]; intros i H; cbn [mapM_from].
  - eexists; reflexivity.
  - cbn [forallb] in H. apply andb_true_iff in H as [Hm Hms].
    destruct (moduleText_returns m i Hm) as [s ->].
    destruct (IH (S i) Hms) as [l ->].
    eexists; reflexivity.
Qed.

(** On an outline of the declared type [processRightBrain] returns. *)
Lemma processRightBrain_returns (data : value) (settings : VisualSettings) :
  is_LeftBrainData data = true ->
  exists prompt, processRightBrain data settings = Return prompt.
Proof.
  destruct data as [| | | | | |fs]; try discriminate.
  unfold is_LeftBrainData. rewrite !andb_true_iff.
  intros [[[Ht Hs] Hk] Hm].
  destruct (ToString_or_string _ (js "未命名笔记") Ht) as [t Et].
  destruct (ToString_or_string _ [] Hs) as [s Es].
  destruct (ToString_or_string _ (js "abstract concepts") Hk) as [k Ek].
  assert (Em : exists lines,
             ArrayMap (or_else (OptGet (VObject fs) (js "modules")) (VArray []))
                      moduleText = Return lines).
  { destruct (OptGet (VObject fs) (js "modules")); try discriminate;
      unfold or_else; cbn [ToBoolean ArrayMap mapM_from];
      try (eexists; reflexivity).
    now apply mapM_moduleText_returns. }
  destruct Em as [lines Em].
  unfold processRightBrain. cbn [ToBoolean negb Get bind].
  cbn [OptGet] in Et, Es, Ek, Em.
  rewrite Ek. cbn [bind]. rewrite Et. cbn [bind]. rewrite Es. cbn [bind].
  rewrite Em. cbn [bind]. eexists; reflexivity.
Qed.




(* ================================================================== *)
(** * ImageRenderer *)
(* ================================================================== *)



Lemma fetchImagen_dataUri (env : Env) (fetch : completion Http.Response)
      (uri : jsstring) :
  fetchImagen env fetch = Return uri ->
  exists mimeType data, uri = dataUri mimeType data.
Proof.
  unfold fetchImagen.
  destruct (falsy (env_API_KEY env)); [discriminate|].
  destruct fetch as [res|e]; cbn [bind]; [|discriminate].
  destruct (negb (Http.ok res)).
  - destruct (Http.text res); discriminate.
  - destruct (Http.json res) as [json|e]; cbn [bind]; [|discriminate].
    destruct (negb (ToBoolean _)); [discriminate|].
    destruct (ToString _) as [m|e]; cbn [bind]; [|discriminate].
    destruct (ToString _) as [d|e]; cbn [bind]; [|discriminate].
    intros E; injection E as <-. eauto.
Qed.

Lemma attempt_dataUri (env : Env) (ai : completion Gen.Response)
      (fetch : completion Http.Response) (uri : jsstring) :
  attempt env ai fetch = Return uri ->
  exists mimeType data, uri = dataUri mimeType data.
Proof.
  unfold attempt. destruct (backendOf env).
  - destruct ai as [res|e]; cbn [bind]; [|discriminate].
    destruct (extractInlineImage res) as [[[d m]|]|e]; cbn [bind];
      try discriminate.
    intros E; injection E as <-. eauto.
  - apply fetchImagen_dataUri.
Qed.

(** The four ways [processHand] can run: success at the first, second or
    third attempt, or three failures. *)
Lemma processHand_cases (env : Env) (ai : nat -> completion Gen.Response)
      (fetch : nat -> completion Http.Response) :
  let b := backendOf env in
  let try_ i := attempt env (ai i) (fetch i) in
  (exists uri,
      try_ 0 = Return uri
      /\ processHand env ai fetch = ([Attempt 0 b], Return uri))
  \/ (exists e0 uri,
         try_ 0 = Throw e0 /\ try_ 1 = Return uri
         /\ processHand env ai fetch
            = ([Attempt 0 b; Delay 1000; Attempt 1 b], Return uri))
  \/ (exists e0 e1 uri,
         try_ 0 = Throw e0 /\ try_ 1 = Throw e1 /\ try_ 2 = Return uri
         /\ processHand env ai fetch
            = ([Attempt 0 b; Delay 1000; Attempt 1 b; Delay 2000;
                Attempt 2 b], Return uri))
  \/ (exists e0 e1 e2,
         try_ 0 = Throw e0 /\ try_ 1 = Throw e1 /\ try_ 2 = Throw e2
         /\ processHand env ai fetch
            = ([Attempt 0 b; Delay 1000; Attempt 1 b; Delay 2000;
                Attempt 2 b; Delay 3000], Throw e2)).
Proof.
  intros b try_. subst b try_.
  unfold processHand, maxRetries. cbn [attemptsFrom].
  destruct (attempt env (ai 0) (fetch 0)) as [u0|e0].
  { left. eauto. }
  destruct (attempt env (ai 1) (fetch 1)) as [u1|e1].
  { right; left. exists e0, u1. auto. }
  destruct (attempt env (ai 2) (fetch 2)) as [u2|e2].
  { right; right; left. exists e0, e1, u2. auto. }
  right; right; right. exists e0, e1, e2. auto.
Qed.

(** At most three attempts, and a success ends the run at once: the trace
    ends with the successful attempt and has one delay of [1000 * k] before
    each attempt number [k + 1]. *)
Lemma processHand_success (env : Env) (ai : nat -> completion Gen.Response)
      (fetch : nat -> completion Http.Response) (uri : jsstring) :
  snd (processHand env ai fetch) = Return uri ->
  exists k, k < 3
    /\ attempt env (ai k) (fetch k) = Return uri
    /\ map fst (attempts (fst (processHand env ai fetch))) = seq 0 (S k)
    /\ delays (fst (processHand env ai fetch))
       = map (fun j => 1000 * (j + 1)) (seq 0 k)
    /\ exists before,
        fst (processHand env ai fetch)
        = before ++ [Attempt k (backendOf env)].
Proof.
  intros Hret.
  destruct (processHand_cases env ai fetch)
    as [(u & H0 & E) | [(e0 & u & H0 & H1 & E)
       | [(e0 & e1 & u & H0 & H1 & H2 & E)
       | (e0 & e1 & e2 & H0 & H1 & H2 & E)]]];
    rewrite E in *; cbn [fst snd] in *; try discriminate;
    injection Hret as ->.
  - exists 0. repeat split; auto. now exists [].
  - exists 1. repeat split; auto.
    now exists [Attempt 0 (backendOf env); Delay 1000].
  - exists 2. repeat split; auto.
    now exists [Attempt 0 (backendOf env); Delay 1000;
                Attempt 1 (backendOf env); Delay 2000].
Qed.

(** C3: when the three attempts fail, [processHand] throws the error of
    the third attempt, after three delays: 1000 ms after the first attempt,
    2000 ms after the second, and 3000 ms after the third one, before the
    error is thrown. *)
Theorem exhausted_retries_wait_three_times
        (env : Env) (ai : nat -> completion Gen.Response)
        (fetch : nat -> completion Http.Response) (e0 e1 e2 : thrown) :
  attempt env (ai 0) (fetch 0) = Throw e0 ->
  attempt env (ai 1) (fetch 1) = Throw e1 ->
  attempt env (ai 2) (fetch 2) = Throw e2 ->
  processHand env ai fetch
  = ([Attempt 0 (backendOf env); Delay 1000;
      Attempt 1 (backendOf env); Delay 2000;
      Attempt 2 (backendOf env); Delay 3000], Throw e2)
  /\ delays (fst (processHand env ai fetch)) = [1000; 2000; 3000].
Proof.
  intros H0 H1 H2.
  assert (E : processHand env ai fetch
              = ([Attempt 0 (backendOf env); Delay 1000;
                  Attempt 1 (backendOf env); Delay 2000;
                  Attempt 2 (backendOf env); Delay 3000], Throw e2)).
  { unfold processHand, maxRetries. cbn [attemptsFrom].
    rewrite H0, H1, H2. reflexivity. }
  split; [exact E|]. rewrite E. reflexivity.
Qed.


(* ================================================================== *)
(** * BatchScheduler: chunks *)
(* ================================================================== *)

Lemma firstn_firstn_skipn {A} (a b : nat) (l : list A) :
  firstn a l ++ firstn b (skipn a l) = firstn (a + b) l.
Proof.
  revert l; induction a as [|a IH]; intros l; [reflexivity|].
  destruct l as [|x l]; cbn [firstn skipn Nat.add app].
  - now rewrite firstn_nil.
  - now rewrite IH.
Qed.

Lemma slice_chunk {A} (l : list A) (i size : nat) :
  slice l (i * size) (i * size + size) = firstn size (skipn (i * size) l).
Proof. unfold slice. f_equal. lia. Qed.

Lemma ceil_div_bounds (n size : nat) :
  0 < size ->
  n <= ceil_div n size * size /\ ceil_div n size * size < n + size.
Proof.
  intros Hs. unfold ceil_div.
  pose proof (Nat.div_mod_eq (n + size - 1) size) as E.
  pose proof (Nat.mod_upper_bound (n + size - 1) size) as Hr.
  nia.
Qed.

Lemma concat_chunks_prefix {A} (l : list A) (size k : nat) :
  concat (map (fun i => slice l (i * size) (i * size + size)) (seq 0 k))
  = firstn (k * size) l.
Proof.
  induction k as [|k IH]; [reflexivity|].
  rewrite seq_S, map_app, concat_app, IH. cbn [map concat Nat.add].
  rewrite app_nil_r, slice_chunk, firstn_firstn_skipn.
  f_equal. lia.
Qed.

(** The chunks are consecutive pieces of the array, in order. *)
Lemma concat_chunk {A} (l : list A) (size : nat) :
  0 < size -> concat (chunk l size) = l.
Proof.
  intros Hs. unfold chunk. rewrite concat_chunks_prefix.
  apply firstn_all2. apply (ceil_div_bounds (length l)) in Hs. lia.
Qed.

Lemma length_chunk {A} (l : list A) (size : nat) :
  length (chunk l size) = ceil_div (length l) size.
Proof. unfold chunk. now rewrite length_map, length_seq. Qed.

Lemma nth_chunk {A} (l : list A) (size i : nat) :
  i < ceil_div (length l) size ->
  nth i (chunk l size) [] = firstn size (skipn (i * size) l).
Proof.
  intros Hi. unfold chunk.
  rewrite (nth_indep _ [] (slice l (0 * size) (0 * size + size)))
    by (now rewrite length_map, length_seq).
  rewrite (map_nth (fun i => slice l (i * size) (i * size + size))).
  rewrite seq_nth by exact Hi. apply slice_chunk.
Qed.

Lemma length_nth_chunk {A} (l : list A) (size i : nat) :
  0 < size ->
  i < length (chunk l size) ->
  length (nth i (chunk l size) []) = Nat.min size (length l - i * size)
  /\ 1 <= length (nth i (chunk l size) []) <= size
  /\ (S i < length (chunk l size) ->
      length (nth i (chunk l size) []) = size).
Proof.
  intros Hs Hi. rewrite length_chunk in *.
  rewrite nth_chunk by exact Hi.
  rewrite length_firstn, length_skipn.
  pose proof (ceil_div_bounds (length l) Hs) as [_ Hup].
  assert (i * size < length l) by nia.
  split; [reflexivity|]. split; [lia|]. intros HS.
  assert (S (S i) * size <= ceil_div (length l) size * size)
    by (apply Nat.mul_le_mono_r; lia).
  lia.
Qed.

Lemma chunk_sizes {A} (l : list A) (size : nat) (c : list A) :
  0 < size -> In c (chunk l size) -> 1 <= length c <= size.
Proof.
  intros Hs Hin. apply (In_nth _ _ []) in Hin as (i & Hi & <-).
  now apply length_nth_chunk.
Qed.

Lemma chunk_of_seven {A} (l : list A) :
  length l = 7 -> map (@length A) (chunk l 3) = [3; 3; 1].
Proof.
  intros H.
  do 7 (destruct l as [|? l]; [discriminate|]).
  destruct l; [reflexivity | discriminate].
Qed.

(* ================================================================== *)
(** * BatchScheduler: traces *)
(* ================================================================== *)

Lemma in_flight_from (l : list step) (k : Z) :
  fold_left (fun k s => match s with
                        | Issue _ _ => k + 1
                        | Settle _ _ => k - 1
                        end)%Z l k
  = (k + in_flight l)%Z.
Proof.
  unfold in_flight. revert k; induction l as [|s l IH]; intros k;
    cbn [fold_left]; [lia|].
  rewrite IH, (IH (match s with Issue _ _ => _ | Settle _ _ => _ end)).
  destruct s; lia.
Qed.

Lemma in_flight_cons (s : step) (l : list step) :
  in_flight (s :: l) = (weight s + in_flight l)%Z.
Proof.
  unfold in_flight at 1. cbn [fold_left]. rewrite in_flight_from.
  destruct s; cbn [weight]; lia.
Qed.

Lemma in_flight_app (l1 l2 : list step) :
  in_flight (l1 ++ l2) = (in_flight l1 + in_flight l2)%Z.
Proof.
  induction l1 as [|s l1 IH]; [reflexivity|].
  cbn [app]. rewrite !in_flight_cons, IH. lia.
Qed.

Lemma issues_cons (s : step) (l : list step) :
  issues (s :: l)
  = (match s with Issue _ _ => 1 | Settle _ _ => 0 end) + issues l.
Proof. unfold issues. cbn [filter]. destruct s; reflexivity. Qed.

Lemma issues_app (l1 l2 : list step) :
  issues (l1 ++ l2) = issues l1 + issues l2.
Proof. unfold issues. now rewrite filter_app, length_app. Qed.

Lemma in_flight_le_issues (l : list step) :
  (in_flight l <= Z.of_nat (issues l))%Z.
Proof.
  induction l as [|s l IH]; [reflexivity|].
  rewrite in_flight_cons, issues_cons. destruct s; cbn [weight]; lia.
Qed.

Lemma issues_firstn (k : nat) (l : list step) :
  issues (firstn k l) <= issues l.
Proof.
  rewrite <- (firstn_skipn k l) at 2. rewrite issues_app. lia.
Qed.

Lemma concat_all_nil {A} (ts : list (list A)) :
  Forall (fun t => t = []) ts -> concat ts = [].
Proof.
  induction 1 as [|t ts -> _ IH]; [reflexivity|]. exact IH.
Qed.

(** An interleaving issues and settles what its tasks do. *)
Lemma interleave_counts (ts : list (list step)) (l : list step) :
  interleave ts l ->
  issues l = issues (concat ts) /\ in_flight l = in_flight (concat ts).
Proof.
  induction 1 as [ts Hnil | ts1 a t ts2 l _ [IHi IHf]].
  - now rewrite (concat_all_nil Hnil).
  - rewrite concat_app in *. cbn [concat] in *.
    rewrite issues_cons, in_flight_cons, IHi, IHf.
    rewrite !issues_app, !in_flight_app, issues_cons, in_flight_cons.
    split; destruct a; cbn [weight]; lia.
Qed.

(** Running the tasks one after the other is one of the interleavings. *)
Lemma interleave_concat {A} (finished ts : list (list A)) :
  Forall (fun t => t = []) finished ->
  interleave (finished ++ ts) (concat ts).
Proof.
  revert finished; induction ts as [|t ts IH]; intros finished Hf.
  - constructor. now rewrite app_nil_r.
  - induction t as [|a t IHt].
    + cbn [concat app].
      replace (finished ++ [] :: ts) with ((finished ++ [[]]) ++ ts)
        by now rewrite <- app_assoc.
      apply IH. apply Forall_app. split; [exact Hf | now constructor].
    + cbn [concat app] in *. constructor. exact IHt.
Qed.

Lemma in_sequence_exists {A U} (task : U -> list A) (cs : list (list U)) :
  exists trace, in_sequence task cs trace.
Proof.
  induction cs as [|c cs [ls IH]].
  - exists []. constructor.
  - exists (concat (map task c) ++ ls). constructor; [|exact IH].
    apply (@interleave_concat _ [] (map task c)). constructor.
Qed.

(** What [paintNote] contributes to a trace. *)
Lemma paintNote_shape (hand : completion jsstring) (n : NoteUnit) :
  paintNote hand n = []
  \/ exists u, paintNote hand n = [Issue (id n) (processing true);
                                   Settle (id n) u].
Proof.
  unfold paintNote. destruct (falsy (generatedPrompt n)); [now left|].
  right. destruct hand; eexists; reflexivity.
Qed.

Lemma paint_chunk_counts (hand : NoteUnit -> completion jsstring)
      (c : list NoteUnit) :
  issues (concat (map (fun n => paintNote (hand n) n) c)) <= length c
  /\ in_flight (concat (map (fun n => paintNote (hand n) n) c)) = 0%Z.
Proof.
  induction c as [|n c [IHi IHf]]; [split; reflexivity|].
  cbn [map concat length]. rewrite issues_app, in_flight_app, IHf.
  destruct (paintNote_shape (hand n) n) as [-> | [u ->]].
  - split; [cbn; lia | reflexivity].
  - split; [|reflexivity]. rewrite !issues_cons. cbn. lia.
Qed.

(** Within a sequence of chunks of at most [m] units no prefix of the trace
    has more than [m] calls in flight, and none is left at the end. *)
Lemma in_sequence_in_flight (hand : NoteUnit -> completion jsstring)
      (m : nat) (cs : list (list NoteUnit)) (trace : list step) :
  in_sequence (fun n => paintNote (hand n) n) cs trace ->
  Forall (fun c => length c <= m) cs ->
  in_flight trace = 0%Z
  /\ forall k, (in_flight (firstn k trace) <= Z.of_nat m)%Z.
Proof.
  induction 1 as [|c cs l ls Hl _ IH]; intros Hm.
  - split; [reflexivity|]. intros k. rewrite firstn_nil. cbn. lia.
  - inversion Hm as [|? ? Hc Hcs]; subst.
    destruct (IH Hcs) as [IH0 IHk].
    destruct (interleave_counts Hl) as [Hi Hf].
    destruct (paint_chunk_counts hand c) as [Pi Pf].
    split.
    + rewrite in_flight_app, Hf, Pf, IH0. reflexivity.
    + intros k. rewrite firstn_app, in_flight_app.
      destruct (Nat.le_gt_cases k (length l)) as [Hk|Hk].
      * replace (k - length l) with 0 by lia. cbn [firstn].
        pose proof (in_flight_le_issues (firstn k l)).
        pose proof (issues_firstn k l).
        change (in_flight []) with 0%Z. lia.
      * rewrite firstn_all2 by lia. rewrite Hf, Pf.
        specialize (IHk (k - length l)). lia.
Qed.

(** C5: [handleBatchPaint] cuts the batch, in order, into consecutive
    chunks of three units, the last one holding the remainder; it runs the
    chunks one after the other, so that at no point of any of its traces
    more than three units have a rendering call in flight, and none is in
    flight when a trace ends; seven units give chunks of 3, 3 and 1. *)
Theorem paint_wave_runs_chunks_of_three
        (hand : NoteUnit -> completion jsstring) (notes : list NoteUnit) :
  concat (chunk notes 3) = notes
  /\ (forall c, In c (chunk notes 3) -> 1 <= length c <= 3)
  /\ (forall i, S i < length (chunk notes 3) ->
                length (nth i (chunk notes 3) []) = 3)
  /\ (exists trace, handleBatchPaint true hand notes trace)
  /\ (forall trace,
         handleBatchPaint true hand notes trace ->
         in_sequence (fun n => paintNote (hand n) n) (chunk notes 3) trace
         /\ in_flight trace = 0%Z
         /\ forall k, (in_flight (firstn k trace) <= 3)%Z)
  /\ (length notes = 7 ->
      map (@length NoteUnit) (chunk notes 3) = [3; 3; 1]
      /\ length (nth 2 (chunk notes 3) []) = 1).
Proof.
  split; [apply concat_chunk; lia|].
  split; [intros c; apply chunk_sizes; lia|].
  split; [intros i Hi; apply length_nth_chunk; lia|].
  split; [apply in_sequence_exists|].
  split.
  - intros trace Ht. cbn [handleBatchPaint] in Ht.
    split; [exact Ht|].
    apply (@in_sequence_in_flight hand 3 (chunk notes 3) trace Ht).
    apply Forall_forall. intros c Hc. apply chunk_sizes in Hc; lia.
  - intros H7. pose proof (chunk_of_seven notes H7) as E.
    split; [exact E|].
    rewrite <- (map_nth (@length NoteUnit)), E. reflexivity.
Qed.

(* ================================================================== *)
(** * BatchScheduler: the store after a wave *)
(* ================================================================== *)

(** The store is updated unit by unit. *)
Lemma run_map (trace : list step) (store : list NoteUnit) :
  run trace store = map (fun n => fold_left apply_to trace n) store.
Proof.
  unfold run. revert store; induction trace as [|s l IH]; intros store;
    cbn [fold_left].
  - now rewrite map_id.
  - rewrite IH. unfold apply_step, updateNote. rewrite map_map. reflexivity.
Qed.

Lemma apply_to_id (n : NoteUnit) (s : step) :
  keeps_id s -> id (apply_to n s) = id n.
Proof.
  unfold keeps_id, apply_to. intros H.
  destruct (jseqb (id n) (step_target s)); [|reflexivity].
  unfold merge; cbn [id]. now rewrite H.
Qed.

Lemma fold_apply_to_id (l : list step) (n : NoteUnit) :
  Forall keeps_id l -> id (fold_left apply_to l n) = id n.
Proof.
  intros H; revert n; induction H as [|s l Hs _ IH]; intros n;
    cbn [fold_left]; [reflexivity|].
  now rewrite IH, apply_to_id.
Qed.

Lemma apply_to_other (n : NoteUnit) (s : step) :
  step_target s <> id n -> apply_to n s = n.
Proof.
  intros H. unfold apply_to.
  destruct (jseqb (id n) (step_target s)) eqn:E; [|reflexivity].
  apply jseqb_eq in E. congruence.
Qed.

Lemma fold_apply_to_other (l : list step) (n : NoteUnit) :
  Forall (fun s => step_target s <> id n) l -> fold_left apply_to l n = n.
Proof.
  induction 1 as [|s l Hs _ IH]; cbn [fold_left]; [reflexivity|].
  now rewrite apply_to_other.
Qed.

(** A step commutes with steps on other units. *)
Lemma apply_to_commutes (l : list step) (a : step) (n : NoteUnit) :
  keeps_id a ->
  Forall (fun s => keeps_id s /\ step_target s <> step_target a) l ->
  fold_left apply_to l (apply_to n a) = apply_to (fold_left apply_to l n) a.
Proof.
  intros Ha Hl.
  assert (Hk : Forall keeps_id l)
    by (eapply Forall_impl; [|exact Hl]; cbn; tauto).
  destruct (jseqb (id n) (step_target a)) eqn:E.
  - apply jseqb_eq in E.
    assert (Hn : Forall (fun s => step_target s <> id n) l).
    { eapply Forall_impl; [|exact Hl]. cbn. intros s [_ Hs]. congruence. }
    rewrite (@fold_apply_to_other l n Hn).
    apply fold_apply_to_other.
    rewrite apply_to_id by exact Ha. exact Hn.
  - assert (Hne : step_target a <> id n).
    { apply jseqb_neq in E. congruence. }
    rewrite (@apply_to_other n a Hne).
    symmetry. apply apply_to_other.
    now rewrite fold_apply_to_id.
Qed.

(** Tasks owned by distinct units: however they interleave, a unit ends
    where running the tasks one after the other leaves it. *)
Lemma interleave_fold (ts : list (list step)) (l : list step) :
  interleave ts l ->
  forall owners,
    NoDup owners ->
    Forall2 (fun o t => Forall (fun s => keeps_id s /\ step_target s = o) t)
            owners ts ->
    forall n, fold_left apply_to l n = fold_left apply_to (concat ts) n.
Proof.
  induction 1 as [ts Hnil | ts1 a t ts2 l _ IH]; intros owners Hnd Hown n.
  - now rewrite (concat_all_nil Hnil).
  - apply Forall2_app_inv_r in Hown as (os1 & os' & H1 & H2 & ->).
    inversion H2 as [|o t' os2 ts' Hat H2' E1 E2]; subst.
    inversion Hat as [|? ? [Hka Hta] Ht]; subst.
    cbn [fold_left].
    rewrite (IH (os1 ++ step_target a :: os2) Hnd).
    2:{ apply Forall2_app; [exact H1|]. constructor; assumption. }
    rewrite !concat_app. cbn [concat]. rewrite !fold_left_app.
    cbn [fold_left]. f_equal. f_equal.
    apply apply_to_commutes; [exact Hka|].
    apply NoDup_remove_2 in Hnd.
    assert (Hnot : ~ In (step_target a) os1)
      by (intros Hin; apply Hnd; apply in_or_app; now left).
    clear - H1 Hnot.
    induction H1 as [|o t os ts Hot _ IHts]; cbn [concat]; [constructor|].
    apply Forall_app. split.
    + eapply Forall_impl; [|exact Hot]. cbn. intros s [Hk Hs].
      split; [exact Hk|]. intros E. apply Hnot. left. congruence.
    + apply IHts. intros Hin. apply Hnot. now right.
Qed.

Lemma owned_Forall2 (task : NoteUnit -> list step) (c : list NoteUnit) :
  owned_tasks task ->
  Forall2 (fun o t => Forall (fun s => keeps_id s /\ step_target s = o) t)
          (map id c) (map task c).
Proof.
  intros H. induction c as [|n c IH]; cbn [map]; constructor; auto.
Qed.

Lemma owned_keeps (task : NoteUnit -> list step) (c : list NoteUnit) :
  owned_tasks task -> Forall keeps_id (concat (map task c)).
Proof.
  intros H. induction c as [|n c IH]; cbn [map concat]; [constructor|].
  apply Forall_app. split; [|exact IH].
  eapply Forall_impl; [|apply H]. cbn. intros s [Hk _]. exact Hk.
Qed.

Lemma owned_others (task : NoteUnit -> list step) (c : list NoteUnit)
      (i : jsstring) :
  owned_tasks task -> ~ In i (map id c) ->
  Forall (fun s => step_target s <> i) (concat (map task c)).
Proof.
  intros H Hni. induction c as [|n c IH]; cbn [map concat]; [constructor|].
  cbn [map In] in Hni. apply Forall_app. split.
  - eapply Forall_impl; [|apply H]. cbn. intros s [_ Hs]. intros E.
    apply Hni. left. rewrite <- Hs. exact E.
  - apply IH. intros Hin. apply Hni. now right.
Qed.

(** Run one after the other, the tasks of units with distinct identifiers
    leave each unit where its own task leaves it. *)
Lemma fold_own_task (task : NoteUnit -> list step) (notes : list NoteUnit)
      (n : NoteUnit) :
  owned_tasks task -> NoDup (map id notes) -> In n notes ->
  fold_left apply_to (concat (map task notes)) n
  = fold_left apply_to (task n) n.
Proof.
  intros Hown Hnd Hin.
  apply in_split in Hin as (l1 & l2 & ->).
  rewrite map_app in Hnd. cbn [map] in Hnd.
  pose proof (NoDup_remove_2 _ _ _ Hnd) as Hnot.
  rewrite map_app, concat_app. cbn [map concat].
  rewrite !fold_left_app.
  rewrite (@fold_apply_to_other (concat (map task l1)) n).
  2:{ apply owned_others; [exact Hown|]. intros H. apply Hnot.
      apply in_or_app. now left. }
  apply fold_apply_to_other.
  assert (Hid : id (fold_left apply_to (task n) n) = id n).
  { apply fold_apply_to_id. eapply Forall_impl; [|apply Hown]. cbn. tauto. }
  rewrite Hid. apply owned_others; [exact Hown|]. intros H. apply Hnot.
  apply in_or_app. now right.
Qed.

Lemma in_sequence_fold (task : NoteUnit -> list step)
      (cs : list (list NoteUnit)) (trace : list step) :
  owned_tasks task ->
  in_sequence task cs trace ->
  NoDup (map id (concat cs)) ->
  forall n,
    fold_left apply_to trace n
    = fold_left apply_to (concat (map task (concat cs))) n.
Proof.
  intros Hown. induction 1 as [|c cs l ls Hl _ IH]; intros Hnd n;
    [reflexivity|].
  cbn [concat] in *. rewrite map_app in Hnd.
  rewrite map_app, concat_app, !fold_left_app.
  rewrite (@interleave_fold _ _ Hl (map id c)
                            (NoDup_app_remove_r _ _ Hnd)
                            (@owned_Forall2 task c Hown)).
  apply IH. exact (NoDup_app_remove_l _ _ Hnd).
Qed.

Lemma processNoteStructure_owned (left : NoteUnit -> completion value) :
  owned_tasks (fun n => processNoteStructure (left n) n).
Proof.
  intros n. unfold processNoteStructure.
  destruct (left n); repeat constructor.
Qed.

Lemma paintNote_owned (hand : NoteUnit -> completion jsstring) :
  owned_tasks (fun n => paintNote (hand n) n).
Proof.
  intros n. unfold paintNote.
  destruct (falsy (generatedPrompt n)); [constructor|].
  destruct (hand n); repeat constructor.
Qed.

Lemma processNoteStructure_alone (left : completion value) (n : NoteUnit) :
  fold_left apply_to (processNoteStructure left n) n = structured left n.
Proof.
  destruct n as [i o t st p e str g f].
  unfold processNoteStructure, apply_to; cbn [fold_left step_target id].
  rewrite jseqb_refl.
  destruct left; cbn [merge step_updates step_target processing over id];
    rewrite jseqb_refl; reflexivity.
Qed.

Lemma paintNote_alone (hand : completion jsstring) (n : NoteUnit) :
  fold_left apply_to (paintNote hand n) n = painted hand n.
Proof.
  destruct n as [i o t st p e str g f].
  unfold paintNote, painted. cbn [generatedPrompt].
  destruct (falsy g); [reflexivity|].
  unfold apply_to; cbn [fold_left step_target id].
  rewrite jseqb_refl.
  destruct hand; cbn [merge step_updates step_target processing over id];
    rewrite jseqb_refl; reflexivity.
Qed.


(** The store after a structuring wave, for any way the calls of
    [processLeftBrain] complete. *)
Lemma structuring_wave_result (notes : list NoteUnit)
      (left : NoteUnit -> completion value) (trace : list step) :
  NoDup (map id notes) ->
  interleave (map (fun n => processNoteStructure (left n) n) notes) trace ->
  run trace notes = map (fun n => structured (left n) n) notes.
Proof.
  intros Hnd Ht. rewrite run_map. apply map_ext_in. intros n Hin.
  rewrite (@interleave_fold _ _ Ht (map id notes) Hnd
             (@owned_Forall2 _ notes (processNoteStructure_owned left))).
  rewrite (@fold_own_task (fun n => processNoteStructure (left n) n)
             notes n (processNoteStructure_owned left) Hnd Hin).
  apply processNoteStructure_alone.
Qed.

(** The store after a rendering wave. *)
Lemma rendering_wave_result (notes : list NoteUnit)
      (hand : NoteUnit -> completion jsstring) (trace : list step) :
  NoDup (map id notes) ->
  handleBatchPaint true hand notes trace ->
  run trace notes = map (fun n => painted (hand n) n) notes.
Proof.
  intros Hnd Ht. cbn [handleBatchPaint] in Ht.
  rewrite run_map. apply map_ext_in. intros n Hin.
  assert (Hc : concat (chunk notes 3) = notes) by (apply concat_chunk; lia).
  rewrite (@in_sequence_fold _ _ _ (paintNote_owned hand) Ht)
    by (rewrite Hc; exact Hnd).
  rewrite Hc.
  rewrite (@fold_own_task (fun n => paintNote (hand n) n)
             notes n (paintNote_owned hand) Hnd Hin).
  apply paintNote_alone.
Qed.

(** With the real [processLeftBrain] every unit of the structuring wave
    ends in [ReviewStructure] with a structure, whatever the service did. *)
Lemma structuring_wave_always_succeeds (notes : list NoteUnit)
      (ai : NoteUnit -> completion Gen.Response) (trace : list step) :
  NoDup (map id notes) ->
  handleBatchOrganize ai notes trace ->
  Forall2 (fun before after =>
             exists outline, after = with_structure before outline)
          notes (run trace notes).
Proof using Type.
  intros Hnd Ht.
  rewrite (@structuring_wave_result
             notes (fun n => processLeftBrain (ai n) (originalText n))
             trace Hnd Ht).
  clear. induction notes as [|n l IH]; cbn [map]; constructor; [|exact IH].
  destruct (processLeftBrain_returns (ai n) (originalText n)) as [o ->].
  exists o. reflexivity.
Qed.


(* ================================================================== *)
(** * More on the store and on the creation of units *)
(* ================================================================== *)

Lemma merge_id (n : NoteUnit) (u : PartialNote) :
  p_id u = None -> id (merge n u) = id n.
Proof. intros H. unfold merge; cbn [id]. now rewrite H. Qed.

(** X1: [updateNote] with an identifier that no unit of the store has
    leaves the store as it is. *)
Theorem update_of_unknown_id_changes_nothing
        (target : jsstring) (updates : PartialNote) (store : list NoteUnit) :
  ~ In target (map id store) ->
  updateNote target updates store = store.
Proof.
  unfold updateNote. induction store as [|n store IH]; cbn [map In];
    intros H; [reflexivity|].
  rewrite IH by (intros Hin; apply H; now right). f_equal.
  destruct (jseqb (id n) target) eqn:E; [|reflexivity].
  apply jseqb_eq in E. exfalso. apply H. now left.
Qed.

(** X2: an update that carries no [id] keeps the number of units, their
    identifiers and their positions; and two such updates of different
    identifiers can be applied in either order. *)
Theorem updates_keep_ids_and_commute
        (t1 t2 : jsstring) (u1 u2 : PartialNote) (store : list NoteUnit) :
  p_id u1 = None -> p_id u2 = None ->
  length (updateNote t1 u1 store) = length store
  /\ map id (updateNote t1 u1 store) = map id store
  /\ (t1 <> t2 ->
      updateNote t1 u1 (updateNote t2 u2 store)
      = updateNote t2 u2 (updateNote t1 u1 store)).
Proof.
  intros H1 H2. unfold updateNote. split; [apply length_map|]. split.
  - rewrite map_map. apply map_ext. intros n.
    destruct (jseqb (id n) t1); [now apply merge_id | reflexivity].
  - intros Hne. rewrite !map_map. apply map_ext. intros n.
    destruct (jseqb (id n) t1) eqn:E1; destruct (jseqb (id n) t2) eqn:E2;
      rewrite ?merge_id by assumption; rewrite ?E1, ?E2; try reflexivity.
    apply jseqb_eq in E1, E2. congruence.
Qed.

Lemma length_mapi_from {A B} (f : A -> nat -> B) (i : nat) (l : list A) :
  length (mapi_from f i l) = length l.
Proof.
  revert i; induction l as [|x l IH]; intros i; cbn [mapi_from length];
    [reflexivity|]. now rewrite IH.
Qed.

Lemma map_mapi_from {A B C} (g : B -> C) (f : A -> nat -> B) (i : nat)
      (l : list A) :
  map g (mapi_from f i l) = mapi_from (fun x k => g (f x k)) i l.
Proof.
  revert i; induction l as [|x l IH]; intros i; cbn [mapi_from map];
    [reflexivity|]. now rewrite IH.
Qed.

Lemma mapi_from_index {A B} (g : nat -> B) (i : nat) (l : list A) :
  mapi_from (fun _ k => g k) i l = map g (seq i (length l)).
Proof.
  revert i; induction l as [|x l IH]; intros i; cbn [mapi_from length seq map];
    [reflexivity|]. now rewrite IH.
Qed.

Lemma mapi_from_item {A B} (g : A -> B) (i : nat) (l : list A) :
  mapi_from (fun x _ => g x) i l = map g l.
Proof.
  revert i; induction l as [|x l IH]; intros i; cbn [mapi_from map];
    [reflexivity|]. now rewrite IH.
Qed.

Lemma newNotes_fields (uuidv4 : nat -> jsstring) (parts : list jsstring) :
  length (newNotes uuidv4 parts) = length parts
  /\ map order (newNotes uuidv4 parts) = seq 1 (length parts)
  /\ map id (newNotes uuidv4 parts) = map uuidv4 (seq 0 (length parts))
  /\ map originalText (newNotes uuidv4 parts) = parts
  /\ Forall (fun n => stage n = Organizing /\ isProcessing n = false
                      /\ error n = None /\ structure n = None
                      /\ generatedPrompt n = None /\ finalImage n = None)
            (newNotes uuidv4 parts).
Proof.
  unfold newNotes, mapi. repeat split.
  - apply length_mapi_from.
  - rewrite map_mapi_from. cbn [order].
    rewrite (mapi_from_index (fun k => k + 1)).
    rewrite <- seq_shift. apply map_ext. intros k. lia.
  - rewrite map_mapi_from. cbn [id]. apply mapi_from_index.
  - rewrite map_mapi_from. cbn [originalText].
    rewrite (mapi_from_item (fun x => x)). apply map_id.
  - generalize 0 at 2. induction parts as [|p parts IH]; intros i;
      cbn [mapi_from]; [constructor|].
    constructor; [cbn; repeat split | apply IH].
Qed.

(** The segments [processSplitBrain] returns: the text itself, or strings
    of at least 100 characters. *)
Lemma processSplitBrain_segments (ai : completion Gen.Response)
      (text : jsstring) :
  exists segments,
    processSplitBrain ai text = Return segments
    /\ segments <> []
    /\ (segments = [text] \/ Forall (fun s => 100 <= length s) segments).
Proof.
  rewrite processSplitBrain_eq. eexists. split; [reflexivity|].
  destruct ai as [res|e]; [|split; [discriminate | now left]].
  destruct (JSON_parse _) as [[| | | | |parts|]|];
    try (split; [discriminate | now left]).
  destruct (filter validPart parts) as [|v vs] eqn:Hf;
    [split; [discriminate | now left]|].
  rewrite <- Hf. split.
  - intros Hnil. apply strings_of_valid_nil in Hnil. congruence.
  - right. eapply Forall_impl; [|apply strings_of_valid]. cbn.
    intros s [Hs _]. pose proof (trim_length s). lia.
Qed.

(** X3: when [handleSplit] creates units, there is at least one; they are
    numbered 1, 2, ... in the order of the segments; each one is in stage
    [Organizing], not processing, with no error, structure, prompt or
    image; and its text is not empty: it is the trimmed input, or a segment
    of at least 100 characters.  It creates units only for an input that
    is not blank and with an API key. *)
Theorem split_units_are_numbered_and_fresh
        (rawText : jsstring) (hasApiKey : bool)
        (ai : completion Gen.Response) (uuidv4 : nat -> jsstring)
        (units : list NoteUnit) :
  handleSplit rawText hasApiKey ai uuidv4 = Some units ->
  hasApiKey = true /\ trim rawText <> []
  /\ units <> []
  /\ map order units = seq 1 (length units)
  /\ map id units = map uuidv4 (seq 0 (length units))
  /\ Forall (fun n => stage n = Organizing /\ isProcessing n = false
                      /\ error n = None /\ structure n = None
                      /\ generatedPrompt n = None /\ finalImage n = None)
            units
  /\ Forall (fun n => originalText n <> []) units
  /\ (map originalText units = [trim rawText]
      \/ Forall (fun n => 100 <= length (originalText n)) units).
Proof.
  unfold handleSplit. intros H.
  destruct (trim rawText) as [|c r] eqn:Ht; [discriminate|].
  destruct hasApiKey; [|discriminate]. cbn [negb] in H.
  destruct (processSplitBrain_segments ai (c :: r))
    as (segments & Hs & Hne & Hcase).
  rewrite Hs in H. injection H as <-.
  destruct (newNotes_fields uuidv4 segments) as (Hl & Ho & Hi & Ht' & Hf).
  split; [reflexivity|]. split; [discriminate|].
  split.
  { intros E. rewrite E in Hl. destruct segments; [congruence|discriminate]. }
  rewrite Hl. split; [exact Ho|]. split; [exact Hi|]. split; [exact Hf|].
  assert (Hall : forall P : jsstring -> Prop,
             Forall P segments ->
             Forall (fun n => P (originalText n)) (newNotes uuidv4 segments)).
  { intros P HP. apply Forall_map. now rewrite Ht'. }
  split.
  - apply (Hall (fun s => s <> [])). destruct Hcase as [-> | Hlong].
    + repeat constructor. discriminate.
    + eapply Forall_impl; [|exact Hlong]. cbn. intros s Hlen E.
      rewrite E in Hlen. cbn in Hlen. lia.
  - destruct Hcase as [-> | Hlong]; [left; exact Ht' | right; now apply (Hall (fun s => 100 <= length s))].
Qed.

(** X4: [chunk] with any positive size cuts an array into consecutive
    pieces, in order: their concatenation is the array, there are
    [ceil (length / size)] of them, none is empty, all but the last have
    exactly [size] elements; and a non-empty array of at most [size]
    elements is one chunk. *)
Theorem chunk_is_an_ordered_partition {A} (arr : list A) (size : nat) :
  0 < size ->
  concat (chunk arr size) = arr
  /\ length (chunk arr size) = ceil_div (length arr) size
  /\ (forall c, In c (chunk arr size) -> 1 <= length c <= size)
  /\ (forall i, S i < length (chunk arr size) ->
                length (nth i (chunk arr size) []) = size)
  /\ (arr = [] -> chunk arr size = [])
  /\ (arr <> [] -> length arr <= size -> chunk arr size = [arr]).
Proof.
  intros Hs.
  split; [now apply concat_chunk|].
  split; [apply length_chunk|].
  split; [intros c; now apply chunk_sizes|].
  split; [intros i Hi; apply length_nth_chunk; [exact Hs | lia | exact Hi]|].
  split.
  - intros ->. unfold chunk, ceil_div. cbn [length Nat.add].
    rewrite Nat.div_small by lia. reflexivity.
  - intros Hne Hle.
    assert (Hk : ceil_div (length arr) size = 1).
    { destruct (ceil_div_bounds (length arr) Hs) as [Hlo Hhi].
      destruct arr; [congruence|]. cbn [length] in *.
      destruct (ceil_div (S (length arr)) size) as [|[|k]]; nia. }
    unfold chunk. rewrite Hk. cbn [seq map]. f_equal.
    rewrite slice_chunk. cbn [Nat.mul skipn].
    now apply firstn_all2.
Qed.


(* ================================================================== *)
(** * More on the outline of the structuring phase *)
(* ================================================================== *)

Lemma digits_inj (d d' : Decimal.uint) : digits d = digits d' -> d = d'.
Proof.
  revert d'; induction d as [|d IH|d IH|d IH|d IH|d IH|d IH|d IH|d IH|d IH|d IH];
    intros [|d'|d'|d'|d'|d'|d'|d'|d'|d'|d']; cbn [digits]; intros H;
    try discriminate H; try reflexivity;
    injection H as H; f_equal; now apply IH.
Qed.

Lemma decimal_inj (i j : nat) : decimal i = decimal j -> i = j.
Proof.
  unfold decimal. intros H. apply digits_inj in H.
  now apply DecimalNat.Unsigned.to_uint_inj.
Qed.

Lemma module_id_inj (i j : nat) :
  js "m" ++ decimal i ++ js " " = js "m" ++ decimal j ++ js " " -> i = j.
Proof.
  intros H. apply app_inv_head in H. apply app_inv_tail in H.
  now apply decimal_inj.
Qed.

Lemma with_id_id (s : value) (i : nat) :
  OptGet (with_id s i) (js "id") = VString (js "m" ++ decimal i ++ js " ").
Proof.
  unfold with_id; cbn [OptGet]. rewrite lookup_set_field, jseqb_refl.
  reflexivity.
Qed.

Lemma with_id_other (s : value) (i : nat) (k : jsstring) :
  jseqb (js "id") k = false ->
  OptGet (with_id s i) k
  = match lookup k (spread s) with Some x => x | None => VUndefined end.
Proof.
  intros Hk. unfold with_id; cbn [OptGet]. now rewrite lookup_set_field, Hk.
Qed.

Lemma map_id_mapi_with_id (ms : list value) (i : nat) :
  map (fun m => OptGet m (js "id")) (mapi_from with_id i ms)
  = map (fun k => VString (js "m" ++ decimal k ++ js " ")) (seq i (length ms)).
Proof.
  revert i; induction ms as [|m ms IH]; intros i;
    cbn [mapi_from map length seq]; [reflexivity|].
  now rewrite with_id_id, IH.
Qed.

Lemma NoDup_map_injective {A B} (f : A -> B) (l : list A) :
  (forall a b, f a = f b -> a = b) -> NoDup l -> NoDup (map f l).
Proof.
  intros Hf H. induction H as [|x l Hx H IH]; cbn [map]; constructor;
    [|exact IH].
  rewrite in_map_iff. intros (y & Hy & Hin). apply Hf in Hy. subst y.
  now apply Hx.
Qed.

Lemma NoDup_module_ids (i n : nat) :
  NoDup (map (fun k => VString (js "m" ++ decimal k ++ js " ")) (seq i n)).
Proof.
  apply NoDup_map_injective; [|apply seq_NoDup].
  intros a b H.
  apply (f_equal (fun v => match v with VString s => s | _ => [] end)) in H.
  now apply module_id_inj.
Qed.

(** X5: whatever the service answers, the outline [processLeftBrain]
    returns is an object whose [modules] is a non-empty array of objects
    with pairwise different [id]s; and unless it is the fallback outline,
    the [id]s are [m0 ], [m1 ], ... in the order of the modules, whatever
    [id]s the service gave. *)
Theorem outline_has_numbered_modules
        (ai : completion Gen.Response) (text : jsstring) :
  exists fields ms,
    processLeftBrain ai text = Return (VObject fields)
    /\ lookup (js "modules") fields = Some (VArray ms)
    /\ ms <> []
    /\ Forall (fun m => exists mf, m = VObject mf) ms
    /\ NoDup (map (fun m => OptGet m (js "id")) ms)
    /\ (VObject fields <> fallbackOutline ->
        map (fun m => OptGet m (js "id")) ms
        = map (fun i => VString (js "m" ++ decimal i ++ js " "))
              (seq 0 (length ms))).
Proof.
  destruct (processLeftBrain_cases ai text)
    as [Hf | (res & fields & m & ms & _ & _ & _ & Hr)].
  - rewrite Hf. unfold fallbackOutline. do 2 eexists.
    split; [reflexivity|]. split; [reflexivity|].
    split; [discriminate|]. split; [repeat constructor; eauto|].
    split; [repeat constructor; intros []|]. intros H; now elim H.
  - rewrite Hr. do 2 eexists. split; [reflexivity|].
    split; [rewrite lookup_set_field, jseqb_refl; reflexivity|].
    split; [discriminate|]. unfold mapi.
    split; [|split].
    + generalize 0 at 1. generalize (m :: ms) as l.
      induction l as [|x l IH]; intros i; cbn [mapi_from]; constructor.
      * unfold with_id. eauto.
      * apply IH.
    + rewrite map_id_mapi_with_id. apply NoDup_module_ids.
    + intros _. rewrite map_id_mapi_with_id, length_mapi_from. reflexivity.
Qed.

Lemma is_ContentModule_with_id (s : value) (i : nat) :
  is_ContentModule s = true -> is_ContentModule (with_id s i) = true.
Proof.
  intros Hs.
  change (is_ContentModule (with_id s i))
    with (string_or_missing (OptGet (with_id s i) (js "heading"))
          && string_or_missing (OptGet (with_id s i) (js "content"))).
  rewrite !with_id_other by reflexivity.
  destruct s; try discriminate Hs; try reflexivity. exact Hs.
Qed.

Lemma is_LeftBrainData_fallback : is_LeftBrainData fallbackOutline = true.
Proof. reflexivity. Qed.

Lemma is_LeftBrainData_renumbered (fields : list (jsstring * value))
      (ms : list value) :
  is_LeftBrainData (VObject fields) = true ->
  lookup (js "modules") fields = Some (VArray ms) ->
  is_LeftBrainData
    (VObject (set_field (js "modules") (VArray (mapi with_id ms)) fields))
  = true.
Proof.
  unfold is_LeftBrainData; cbn [OptGet]. intros H Hm.
  rewrite Hm in H. rewrite !lookup_set_field. decide_keys.
  rewrite !andb_true_iff in *. destruct H as [H Hms]. split; [exact H|].
  unfold mapi. generalize 0. revert Hms. clear.
  induction ms as [|m ms IH]; intros Hms i; cbn [mapi_from forallb];
    [reflexivity|].
  cbn [forallb] in Hms. apply andb_true_iff in Hms as [Hm Hms].
  rewrite is_ContentModule_with_id by exact Hm. now apply IH.
Qed.

(** X6: when the text of a reply, if it parses, parses to an outline of
    the declared type, the outline [processLeftBrain] hands on is of the
    declared type too, and [processRightBrain] returns a prompt for it with
    any settings: the design phase cannot throw on it. *)
Theorem typed_reply_gives_a_prompt
        (ai : completion Gen.Response) (text : jsstring)
        (settings : VisualSettings) :
  (forall res json,
      ai = Return res ->
      JSON_parse (unfence (Gen.text res) (js "{}")) = Some json ->
      is_LeftBrainData json = true) ->
  exists outline prompt,
    processLeftBrain ai text = Return outline
    /\ is_LeftBrainData outline = true
    /\ processRightBrain outline settings = Return prompt.
Proof.
  intros Htyped.
  assert (H : exists outline,
             processLeftBrain ai text = Return outline
             /\ is_LeftBrainData outline = true).
  { destruct (processLeftBrain_cases ai text)
      as [Hf | (res & fields & m & ms & Hai & Hj & Hm & Hr)].
    - eexists; split; [exact Hf | apply is_LeftBrainData_fallback].
    - eexists; split; [exact Hr|].
      apply is_LeftBrainData_renumbered; [|exact Hm].
      exact (Htyped res _ Hai Hj). }
  destruct H as (outline & Ho & Ht).
  destruct (processRightBrain_returns outline settings Ht) as [prompt Hp].
  exists outline, prompt. repeat split; assumption.
Qed.

(** ** Code fences *)

Lemma starts_with_app (eqc : code_unit -> code_unit -> bool)
      (pat s r : jsstring) :
  starts_with eqc pat s = true -> starts_with eqc pat (s ++ r) = true.
Proof.
  revert s; induction pat as [|p pat IH]; intros [|c s]; cbn [starts_with app];
    try reflexivity; try discriminate.
  rewrite !andb_true_iff. intros [H1 H2]. split; [exact H1 | now apply IH].
Qed.

(** Text without a backquote is copied by the removal of a pattern that
    starts with one. *)
Lemma remove_from_no_backquote (eqc : code_unit -> code_unit -> bool)
      (pat t s : jsstring) :
  (forall c, eqc 96%N c = true -> c = 96%N) ->
  forallb (fun c => negb (c =? 96)%N) t = true ->
  remove_from eqc (96%N :: pat) 0 (t ++ s)
  = t ++ remove_from eqc (96%N :: pat) 0 s.
Proof.
  intros Heq. induction t as [|c t IH]; cbn [forallb app]; [reflexivity|].
  rewrite andb_true_iff, negb_true_iff, N.eqb_neq. intros [Hc Ht].
  cbn [remove_from starts_with].
  destruct (eqc 96%N c) eqn:E; [elim Hc; now apply Heq|].
  cbn [andb]. now rewrite IH.
Qed.

Lemma ci_eqb_backquote (c : code_unit) : ci_eqb 96%N c = true -> c = 96%N.
Proof.
  intros H. destruct (N.eqb_spec 96 c) as [E|E]; [now symmetry|].
  exfalso. revert H. unfold ci_eqb.
  rewrite (proj2 (N.eqb_neq _ _) E).
  change (97 <=? 96)%N with false. change (96 <=? 90)%N with false.
  rewrite andb_false_r. discriminate.
Qed.

Lemma eqb_backquote (c : code_unit) : (96 =? c)%N = true -> c = 96%N.
Proof. intros H. apply N.eqb_eq in H. now symmetry. Qed.

Lemma unfence_fenced (opening t dflt : jsstring) :
  length opening = 7 ->
  starts_with ci_eqb (js "```json") opening = true ->
  forallb (fun c => negb (c =? 96)%N) t = true ->
  unfence (Some (opening ++ t ++ js "```")) dflt = unfence (Some t) dflt
  /\ unfence (Some t) dflt = match trim t with [] => dflt | r => r end.
Proof.
  intros Hlen Hopen Ht.
  assert (Hplain : remove_all (js "```") (remove_all_ci (js "```json") t) = t).
  { unfold remove_all, remove_all_ci.
    change (js "```json") with (96 :: js "``json")%N.
    change (js "```") with (96 :: js "``")%N.
    rewrite <- (app_nil_r t) at 1.
    rewrite remove_from_no_backquote
      by (exact ci_eqb_backquote || exact Ht).
    cbn [remove_from]. rewrite app_nil_r.
    rewrite <- (app_nil_r t) at 1.
    rewrite remove_from_no_backquote by (exact eqb_backquote || exact Ht).
    cbn [remove_from]. apply app_nil_r. }
  assert (Hfenced : remove_all (js "```")
                      (remove_all_ci (js "```json")
                                     (opening ++ t ++ js "```")) = t).
  { unfold remove_all, remove_all_ci.
    assert (Hstart : starts_with ci_eqb (js "```json")
                                 (opening ++ t ++ js "```") = true)
      by now apply starts_with_app.
    do 7 (destruct opening as [|? opening]; [discriminate Hlen|]).
    destruct opening; [|discriminate Hlen].
    cbn [app] in *. cbn [remove_from]. rewrite Hstart.
    change (Nat.pred (length (js "```json"))) with 6.
    cbn [remove_from].
    change (js "```json") with (96 :: js "``json")%N.
    rewrite remove_from_no_backquote
      by (exact ci_eqb_backquote || exact Ht).
    change (remove_from ci_eqb (96 :: js "``json")%N 0 (js "```"))
      with (js "```").
    change (js "```") with (96 :: js "``")%N at 1.
    rewrite remove_from_no_backquote by (exact eqb_backquote || exact Ht).
    change (remove_from N.eqb (96 :: js "``")%N 0 (js "```"))
      with (@nil code_unit).
    apply app_nil_r. }
  unfold unfence. rewrite Hfenced, Hplain. split; reflexivity.
Qed.

(** X7: a reply that is wrapped in a Markdown code fence, opened by
    [```json] in any letter case, is read as the text inside the fence when
    that text has no backquote: [processLeftBrain] and [processSplitBrain]
    return what they return for the bare text. *)
Theorem code_fence_is_transparent
        (opening t text : jsstring)
        (candidates : option (list (option Gen.Candidate))) :
  length opening = 7 ->
  starts_with ci_eqb (js "```json") opening = true ->
  forallb (fun c => negb (c =? 96)%N) t = true ->
  let fenced := {| Gen.text := Some (opening ++ t ++ js "```");
                   Gen.candidates := candidates |} in
  let bare := {| Gen.text := Some t; Gen.candidates := candidates |} in
  processLeftBrain (Return fenced) text = processLeftBrain (Return bare) text
  /\ processSplitBrain (Return fenced) text
     = processSplitBrain (Return bare) text
  /\ forall dflt,
      unfence (Gen.text fenced) dflt
      = match trim t with [] => dflt | r => r end.
Proof.
  intros Hlen Hopen Ht fenced bare.
  assert (H : forall dflt,
             unfence (Gen.text fenced) dflt = unfence (Gen.text bare) dflt
             /\ unfence (Gen.text bare) dflt
                = match trim t with [] => dflt | r => r end).
  { intros dflt. now apply unfence_fenced. }
  split; [|split].
  - unfold processLeftBrain, leftBrain_try. cbn [bind].
    now rewrite (proj1 (H (js "{}"))).
  - unfold processSplitBrain, splitBrain_try. cbn [bind].
    now rewrite (proj1 (H (js "[]"))).
  - intros dflt. destruct (H dflt) as [H1 H2]. now rewrite H1.
Qed.

(* ================================================================== *)
(** * More on the prompt *)
(* ================================================================== *)

Lemma trimStart_white_app (ws r : jsstring) :
  forallb is_white ws = true -> trimStart (ws ++ r) = trimStart r.
Proof.
  induction ws as [|c ws IH]; cbn [forallb app trimStart]; [reflexivity|].
  rewrite andb_true_iff. intros [-> H]. now apply IH.
Qed.

Lemma trimStart_head (a r : jsstring) :
  match a with c :: _ => is_white c = false | [] => False end ->
  trimStart (a ++ r) = a ++ r.
Proof.
  destruct a as [|c a]; [intros []|]. cbn [app trimStart]. now intros ->.
Qed.

Lemma trimEnd_app_white (s ws : jsstring) (c : code_unit) :
  is_white c = false -> forallb is_white ws = true ->
  trimEnd (s ++ c :: ws) = s ++ [c].
Proof.
  intros Hc Hws. unfold trimEnd. rewrite rev_app_distr. cbn [rev].
  rewrite <- app_assoc. cbn [app].
  rewrite trimStart_white_app.
  - cbn [trimStart]. rewrite Hc. cbn [rev]. now rewrite rev_involutive.
  - apply forallb_forall. intros x Hx. apply in_rev in Hx.
    exact (proj1 (forallb_forall _ _) Hws x Hx).
Qed.

(** The template, cut before the watermark. *)
Lemma promptTemplate_split
      (styleName styleDesc palette keywords title summary modulesText
       : jsstring) :
  exists a Q,
    match a with c :: _ => is_white c = false | [] => False end
    /\ forall w,
        promptTemplate styleName styleDesc palette keywords title summary
                       modulesText w
        = nl ++ a ++ Q ++ w ++ dq ++ nl ++ js "  ".
Proof.
  do 2 eexists. split; cycle 1.
  - intros w. unfold promptTemplate.
    remember (w ++ dq ++ nl ++ js "  ") as tail eqn:Htail.
    f_equal. f_equal. rewrite !app_assoc. reflexivity.
  - reflexivity.
Qed.

Lemma trim_promptTemplate
      (styleName styleDesc palette keywords title summary modulesText
       : jsstring) :
  exists prefix, forall w,
      trim (promptTemplate styleName styleDesc palette keywords title summary
                           modulesText w)
      = prefix ++ w ++ dq.
Proof.
  destruct (promptTemplate_split styleName styleDesc palette keywords title
                                 summary modulesText) as (a & Q & Ha & HQ).
  exists (a ++ Q). intros w. rewrite HQ. unfold trim.
  rewrite (trimStart_white_app nl) by reflexivity.
  rewrite trimStart_head by exact Ha.
  replace (a ++ Q ++ w ++ dq ++ nl ++ js "  ")
    with (((a ++ Q) ++ w) ++ 34%N :: (nl ++ js "  "))
    by (rewrite <- !app_assoc; reflexivity).
  rewrite trimEnd_app_white by reflexivity.
  rewrite <- !app_assoc. reflexivity.
Qed.

(** X8: the watermark is copied as it is, between double quotes, at the
    very end of the prompt, and nothing else of the prompt depends on it:
    for data that is not falsy, either [processRightBrain] throws the same
    exception with every watermark, or there is a text that, followed by
    the quoted watermark, is the prompt of every watermark. *)
Theorem watermark_is_the_last_clause
        (data : value) (style theme : jsstring) :
  ToBoolean data = true ->
  let settings w :=
    {| styleId := style; colorTheme := theme; watermark := w |} in
  (exists e, forall w, processRightBrain data (settings w) = Throw e)
  \/ (exists prefix, forall w,
         processRightBrain data (settings w) = Return (prefix ++ w ++ dq)).
Proof.
  intros Hdata settings. unfold processRightBrain. rewrite Hdata.
  cbn [negb]. unfold settings, styleObj_of. cbn [styleId colorTheme watermark].
  destruct (Get data (js "title")) as [t|e]; cbn [bind];
    [|left; exists e; reflexivity].
  destruct (Get data (js "summary_context")) as [s|e]; cbn [bind];
    [|left; exists e; reflexivity].
  destruct (Get data (js "visual_theme_keywords")) as [k|e]; cbn [bind];
    [|left; exists e; reflexivity].
  destruct (Get data (js "modules")) as [m|e]; cbn [bind];
    [|left; exists e; reflexivity].
  destruct (ToString (or_else k _)) as [k'|e]; cbn [bind];
    [|left; exists e; reflexivity].
  destruct (ToString (or_else t _)) as [t'|e]; cbn [bind];
    [|left; exists e; reflexivity].
  destruct (ToString (or_else s _)) as [s'|e]; cbn [bind];
    [|left; exists e; reflexivity].
  destruct (ArrayMap _ moduleText) as [lines|e]; cbn [bind];
    [|left; exists e; reflexivity].
  right.
  match goal with
  | |- exists prefix, forall w,
        Return (trim (promptTemplate ?a ?b ?c ?d ?e ?f ?g w)) = _ =>
    destruct (trim_promptTemplate a b c d e f g) as [prefix Hp]
  end.
  exists prefix. intros w. now rewrite Hp.
Qed.

(** X9: data that is not an object never makes [processRightBrain] throw:
    falsy data gives the error text, and every other data that is not an
    object (a string, a number, [true], an array) gives the prompt of the
    empty outline, with all the defaults. *)
Theorem data_that_is_no_object_never_throws
        (data : value) (settings : VisualSettings) :
  match data with VObject _ => False | _ => True end ->
  processRightBrain data settings
  = (if ToBoolean data then processRightBrain (VObject []) settings
     else Return (js "Error: No data provided"))
  /\ exists prompt, processRightBrain (VObject []) settings = Return prompt.
Proof.
  intros Hdata. split.
  - destruct data as [| |b|n|s|l|fs]; try reflexivity.
    + destruct b; reflexivity.
    + cbn [ToBoolean]. unfold processRightBrain at 1. cbn [ToBoolean].
      destruct (num_truthy n); reflexivity.
    + destruct s; reflexivity.
    + elim Hdata.
  - apply processRightBrain_returns. reflexivity.
Qed.

(** The conversion to a string throws nothing but a [TypeError]. *)
Lemma ToString_throws (v : value) (e : thrown) :
  ToString v = Throw e -> e = TypeError.
Proof.
  revert v e. fix IH 1. intros [| |b|n|s|l|fs] e; cbn [ToString];
    try discriminate.
  - destruct b; discriminate.
  - revert l e. fix IHr 1. intros [|x r] e; [discriminate|].
    destruct (match x with
              | VUndefined | VNull => Return []
              | _ => ToString x
              end) as [sx|ex] eqn:Hx; cbn [bind].
    + pose proof (IHr r) as Hrec.
      match goal with
      | |- context [bind (?j r) _] => destruct (j r) as [sr|er]
      end.
      * destruct r; discriminate.
      * destruct r; [discriminate|]. cbn [bind].
        intros E; injection E as <-. now apply Hrec.
    + intros E; injection E as <-. pose proof (IH x) as Hrec.
      destruct x; try discriminate Hx; exact (Hrec _ Hx).
  - destruct (lookup (js "toString") fs); [|discriminate].
    intros E; injection E as <-; reflexivity.
Qed.

Lemma moduleText_throws (m : value) (i : nat) (e : thrown) :
  moduleText m i = Throw e -> e = TypeError.
Proof.
  unfold moduleText.
  destruct (ToString (or_else (OptGet m (js "heading")) _)) as [h|eh] eqn:Hh;
    cbn [bind].
  - destruct (ToString (or_else (OptGet m (js "content")) _)) as [c|ec] eqn:Hc;
      cbn [bind]; [discriminate|].
    intros E; injection E as <-. exact (ToString_throws _ Hc).
  - intros E; injection E as <-. exact (ToString_throws _ Hh).
Qed.

Lemma mapM_moduleText_throws (ms : list value) (i : nat) (e : thrown) :
  mapM_from moduleText i ms = Throw e -> e = TypeError.
Proof.
  revert i; induction ms as [|m ms IH]; intros i; cbn [mapM_from];
    [discriminate|].
  destruct (moduleText m i) as [y|ey] eqn:Hy; cbn [bind].
  - destruct (mapM_from moduleText (S i) ms) as [ys|eys] eqn:Hys; cbn [bind];
      [discriminate|].
    intros E; injection E as <-. exact (IH _ Hys).
  - intros E; injection E as <-. exact (moduleText_throws _ _ Hy).
Qed.

(** The only exception of [processRightBrain] is a [TypeError]. *)
Lemma processRightBrain_throws (data : value) (settings : VisualSettings)
      (e : thrown) :
  processRightBrain data settings = Throw e -> e = TypeError.
Proof.
  unfold processRightBrain.
  destruct (negb (ToBoolean data)); [discriminate|].
  destruct (Get data (js "title")) as [t|et] eqn:Ht; cbn [bind];
    [|destruct data; try discriminate Ht; injection Ht as <-;
      intros E; injection E as <-; reflexivity].
  destruct (Get data (js "summary_context")) as [s|es] eqn:Hs; cbn [bind];
    [|destruct data; discriminate].
  destruct (Get data (js "visual_theme_keywords")) as [k|ek] eqn:Hk;
    cbn [bind]; [|destruct data; discriminate].
  destruct (Get data (js "modules")) as [m|em] eqn:Hm; cbn [bind];
    [|destruct data; discriminate].
  destruct (ToString (or_else k _)) as [k'|e1] eqn:E1; cbn [bind];
    [|intros E; injection E as <-; exact (ToString_throws _ E1)].
  destruct (ToString (or_else t _)) as [t'|e2] eqn:E2; cbn [bind];
    [|intros E; injection E as <-; exact (ToString_throws _ E2)].
  destruct (ToString (or_else s _)) as [s'|e3] eqn:E3; cbn [bind];
    [|intros E; injection E as <-; exact (ToString_throws _ E3)].
  destruct (ArrayMap _ moduleText) as [lines|e4] eqn:E4; cbn [bind];
    [discriminate|].
  intros E; injection E as <-. revert E4. unfold ArrayMap.
  destruct (or_else m (VArray [])) as [| | | | |l|];
    try (intros E; injection E as <-; reflexivity).
  apply mapM_moduleText_throws.
Qed.

(** X10: [processRightBrain] throws nothing but a [TypeError], and only on
    an object that is not an outline of the declared type. *)
Theorem prompt_synthesis_throws_only_TypeError
        (data : value) (settings : VisualSettings) (e : thrown) :
  processRightBrain data settings = Throw e ->
  e = TypeError
  /\ (exists fields, data = VObject fields)
  /\ is_LeftBrainData data = false.
Proof.
  intros H. split; [|split].
  - exact (processRightBrain_throws _ _ H).
  - destruct data as [| |b|n|s|l|fs]; try discriminate H; eauto.
    + destruct b; discriminate H.
    + exfalso. revert H.
      destruct (@processRightBrain_returns (VObject []) settings eq_refl)
        as [p Hp].
      unfold processRightBrain at 1. cbn [ToBoolean].
      destruct (num_truthy n); [|discriminate].
      change (processRightBrain (VObject []) settings = Throw e -> False).
      rewrite Hp. discriminate.
    + exfalso. revert H.
      destruct (@processRightBrain_returns (VObject []) settings eq_refl)
        as [p Hp].
      destruct s as [|c r]; [discriminate|].
      change (processRightBrain (VString (c :: r)) settings)
        with (processRightBrain (VObject []) settings).
      rewrite Hp. discriminate.
  - destruct (is_LeftBrainData data) eqn:Ht; [|reflexivity].
    destruct (processRightBrain_returns data settings Ht) as [p Hp].
    rewrite Hp in H. discriminate H.
Qed.

(** X11: an outline whose [modules] is neither missing, empty, nor an
    array makes [processRightBrain] throw, whatever the settings: the
    design phase does not guard [modules.map]. *)
Theorem modules_that_are_no_array_throw
        (fields : list (jsstring * value)) (m : value)
        (settings : VisualSettings) :
  lookup (js "modules") fields = Some m ->
  ToBoolean m = true ->
  match m with VArray _ => False | _ => True end ->
  processRightBrain (VObject fields) settings = Throw TypeError.
Proof.
  intros Hm Ht Hna.
  destruct (processRightBrain (VObject fields) settings) as [p|e] eqn:H.
  - exfalso. revert H. unfold processRightBrain.
    cbn [ToBoolean negb Get bind]. rewrite Hm.
    destruct (ToString _) as [k'|e1]; cbn [bind]; [|discriminate].
    destruct (ToString _) as [t'|e2]; cbn [bind]; [|discriminate].
    destruct (ToString _) as [s'|e3]; cbn [bind]; [|discriminate].
    unfold or_else at 1. rewrite Ht. unfold ArrayMap.
    destruct m; try discriminate. elim Hna.
  - f_equal. exact (processRightBrain_throws _ _ H).
Qed.

(* ================================================================== *)
(** * More on the rendering phase *)
(* ================================================================== *)

(** X12: with the prediction-list backend and no API key, every attempt
    fails before a request is made: [processHand] makes its three attempts
    and waits 1000, 2000 and 3000 ms all the same, then throws "Missing
    API_KEY for Imagen request", whatever the services would answer. *)
Theorem missing_key_is_retried_without_a_request
        (env : Env) (ai : nat -> completion Gen.Response)
        (fetch : nat -> completion Http.Response) :
  backendOf env = PredictionList ->
  falsy (env_API_KEY env) = true ->
  processHand env ai fetch
  = ([Attempt 0 PredictionList; Delay 1000;
      Attempt 1 PredictionList; Delay 2000;
      Attempt 2 PredictionList; Delay 3000],
     Throw (Error (js "Missing API_KEY for Imagen request"))).
Proof.
  intros Hb Hk.
  assert (H : forall a f,
             attempt env a f
             = Throw (Error (js "Missing API_KEY for Imagen request"))).
  { intros a f. unfold attempt, fetchImagen. now rewrite Hb, Hk. }
  unfold processHand, maxRetries. cbn [attemptsFrom].
  rewrite !H, Hb. reflexivity.
Qed.

Lemma inlineOfParts_app (a b : list (option Gen.Part)) :
  inlineOfParts (a ++ b)
  = (found <- inlineOfParts a ;;
     match found with
     | Some img => Return (Some img)
     | None => inlineOfParts b
     end).
Proof.
  induction a as [|[part|] a IH]; cbn [app inlineOfParts bind].
  - now destruct (inlineOfParts b) as [[img|]|e].
  - destruct (Gen.inlineData part) as [inline|]; [|exact IH].
    destruct (Gen.data inline) as [[|c d]|]; try exact IH. reflexivity.
  - reflexivity.
Qed.

Lemma inlineOfParts_found (parts : list (option Gen.Part))
      (data mimeType : jsstring) :
  inlineOfParts parts = Return (Some (data, mimeType)) ->
  data <> [] /\ mimeType <> []
  /\ exists before part inline after,
      parts = before ++ Some part :: after
      /\ Gen.inlineData part = Some inline
      /\ Gen.data inline = Some data
      /\ mimeType = str_or (Gen.mimeType inline) (js "image/png")
      /\ inlineOfParts before = Return None.
Proof.
  induction parts as [|[part|] parts IH]; cbn [inlineOfParts];
    try discriminate.
  assert (Hskip :
            inlineOfParts parts = Return (Some (data, mimeType)) ->
            inlineOfParts [Some part] = Return None ->
            data <> [] /\ mimeType <> []
            /\ exists before part0 inline after,
                Some part :: parts = before ++ Some part0 :: after
                /\ Gen.inlineData part0 = Some inline
                /\ Gen.data inline = Some data
                /\ mimeType = str_or (Gen.mimeType inline) (js "image/png")
                /\ inlineOfParts before = Return None).
  { intros H Hp. destruct (IH H) as (Hd & Hm & b & p & i & a & E & Hi & Hda
                                     & Hmi & Hb).
    split; [exact Hd|]. split; [exact Hm|].
    exists (Some part :: b), p, i, a. rewrite E.
    repeat split; try assumption.
    change (Some part :: b) with ([Some part] ++ b).
    rewrite inlineOfParts_app, Hp. exact Hb. }
  destruct (Gen.inlineData part) as [inline|] eqn:Hi.
  - destruct (Gen.data inline) as [[|c d]|] eqn:Hd.
    + intros H. apply Hskip; [exact H|].
      cbn [inlineOfParts]. now rewrite Hi, Hd.
    + intros E. injection E as <- <-.
      split; [discriminate|]. split.
      * destruct (Gen.mimeType inline) as [[|x y]|]; discriminate.
      * exists [], part, inline, parts. repeat split; assumption.
    + intros H. apply Hskip; [exact H|].
      cbn [inlineOfParts]. now rewrite Hi, Hd.
  - intros H. apply Hskip; [exact H|].
    cbn [inlineOfParts]. now rewrite Hi.
Qed.

(** X13: the two nested loops of [extractInlineImage] are one scan, in
    order, of the parts of all candidates, a candidate without content or
    parts counting for none; and the image it returns is the first part
    with a non-empty payload: its payload and its MIME type, or
    "image/png", neither of them empty. *)
Theorem inline_image_is_the_first_payload (response : Gen.Response) :
  let parts :=
    concat (map partsOf (match Gen.candidates response with
                         | Some cs => cs
                         | None => []
                         end)) in
  extractInlineImage response = inlineOfParts parts
  /\ forall data mimeType,
      extractInlineImage response = Return (Some (data, mimeType)) ->
      data <> [] /\ mimeType <> []
      /\ exists before part inline after,
          parts = before ++ Some part :: after
          /\ Gen.inlineData part = Some inline
          /\ Gen.data inline = Some data
          /\ mimeType = str_or (Gen.mimeType inline) (js "image/png")
          /\ inlineOfParts before = Return None.
Proof.
  intros parts.
  assert (E : extractInlineImage response = inlineOfParts parts).
  { unfold extractInlineImage, parts.
    induction (match Gen.candidates response with
               | Some cs => cs
               | None => []
               end) as [|cand cs IH]; cbn [inlineOfCandidates map concat];
      [reflexivity|].
    now rewrite inlineOfParts_app, IH. }
  split; [exact E|]. intros data mimeType H. rewrite E in H.
  now apply inlineOfParts_found.
Qed.

(** X14: a run of [processHand] that returns an image made at most three
    attempts, the last of which returned the image while every earlier one
    threw; it waited [1000 * j] ms after the failed attempt number [j],
    at most 3000 ms in all; and the image is a [data:] URI. *)
Theorem successful_rendering_retried_at_most_twice
        (env : Env) (ai : nat -> completion Gen.Response)
        (fetch : nat -> completion Http.Response) (uri : jsstring) :
  snd (processHand env ai fetch) = Return uri ->
  exists k,
    k <= 2
    /\ attempt env (ai k) (fetch k) = Return uri
    /\ (forall j, j < k -> exists e, attempt env (ai j) (fetch j) = Throw e)
    /\ attempts (fst (processHand env ai fetch))
       = map (fun j => (j, backendOf env)) (seq 0 (S k))
    /\ delays (fst (processHand env ai fetch))
       = map (fun j => 1000 * (j + 1)) (seq 0 k)
    /\ list_sum (delays (fst (processHand env ai fetch))) = 500 * k * (k + 1)
    /\ exists mimeType data, uri = dataUri mimeType data.
Proof.
  intros Hret.
  destruct (processHand_cases env ai fetch)
    as [(u & H0 & E) | [(e0 & u & H0 & H1 & E)
       | [(e0 & e1 & u & H0 & H1 & H2 & E)
       | (e0 & e1 & e2 & H0 & H1 & H2 & E)]]];
    rewrite E in *; cbn [fst snd] in *; try discriminate;
    injection Hret as ->.
  - exists 0. split; [lia|]. split; [exact H0|]. split; [intros j Hj; lia|].
    repeat split; try reflexivity. exact (attempt_dataUri _ _ _ H0).
  - exists 1. split; [lia|]. split; [exact H1|]. split.
    { intros j Hj. assert (j = 0) as -> by lia. eauto. }
    repeat split; try reflexivity. exact (attempt_dataUri _ _ _ H1).
  - exists 2. split; [lia|]. split; [exact H2|]. split.
    { intros j Hj. assert (j = 0 \/ j = 1) as [-> | ->] by lia; eauto. }
    repeat split; try reflexivity. exact (attempt_dataUri _ _ _ H2).
Qed.

(* ================================================================== *)
(** * More on the waves, and the phases put together *)
(* ================================================================== *)

(** Running the tasks one after the other is one of the interleavings. *)
Lemma sequential_interleave {U} (task : U -> list step) (units : list U) :
  interleave (map task units) (sequential task units).
Proof.
  apply (@interleave_concat _ [] (map task units)). constructor.
Qed.

Lemma sequential_in_sequence {U} (task : U -> list step)
      (chunks : list (list U)) :
  in_sequence task chunks (sequential_chunks task chunks).
Proof.
  unfold sequential_chunks.
  induction chunks as [|c cs IH]; cbn [map concat]; constructor;
    [apply sequential_interleave | exact IH].
Qed.

Lemma designNote_owned (visualSettings : VisualSettings) :
  owned_tasks (designNote visualSettings).
Proof.
  intros n. unfold designNote.
  destruct (structure n) as [s|]; [|constructor].
  destruct (ToBoolean s); [|constructor].
  destruct (processRightBrain s visualSettings); repeat constructor.
Qed.

Lemma designNote_alone (visualSettings : VisualSettings) (n : NoteUnit) :
  fold_left apply_to (designNote visualSettings n) n
  = designed visualSettings n.
Proof.
  destruct n as [i o t st p e str g f].
  unfold designNote, designed. cbn [structure].
  destruct str as [s|]; [|reflexivity].
  destruct (ToBoolean s); [|reflexivity].
  unfold apply_to; cbn [fold_left step_target id].
  rewrite jseqb_refl.
  destruct (processRightBrain s visualSettings);
    cbn [fold_left merge step_updates step_target processing over id];
    rewrite ?jseqb_refl; reflexivity.
Qed.

Lemma design_wave_result (visualSettings : VisualSettings)
      (notes : list NoteUnit) (trace : list step) :
  NoDup (map id notes) ->
  handleBatchDesign visualSettings notes trace ->
  run trace notes = map (designed visualSettings) notes.
Proof.
  intros Hnd Ht. unfold handleBatchDesign in Ht.
  rewrite run_map. apply map_ext_in. intros n Hin.
  rewrite (@interleave_fold _ _ Ht (map id notes) Hnd
             (@owned_Forall2 _ notes (designNote_owned visualSettings))).
  rewrite (@fold_own_task (designNote visualSettings)
             notes n (designNote_owned visualSettings) Hnd Hin).
  apply designNote_alone.
Qed.

(** X15: the design wave over units with distinct identifiers, in
    whatever order the timers fire, leaves every unit that has a structure
    with the prompt of [processRightBrain] in stage [ReviewPrompt], and
    every unit without a structure as it was.  A unit for which
    [processRightBrain] throws is left marked as processing, with no
    prompt and no error: nothing resets it. *)
Theorem design_wave_leaves_failures_processing
        (visualSettings : VisualSettings) (notes : list NoteUnit) :
  NoDup (map id notes) ->
  (exists trace, handleBatchDesign visualSettings notes trace)
  /\ forall trace,
      handleBatchDesign visualSettings notes trace ->
      run trace notes = map (designed visualSettings) notes
      /\ forall k n s,
          nth_error notes k = Some n ->
          structure n = Some s -> ToBoolean s = true ->
          match processRightBrain s visualSettings with
          | Return prompt =>
            nth_error (run trace notes) k
            = Some {| id := id n; order := order n;
                      originalText := originalText n;
                      stage := ReviewPrompt; isProcessing := false;
                      error := error n; structure := structure n;
                      generatedPrompt := Some prompt;
                      finalImage := finalImage n |}
          | Throw _ =>
            nth_error (run trace notes) k
            = Some {| id := id n; order := order n;
                      originalText := originalText n;
                      stage := stage n; isProcessing := true;
                      error := error n; structure := structure n;
                      generatedPrompt := generatedPrompt n;
                      finalImage := finalImage n |}
          end.
Proof.
  intros Hnd. split.
  - exists (concat (map (designNote visualSettings) notes)).
    apply (@interleave_concat _ [] (map (designNote visualSettings) notes)).
    constructor.
  - intros trace Ht.
    pose proof (@design_wave_result visualSettings notes trace Hnd Ht) as E. split; [exact E|].
    intros k n s Hk Hs Hb. rewrite E, nth_error_map, Hk. cbn [option_map].
    unfold designed. rewrite Hs, Hb.
    destruct (processRightBrain s visualSettings); reflexivity.
Qed.

Lemma interleave_Forall {A} (P : A -> Prop) (ts : list (list A))
      (l : list A) :
  interleave ts l -> Forall P (concat ts) -> Forall P l.
Proof.
  induction 1 as [ts Hnil | ts1 a t ts2 l _ IH]; intros H; [constructor|].
  rewrite concat_app in H. cbn [concat] in H.
  apply Forall_app in H as [H1 H2]. cbn [app] in H2.
  inversion H2 as [|? ? Ha H2']; subst.
  constructor; [exact Ha|]. apply IH.
  rewrite concat_app. cbn [concat]. apply Forall_app. split; assumption.
Qed.

Lemma in_sequence_Forall {A U} (P : A -> Prop) (task : U -> list A)
      (cs : list (list U)) (trace : list A) :
  in_sequence task cs trace ->
  (forall u, Forall P (task u)) -> Forall P trace.
Proof.
  intros H Hall. induction H as [|c cs l ls Hl _ IH]; [constructor|].
  apply Forall_app. split; [|exact IH].
  eapply interleave_Forall; [exact Hl|]. apply Forall_concat.
  apply Forall_map. apply Forall_forall. intros u _. apply Hall.
Qed.

Lemma tasks_Forall {A U} (P : A -> Prop) (task : U -> list A)
      (notes : list U) (trace : list A) :
  interleave (map task notes) trace ->
  (forall u, Forall P (task u)) -> Forall P trace.
Proof.
  intros H Hall. eapply interleave_Forall; [exact H|]. apply Forall_concat.
  apply Forall_map. apply Forall_forall. intros u _. apply Hall.
Qed.

Lemma identity_apply_to (n : NoteUnit) (s : step) :
  keeps_identity s -> identity (apply_to n s) = identity n.
Proof.
  intros (Hi & Ho & Ht). unfold apply_to.
  destruct (jseqb (id n) (step_target s)); [|reflexivity].
  unfold identity, merge. cbn [id order originalText].
  now rewrite Hi, Ho, Ht.
Qed.

Lemma identity_run (trace : list step) (store : list NoteUnit) :
  Forall keeps_identity trace ->
  map identity (run trace store) = map identity store.
Proof.
  intros H. rewrite run_map, map_map. apply map_ext. intros n.
  revert n. induction H as [|s l Hs _ IH]; intros n; cbn [fold_left];
    [reflexivity|].
  rewrite IH. now apply identity_apply_to.
Qed.

Lemma processNoteStructure_identity (left : completion value)
      (n : NoteUnit) :
  Forall keeps_identity (processNoteStructure left n).
Proof.
  unfold processNoteStructure, keeps_identity.
  destruct left; repeat constructor.
Qed.

Lemma designNote_identity (visualSettings : VisualSettings) (n : NoteUnit) :
  Forall keeps_identity (designNote visualSettings n).
Proof.
  unfold designNote, keeps_identity.
  destruct (structure n) as [s|]; [|constructor].
  destruct (ToBoolean s); [|constructor].
  destruct (processRightBrain s visualSettings); repeat constructor.
Qed.

Lemma paintNote_identity (hand : completion jsstring) (n : NoteUnit) :
  Forall keeps_identity (paintNote hand n).
Proof.
  unfold paintNote, keeps_identity.
  destruct (falsy (generatedPrompt n)); [constructor|].
  destruct hand; repeat constructor.
Qed.

(** X16: no wave adds, drops, reorders or renames a unit, or changes its
    number or its text: whatever store the updates of a structuring, a
    design or a rendering wave are applied to, in whatever order, the
    store keeps its length and every unit its [id], [order] and
    [originalText]. *)
Theorem waves_keep_the_units_and_their_text
        (ai : NoteUnit -> completion Gen.Response)
        (visualSettings : VisualSettings) (hasApiKey : bool)
        (hand : NoteUnit -> completion jsstring)
        (notes store : list NoteUnit) (trace : list step) :
  handleBatchOrganize ai notes trace
  \/ handleBatchDesign visualSettings notes trace
  \/ handleBatchPaint hasApiKey hand notes trace ->
  length (run trace store) = length store
  /\ map id (run trace store) = map id store
  /\ map order (run trace store) = map order store
  /\ map originalText (run trace store) = map originalText store.
Proof.
  intros H.
  assert (Hk : Forall keeps_identity trace).
  { destruct H as [H | [H | H]].
    - eapply tasks_Forall; [exact H|]. intros u. apply processNoteStructure_identity.
    - eapply tasks_Forall; [exact H|]. intros u. apply designNote_identity.
    - unfold handleBatchPaint in H. destruct hasApiKey.
      + eapply in_sequence_Forall; [exact H|]. intros u. apply paintNote_identity.
      + rewrite H. constructor. }
  pose proof (@identity_run trace store Hk) as E.
  split; [rewrite run_map; apply length_map|].
  split; [|split].
  - apply (f_equal (map (fun x => fst (fst x)))) in E.
    now rewrite !map_map in E.
  - apply (f_equal (map (fun x => snd (fst x)))) in E.
    now rewrite !map_map in E.
  - apply (f_equal (map (fun x => snd x))) in E.
    now rewrite !map_map in E.
Qed.

Lemma id_painted (hand : completion jsstring) (n : NoteUnit) :
  id (painted hand n) = id n.
Proof.
  unfold painted. destruct (falsy _); [reflexivity|].
  destruct hand; reflexivity.
Qed.

Lemma id_structured (left : completion value) (n : NoteUnit) :
  id (structured left n) = id n.
Proof. destruct left; reflexivity. Qed.

Lemma id_designed (visualSettings : VisualSettings) (n : NoteUnit) :
  id (designed visualSettings n) = id n.
Proof.
  unfold designed. destruct (structure n) as [s|]; [|reflexivity].
  destruct (ToBoolean s); [|reflexivity].
  destruct (processRightBrain s visualSettings); reflexivity.
Qed.

(** X17: an error outlives a successful retry.  When the rendering of a
    unit fails in one rendering wave and succeeds in the next one, the
    unit ends in stage [Done] with its image and still carries the error
    message of the failed wave: the update of a success does not reset
    [error]. *)
Theorem error_outlives_a_successful_retry
        (notes : list NoteUnit)
        (hand1 hand2 : NoteUnit -> completion jsstring)
        (trace1 trace2 : list step) :
  NoDup (map id notes) ->
  handleBatchPaint true hand1 notes trace1 ->
  handleBatchPaint true hand2 (run trace1 notes) trace2 ->
  forall k n e img,
    nth_error notes k = Some n ->
    falsy (generatedPrompt n) = false ->
    hand1 n = Throw e ->
    hand2 (with_failure n (js "绘制失败")) = Return img ->
    nth_error (run trace2 (run trace1 notes)) k
    = Some {| id := id n; order := order n; originalText := originalText n;
              stage := Done; isProcessing := false;
              error := Some (js "绘制失败");
              structure := structure n;
              generatedPrompt := generatedPrompt n;
              finalImage := Some img |}.
Proof.
  intros Hnd H1 H2 k n e img Hk Hp He Hi.
  pose proof (@rendering_wave_result notes hand1 trace1 Hnd H1) as E1.
  rewrite E1 in H2 |- *.
  assert (Hnd' : NoDup (map id (map (fun n => painted (hand1 n) n) notes))).
  { rewrite map_map.
    rewrite (map_ext _ id (fun n => id_painted (hand1 n) n)). exact Hnd. }
  rewrite (@rendering_wave_result _ hand2 trace2 Hnd' H2).
  rewrite !nth_error_map, Hk. cbn [option_map]. f_equal.
  assert (E : painted (hand1 n) n = with_failure n (js "绘制失败")).
  { unfold painted. now rewrite Hp, He. }
  rewrite E, Hi. unfold painted. cbn [with_failure generatedPrompt].
  rewrite Hp. reflexivity.
Qed.

Lemma processLeftBrain_truthy (ai : completion Gen.Response)
      (text : jsstring) :
  exists outline,
    processLeftBrain ai text = Return outline /\ ToBoolean outline = true.
Proof.
  destruct (processLeftBrain_cases ai text)
    as [Hf | (res & fields & m & ms & _ & _ & _ & Hr)];
    eexists; (split; [eassumption | reflexivity]).
Qed.

Lemma processRightBrain_nonempty (data : value) (settings : VisualSettings)
      (prompt : jsstring) :
  ToBoolean data = true ->
  processRightBrain data settings = Return prompt -> prompt <> [].
Proof.
  intros Hdata. unfold processRightBrain. rewrite Hdata. cbn [negb].
  destruct (Get data (js "title")) as [t|e]; cbn [bind]; [|discriminate].
  destruct (Get data (js "summary_context")) as [s|e]; cbn [bind];
    [|discriminate].
  destruct (Get data (js "visual_theme_keywords")) as [k|e]; cbn [bind];
    [|discriminate].
  destruct (Get data (js "modules")) as [m|e]; cbn [bind]; [|discriminate].
  destruct (ToString (or_else k _)) as [k'|e]; cbn [bind]; [|discriminate].
  destruct (ToString (or_else t _)) as [t'|e]; cbn [bind]; [|discriminate].
  destruct (ToString (or_else s _)) as [s'|e]; cbn [bind]; [|discriminate].
  destruct (ArrayMap _ moduleText) as [lines|e]; cbn [bind]; [|discriminate].
  match goal with
  | |- Return (trim (promptTemplate ?a ?b ?c ?d ?e ?f ?g ?w)) = _ -> _ =>
    destruct (trim_promptTemplate a b c d e f g) as [prefix Hp];
      rewrite (Hp w)
  end.
  intros E; injection E as <-. intros H.
  apply app_eq_nil in H as [_ H]. apply app_eq_nil in H as [_ H].
  discriminate H.
Qed.

(** X18: the three waves put together.  Units just created by
    [handleSplit], with distinct identifiers, that go through a
    structuring, a design and a rendering wave, with any interleaving in
    each wave and whatever the services answer, keep their identifiers,
    numbers and texts, all get a structure, and end in one of three
    states: done, with a prompt and an image; or in [ReviewPrompt] with a
    prompt, no image and the error of the rendering wave; or, when
    [processRightBrain] threw, in [ReviewStructure], marked as processing,
    with neither prompt nor image nor error. *)
Theorem pipeline_ends_in_one_of_three_states
        (uuidv4 : nat -> jsstring) (parts : list jsstring)
        (ai : NoteUnit -> completion Gen.Response)
        (visualSettings : VisualSettings)
        (hand : NoteUnit -> completion jsstring)
        (trace1 trace2 trace3 : list step) :
  NoDup (map uuidv4 (seq 0 (length parts))) ->
  let notes := newNotes uuidv4 parts in
  handleBatchOrganize ai notes trace1 ->
  handleBatchDesign visualSettings (run trace1 notes) trace2 ->
  handleBatchPaint true hand (run trace2 (run trace1 notes)) trace3 ->
  let final := run trace3 (run trace2 (run trace1 notes)) in
  map id final = map uuidv4 (seq 0 (length parts))
  /\ map order final = seq 1 (length parts)
  /\ map originalText final = parts
  /\ Forall
       (fun n =>
          exists outline,
            structure n = Some outline /\ ToBoolean outline = true
            /\ ((stage n = Done /\ isProcessing n = false /\ error n = None
                 /\ (exists prompt,
                        generatedPrompt n = Some prompt /\ prompt <> []
                        /\ processRightBrain outline visualSettings
                           = Return prompt)
                 /\ exists img, finalImage n = Some img)
                \/ (stage n = ReviewPrompt /\ isProcessing n = false
                    /\ error n = Some (js "绘制失败")
                    /\ (exists prompt,
                           generatedPrompt n = Some prompt /\ prompt <> []
                           /\ processRightBrain outline visualSettings
                              = Return prompt)
                    /\ finalImage n = None)
                \/ (stage n = ReviewStructure /\ isProcessing n = true
                    /\ error n = None /\ generatedPrompt n = None
                    /\ finalImage n = None
                    /\ exists e,
                        processRightBrain outline visualSettings = Throw e)))
       final.
Proof.
  intros Hnd notes H1 H2 H3 final.
  destruct (newNotes_fields uuidv4 parts) as (Hl & Ho & Hi & Ht & Hf).
  fold notes in Hl, Ho, Hi, Ht, Hf.
  set (f1 := fun n => structured (processLeftBrain (ai n) (originalText n)) n).
  set (f3 := fun n => painted (hand n) n).
  assert (Hnd0 : NoDup (map id notes)) by (rewrite Hi; exact Hnd).
  assert (E1 : run trace1 notes = map f1 notes)
    by exact (@structuring_wave_result notes _ trace1 Hnd0 H1).
  assert (Hnd1 : NoDup (map id (map f1 notes))).
  { rewrite map_map. erewrite map_ext; [exact Hnd0|].
    intros n. apply id_structured. }
  rewrite E1 in H2, H3.
  assert (E2 : run trace2 (map f1 notes)
               = map (designed visualSettings) (map f1 notes))
    by exact (@design_wave_result visualSettings _ trace2 Hnd1 H2).
  assert (Hnd2 : NoDup (map id (map (designed visualSettings)
                                    (map f1 notes)))).
  { rewrite map_map. erewrite map_ext; [exact Hnd1|].
    intros n. apply id_designed. }
  rewrite E2 in H3.
  assert (E3 : final = map (fun n => f3 (designed visualSettings (f1 n)))
                           notes).
  { unfold final. rewrite E1, E2.
    rewrite (@rendering_wave_result _ hand trace3 Hnd2 H3), !map_map.
    reflexivity. }
  assert (Hk : Forall keeps_identity (trace1 ++ trace2 ++ trace3)).
  { apply Forall_app. split; [|apply Forall_app; split].
    - eapply tasks_Forall; [exact H1|]. intros u. apply processNoteStructure_identity.
    - eapply tasks_Forall; [exact H2|]. intros u. apply designNote_identity.
    - eapply in_sequence_Forall; [exact H3|]. intros u. apply paintNote_identity. }
  assert (Hident : map identity final = map identity notes).
  { pose proof (@identity_run _ notes Hk) as E.
    unfold run in E. rewrite !fold_left_app in E. exact E. }
  split; [|split; [|split]].
  - rewrite <- Hi.
    apply (f_equal (map (fun x => fst (fst x)))) in Hident.
    now rewrite !map_map in Hident.
  - rewrite <- Ho.
    apply (f_equal (map (fun x => snd (fst x)))) in Hident.
    now rewrite !map_map in Hident.
  - rewrite <- Ht.
    apply (f_equal (map (fun x => snd x))) in Hident.
    now rewrite !map_map in Hident.
  - rewrite E3. apply Forall_map.
    eapply Forall_impl; [|exact Hf]. cbv beta.
    intros n (_ & _ & He & Hs & Hg & Him).
    unfold f1, f3.
    destruct (processLeftBrain_truthy (ai n) (originalText n))
      as (outline & Hout & Htruthy).
    rewrite Hout. exists outline.
    destruct n as [i o t st p e str g f].
    cbn [error structure generatedPrompt finalImage originalText] in *.
    subst e str g f.
    unfold structured, with_structure, designed.
    cbn [structure id order originalText stage isProcessing error
         generatedPrompt finalImage].
    rewrite Htruthy.
    destruct (processRightBrain outline visualSettings) as [prompt|ex] eqn:Hp.
    + pose proof (@processRightBrain_nonempty _ _ _ Htruthy Hp) as Hne.
      unfold painted. cbn [generatedPrompt].
      destruct prompt as [|c r]; [now elim Hne|]. cbn [falsy].
      match goal with |- context [hand ?u] => destruct (hand u) as [img|eh] end;
        cbn [with_image with_failure structure stage isProcessing error
             generatedPrompt finalImage];
        (split; [reflexivity|]); (split; [reflexivity|]).
      * left. repeat split; eauto.
      * right; left. repeat split; eauto.
    + unfold painted. cbn [generatedPrompt falsy structure stage isProcessing
                           error finalImage].
      split; [reflexivity|]. split; [reflexivity|].
      right; right. repeat split; eauto.
Qed.

(* ================================================================== *)
(** * The single-unit path, the key check and the downloads *)
(* ================================================================== *)

(** X19: [handleOrganize] does nothing on a blank input or without an API
    key; otherwise it ends in [ReviewStructure] with one unit, numbered 1,
    that holds the trimmed input and the outline of [processLeftBrain],
    whatever the service answers.  It goes back to [Input] only when the
    client cannot be constructed: a failed or unreadable reply never takes
    its [catch]. *)
Theorem organize_fails_only_without_a_client
        (rawText : jsstring) (hasApiKey : bool)
        (getAI : completion (completion Gen.Response))
        (uuidv4 : nat -> jsstring) :
  (handleOrganize rawText hasApiKey getAI uuidv4 = None
   <-> trim rawText = [] \/ hasApiKey = false)
  /\ (handleOrganize rawText hasApiKey getAI uuidv4 = Some (Input, None)
      <-> trim rawText <> [] /\ hasApiKey = true
          /\ exists e, getAI = Throw e)
  /\ forall ai,
      getAI = Return ai -> trim rawText <> [] -> hasApiKey = true ->
      exists outline,
        processLeftBrain ai (trim rawText) = Return outline
        /\ handleOrganize rawText hasApiKey getAI uuidv4
           = Some (ReviewStructure,
                   Some [ {| id := uuidv4 0; order := 1;
                             originalText := trim rawText;
                             stage := ReviewStructure;
                             isProcessing := false; error := None;
                             structure := Some outline;
                             generatedPrompt := None;
                             finalImage := None |} ]).
Proof.
  unfold handleOrganize.
  destruct (trim rawText) as [|c r] eqn:Ht.
  - split; [|split].
    + split; [intros _; now left | reflexivity].
    + split; [discriminate | intros (H & _); now elim H].
    + intros ai _ H; now elim H.
  - destruct hasApiKey; cbn [negb].
    + split; [|split].
      * split; [discriminate | intros [H|H]; discriminate H].
      * split.
        -- destruct getAI as [ai|e]; cbn [bind].
           ++ destruct (processLeftBrain_returns ai (c :: r)) as [o Ho].
              rewrite Ho. discriminate.
           ++ intros _. split; [discriminate|]. split; [reflexivity|].
              now exists e.
        -- intros (_ & _ & e & ->). reflexivity.
      * intros ai -> _ _. cbn [bind].
        destruct (processLeftBrain_returns ai (c :: r)) as [o Ho].
        exists o. split; [exact Ho|]. now rewrite Ho.
    + split; [|split].
      * split; [intros _; now right | reflexivity].
      * split; [discriminate | intros (_ & H & _); discriminate H].
      * intros ai _ _ H; discriminate H.
Qed.


Lemma download_name_inj (i j : nat) :
  js "soulnote_batch_" ++ decimal i ++ js ".png"
  = js "soulnote_batch_" ++ decimal j ++ js ".png" -> i = j.
Proof.
  intros H. apply app_inv_head in H. apply app_inv_tail in H.
  now apply decimal_inj.
Qed.

(** The timers set from index [i] on. *)
Lemma download_timers_from (notes : list NoteUnit) (i : nat) (d : nat)
      (l : Link.t) :
  In (d, l) (concat (mapi_from downloadTimer i notes)) ->
  exists k note,
    nth_error notes k = Some note
    /\ d = (i + k) * 500
    /\ finalImage note = Some (Link.href l)
    /\ Link.href l <> []
    /\ Link.download l
       = js "soulnote_batch_" ++ decimal (i + k + 1) ++ js ".png".
Proof.
  revert i; induction notes as [|n notes IH]; intros i;
    cbn [mapi_from concat]; [intros []|].
  intros Hin. apply in_app_or in Hin as [Hin|Hin].
  - unfold downloadTimer in Hin.
    destruct (finalImage n) as [[|c r]|] eqn:Hf; try (now elim Hin).
    destruct Hin as [E|[]]. injection E as <- <-.
    exists 0, n. rewrite Nat.add_0_r. cbn [nth_error Link.href Link.download].
    repeat split; [exact Hf | discriminate].
  - destruct (IH (S i) Hin) as (k & note & Hk & Hd & Hf & Hne & Hname).
    exists (S k), note. cbn [nth_error].
    replace (i + S k) with (S i + k) by lia.
    repeat split; assumption.
Qed.

Lemma download_timers_length (notes : list NoteUnit) (i : nat) :
  length (concat (mapi_from downloadTimer i notes))
  = length (filter (fun n => negb (falsy (finalImage n))) notes).
Proof.
  revert i; induction notes as [|n notes IH]; intros i;
    cbn [mapi_from concat filter]; [reflexivity|].
  rewrite length_app, IH. unfold downloadTimer.
  destruct (finalImage n) as [[|c r]|]; reflexivity.
Qed.

Lemma download_timers_sorted (notes : list NoteUnit) (i : nat) :
  StronglySorted lt (map fst (concat (mapi_from downloadTimer i notes))).
Proof.
  revert i; induction notes as [|n notes IH]; intros i;
    cbn [mapi_from concat map]; [constructor|].
  rewrite map_app. unfold downloadTimer at 1.
  destruct (finalImage n) as [[|c r]|]; cbn [map app fst]; try apply IH.
  constructor; [apply IH|].
  apply Forall_forall. intros d Hd.
  apply in_map_iff in Hd as ([d' l] & <- & Hin).
  apply download_timers_from in Hin as (k & note & _ & -> & _).
  cbn [fst]. lia.
Qed.

Lemma download_timers_names (notes : list NoteUnit) (i : nat) :
  NoDup (map (fun t => Link.download (snd t))
             (concat (mapi_from downloadTimer i notes))).
Proof.
  revert i; induction notes as [|n notes IH]; intros i;
    cbn [mapi_from concat map]; [constructor|].
  rewrite map_app. unfold downloadTimer at 1.
  destruct (finalImage n) as [[|c r]|]; cbn [map app snd Link.download];
    try apply IH.
  constructor; [|apply IH].
  intros Hin. apply in_map_iff in Hin as ([d' l] & Hname & Hin).
  apply download_timers_from in Hin as (k & note & _ & _ & _ & _ & E).
  cbn [snd] in Hname. rewrite E in Hname.
  apply download_name_inj in Hname. lia.
Qed.

(** X21: [handleBatchDownload] sets one timer for every unit with an
    image and none for the others; the delays are 500 ms times the
    position of the unit among all units, so they increase strictly in
    the order of the units; each timer downloads the image of its unit
    under the name [soulnote_batch_N.png], [N] being the position counted
    from 1, and no two downloads have the same name. *)
Theorem downloads_are_staggered_and_named_apart (notes : list NoteUnit) :
  let timers := handleBatchDownload notes in
  length timers
  = length (filter (fun n => negb (falsy (finalImage n))) notes)
  /\ StronglySorted lt (map fst timers)
  /\ NoDup (map (fun t => Link.download (snd t)) timers)
  /\ forall d l,
      In (d, l) timers ->
      exists k note,
        nth_error notes k = Some note
        /\ d = k * 500
        /\ finalImage note = Some (Link.href l)
        /\ Link.href l <> []
        /\ Link.download l
           = js "soulnote_batch_" ++ decimal (k + 1) ++ js ".png".
Proof.
  intros timers. unfold timers, handleBatchDownload, mapi.
  split; [apply download_timers_length|].
  split; [apply download_timers_sorted|].
  split; [apply download_timers_names|].
  intros d l Hin. apply download_timers_from in Hin. exact Hin.
Qed.

(** X22: the style clause of the image request and the style of the
    prompt fall back alike: [getStyleInstructions] gives an identifier
    that is in no style of [STYLES] the clause of the first style, the one
    [processRightBrain] describes in that case; and the five styles have
    five different clauses. *)
Theorem style_clause_follows_the_prompt_style (settings : VisualSettings) :
  getStyleInstructions (styleId settings)
  = getStyleInstructions (Style.id (styleObj_of settings))
  /\ (find (fun s => jseqb (Style.id s) (styleId settings)) STYLES = None ->
      getStyleInstructions (styleId settings)
      = getStyleInstructions (Style.id healing))
  /\ NoDup (map (fun s => getStyleInstructions (Style.id s)) STYLES).
Proof.
  assert (Hcases :
            styleId settings = js "healing" \/ styleId settings = js "tech"
            \/ styleId settings = js "retro" \/ styleId settings = js "zen"
            \/ styleId settings = js "clay"
            \/ find (fun s => jseqb (Style.id s) (styleId settings)) STYLES
               = None).
  { unfold STYLES. cbn [find healing tech retro zen clay Style.id].
    destruct (jseqb (js "healing") (styleId settings)) eqn:E1;
      [apply jseqb_eq in E1; auto|].
    destruct (jseqb (js "tech") (styleId settings)) eqn:E2;
      [apply jseqb_eq in E2; auto|].
    destruct (jseqb (js "retro") (styleId settings)) eqn:E3;
      [apply jseqb_eq in E3; auto|].
    destruct (jseqb (js "zen") (styleId settings)) eqn:E4;
      [apply jseqb_eq in E4; auto 6|].
    destruct (jseqb (js "clay") (styleId settings)) eqn:E5;
      [apply jseqb_eq in E5; auto 6|].
    auto 7. }
  assert (Hnone :
            find (fun s => jseqb (Style.id s) (styleId settings)) STYLES = None ->
            getStyleInstructions (styleId settings)
            = getStyleInstructions (Style.id healing)).
  { unfold STYLES. cbn [find healing tech retro zen clay Style.id].
    destruct (jseqb (js "healing") (styleId settings)) eqn:E1;
      [discriminate|].
    destruct (jseqb (js "tech") (styleId settings)) eqn:E2; [discriminate|].
    destruct (jseqb (js "retro") (styleId settings)) eqn:E3; [discriminate|].
    destruct (jseqb (js "zen") (styleId settings)) eqn:E4; [discriminate|].
    destruct (jseqb (js "clay") (styleId settings)) eqn:E5; [discriminate|].
    intros _. unfold getStyleInstructions.
    assert (Hsym : forall a b, jseqb a b = false -> jseqb b a = false).
    { intros a b H. apply jseqb_neq. apply jseqb_neq in H. congruence. }
    rewrite (Hsym _ _ E2), (Hsym _ _ E3), (Hsym _ _ E4), (Hsym _ _ E5).
    reflexivity. }
  split; [|split].
  - unfold styleObj_of.
    destruct Hcases as [E|[E|[E|[E|[E|E]]]]];
      try (rewrite E; reflexivity).
    rewrite E. cbn [nth STYLES]. now apply Hnone.
  - exact Hnone.
  - unfold STYLES. cbn [map healing tech retro zen clay Style.id].
    repeat constructor; cbn [In]; intros H;
      repeat (destruct H as [H|H]; [vm_compute in H; discriminate H|]);
      exact H.
Qed.

(* ================================================================== *)
(** * The editor of the outline *)
(* ================================================================== *)

Lemma set_field_same (k : jsstring) (v : value)
      (fs : list (jsstring * value)) :
  lookup k fs = Some v -> set_field k v fs = fs.
Proof.
  induction fs as [|[k' v'] fs IH]; cbn [lookup set_field]; [discriminate|].
  destruct (jseqb k' k); intros H.
  - now injection H as ->.
  - now rewrite IH.
Qed.

Lemma set_field_twice (k : jsstring) (v v' : value)
      (fs : list (jsstring * value)) :
  set_field k v (set_field k v' fs) = set_field k v fs.
Proof.
  induction fs as [|[k0 v0] fs IH]; cbn [set_field].
  - now rewrite jseqb_refl.
  - destruct (jseqb k0 k) eqn:E; cbn [set_field]; rewrite E; [reflexivity|].
    now rewrite IH.
Qed.

Lemma without_index_split {A} (l : list A) (index : nat) :
  BlockEditor.without_index l index = firstn index l ++ skipn (S index) l.
Proof.
  revert index; induction l as [|x l IH]; intros [|i];
    cbn [BlockEditor.without_index firstn skipn app]; try reflexivity.
  now rewrite IH.
Qed.

Lemma without_index_last {A} (l : list A) (x : A) :
  BlockEditor.without_index (l ++ [x]) (length l) = l.
Proof.
  induction l as [|y l IH]; cbn [BlockEditor.without_index app length];
    [reflexivity|]. now rewrite IH.
Qed.

Lemma without_index_beyond {A} (l : list A) (index : nat) :
  length l <= index -> BlockEditor.without_index l index = l.
Proof.
  revert index; induction l as [|x l IH]; intros [|i];
    cbn [BlockEditor.without_index length]; intros H;
    try reflexivity; try lia.
  rewrite IH by lia. reflexivity.
Qed.

(** X23: adding a module and deleting it again gives back the outline as
    it was.  On an outline whose [modules] is an array, [addModule]
    appends one module with the heading "新模块", an empty content and the
    clock as its [id], and [deleteModule] at the position of that module
    returns the very outline [addModule] started from.  [deleteModule]
    keeps the other modules in their order, and with a position past the
    end it changes nothing. *)
Theorem added_module_can_be_deleted
        (now : jsstring) (fields : list (jsstring * value))
        (l : list value) :
  lookup (js "modules") fields = Some (VArray l) ->
  let newModule :=
    VObject [ (js "id", VString now);
              (js "heading", VString (js "新模块"));
              (js "content", VString []) ] in
  (exists added,
      BlockEditor.addModule now (VObject fields) = Return added
      /\ OptGet added (js "modules") = VArray (l ++ [newModule])
      /\ BlockEditor.deleteModule added (length l) = Return (VObject fields))
  /\ (forall index,
         exists deleted,
           BlockEditor.deleteModule (VObject fields) index = Return deleted
           /\ OptGet deleted (js "modules")
              = VArray (firstn index l ++ skipn (S index) l)
           /\ (length l <= index -> deleted = VObject fields)).
Proof.
  intros Hm newModule. split.
  - unfold BlockEditor.addModule, BlockEditor.with_property.
    cbn [Get bind spread]. rewrite Hm. cbn [BlockEditor.iterate bind].
    eexists. split; [reflexivity|]. split.
    + cbn [OptGet]. now rewrite lookup_set_field, jseqb_refl.
    + unfold BlockEditor.deleteModule, BlockEditor.with_property.
      cbn [Get bind spread]. rewrite lookup_set_field, jseqb_refl.
      fold newModule. rewrite without_index_last, set_field_twice.
      now rewrite set_field_same.
  - intros index.
    unfold BlockEditor.deleteModule, BlockEditor.with_property.
    cbn [Get bind spread]. rewrite Hm.
    eexists. split; [reflexivity|]. split.
    + cbn [OptGet]. rewrite lookup_set_field, jseqb_refl.
      now rewrite without_index_split.
    + intros Hi. rewrite without_index_beyond by exact Hi.
      now rewrite set_field_same.
Qed.

Lemma length_set_index (l : list value) (index : nat) (v : value) :
  length (BlockEditor.set_index l index v) = Nat.max (length l) (index + 1).
Proof.
  revert l; induction index as [|i IH]; intros [|x l];
    cbn [BlockEditor.set_index length]; try reflexivity.
  - lia.
  - rewrite IH. cbn [length]. lia.
  - rewrite IH. lia.
Qed.

Lemma nth_set_index (l : list value) (index j : nat) (v : value) :
  nth j (BlockEditor.set_index l index v) VUndefined
  = if Nat.eqb j index then v else nth j l VUndefined.
Proof.
  revert l j; induction index as [|i IH]; intros [|x l] [|j];
    cbn [BlockEditor.set_index nth Nat.eqb]; try reflexivity.
  - now destruct j.
  - rewrite IH. now destruct j.
  - apply IH.
Qed.

(** X24: an edit of one module touches that module only.
    [handleModuleChange] on an outline whose [modules] is an array
    returns an outline with the same properties except [modules]; the
    module at the edited position has the edited property set to the new
    text and its other properties as before, every other module is as
    before, and the number of modules is unchanged unless the position is
    past the end, in which case the array grows up to that position. *)
Theorem module_edit_is_local
        (fields : list (jsstring * value)) (l : list value)
        (index : nat) (field text : jsstring) :
  lookup (js "modules") fields = Some (VArray l) ->
  exists edited l',
    BlockEditor.handleModuleChange (VObject fields) index field text
    = Return edited
    /\ OptGet edited (js "modules") = VArray l'
    /\ (forall k, k <> js "modules" ->
                  OptGet edited k = OptGet (VObject fields) k)
    /\ length l' = Nat.max (length l) (index + 1)
    /\ (forall j, j <> index -> nth j l' VUndefined = nth j l VUndefined)
    /\ OptGet (nth index l' VUndefined) field = VString text
    /\ (forall k, k <> field ->
                  OptGet (nth index l' VUndefined) k
                  = match lookup k (spread (nth index l VUndefined)) with
                    | Some x => x
                    | None => VUndefined
                    end).
Proof.
  intros Hm.
  unfold BlockEditor.handleModuleChange, BlockEditor.with_property.
  cbn [Get bind spread]. rewrite Hm. cbn [BlockEditor.iterate bind].
  do 2 eexists. split; [reflexivity|].
  split; [cbn [OptGet]; now rewrite lookup_set_field, jseqb_refl|].
  split.
  { intros k Hk. cbn [OptGet]. rewrite lookup_set_field.
    destruct (jseqb (js "modules") k) eqn:E; [|reflexivity].
    apply jseqb_eq in E. now elim Hk. }
  split; [apply length_set_index|].
  split.
  { intros j Hj. rewrite nth_set_index.
    destruct (Nat.eqb_spec j index); [now elim Hj | reflexivity]. }
  rewrite nth_set_index, Nat.eqb_refl. cbn [OptGet]. split.
  - now rewrite lookup_set_field, jseqb_refl.
  - intros k Hk. rewrite lookup_set_field.
    destruct (jseqb field k) eqn:E; [|reflexivity].
    apply jseqb_eq in E. now elim Hk.
Qed.

Lemma is_LeftBrainData_set_text (fields : list (jsstring * value))
      (k text : jsstring) :
  jseqb k (js "modules") = false ->
  is_LeftBrainData (VObject fields) = true ->
  is_LeftBrainData (VObject (set_field k (VString text) fields)) = true.
Proof.
  intros Hk. unfold is_LeftBrainData; cbn [OptGet].
  rewrite !lookup_set_field, Hk.
  rewrite !andb_true_iff. intros [[[Ht Hs] Hv] Hm].
  repeat split; try exact Hm;
    match goal with
    | |- context [jseqb k ?x] => destruct (jseqb k x); [reflexivity|assumption]
    end.
Qed.

Lemma is_LeftBrainData_set_modules (fields : list (jsstring * value))
      (ms : list value) :
  is_LeftBrainData (VObject fields) = true ->
  forallb is_ContentModule ms = true ->
  is_LeftBrainData (VObject (set_field (js "modules") (VArray ms) fields))
  = true.
Proof.
  unfold is_LeftBrainData; cbn [OptGet]. intros H Hms.
  rewrite !lookup_set_field. decide_keys.
  rewrite !andb_true_iff in *. destruct H as [H _]. split; assumption.
Qed.

Lemma forallb_set_index (l : list value) (index : nat) (v : value) :
  forallb is_ContentModule l = true -> is_ContentModule v = true ->
  forallb is_ContentModule (BlockEditor.set_index l index v) = true.
Proof.
  intros Hl Hv. revert l Hl; induction index as [|i IH]; intros [|x l] Hl;
    cbn [BlockEditor.set_index forallb] in *.
  - now rewrite Hv.
  - apply andb_true_iff in Hl as [_ Hl]. now rewrite Hv, Hl.
  - now apply IH.
  - apply andb_true_iff in Hl as [Hx Hl]. rewrite Hx. now apply IH.
Qed.

Lemma forallb_nth (l : list value) (index : nat) :
  forallb is_ContentModule l = true ->
  is_ContentModule (nth index l VUndefined) = true.
Proof.
  revert index; induction l as [|x l IH]; intros [|i]; cbn [nth forallb];
    try reflexivity; rewrite andb_true_iff; intros [Hx Hl];
    [exact Hx | now apply IH].
Qed.

Lemma is_ContentModule_edit (m : value) (field text : jsstring) :
  is_ContentModule m = true ->
  is_ContentModule (VObject (set_field field (VString text) (spread m)))
  = true.
Proof.
  intros Hm. unfold is_ContentModule. cbn [OptGet].
  rewrite !lookup_set_field.
  assert (H : string_or_missing
                match lookup (js "heading") (spread m) with
                | Some x => x | None => VUndefined end = true
              /\ string_or_missing
                   match lookup (js "content") (spread m) with
                   | Some x => x | None => VUndefined end = true).
  { destruct m; try discriminate Hm; try (split; reflexivity).
    unfold is_ContentModule in Hm. cbn [OptGet spread] in *.
    now apply andb_true_iff in Hm. }
  destruct H as [Hh Hc].
  destruct (jseqb field (js "heading")), (jseqb field (js "content"));
    cbn [string_or_missing andb]; rewrite ?Hh, ?Hc; reflexivity.
Qed.

(** X25: the editor keeps an outline of the declared type of the declared
    type.  On such an outline whose [modules] is an array, each of the
    five edits returns an outline of the declared type, for which
    [processRightBrain] therefore returns a prompt: an edit cannot make
    the design phase throw. *)
Theorem edits_keep_the_outline_type
        (fields : list (jsstring * value)) (l : list value)
        (now text field : jsstring) (index : nat)
        (settings : VisualSettings) :
  is_LeftBrainData (VObject fields) = true ->
  lookup (js "modules") fields = Some (VArray l) ->
  Forall (fun edit =>
            exists edited prompt,
              edit = Return edited
              /\ is_LeftBrainData edited = true
              /\ processRightBrain edited settings = Return prompt)
         [ Return (BlockEditor.handleTitleChange (VObject fields) text);
           Return (BlockEditor.handleSummaryChange (VObject fields) text);
           BlockEditor.handleModuleChange (VObject fields) index field text;
           BlockEditor.addModule now (VObject fields);
           BlockEditor.deleteModule (VObject fields) index ].
Proof.
  intros Ht Hm.
  assert (Hl : forallb is_ContentModule l = true).
  { revert Ht. unfold is_LeftBrainData; cbn [OptGet]. rewrite Hm.
    rewrite !andb_true_iff. now intros [_ H]. }
  assert (Hfin : forall edited,
             is_LeftBrainData edited = true ->
             exists edited' prompt,
               Return edited = Return edited'
               /\ is_LeftBrainData edited' = true
               /\ processRightBrain edited' settings = Return prompt).
  { intros edited He.
    destruct (processRightBrain_returns edited settings He) as [p Hp].
    exists edited, p. repeat split; assumption. }
  repeat constructor.
  - apply Hfin. now apply is_LeftBrainData_set_text.
  - apply Hfin. now apply is_LeftBrainData_set_text.
  - unfold BlockEditor.handleModuleChange, BlockEditor.with_property.
    cbn [Get bind spread]. rewrite Hm. cbn [BlockEditor.iterate bind].
    apply Hfin. apply is_LeftBrainData_set_modules; [exact Ht|].
    apply forallb_set_index; [exact Hl|].
    apply is_ContentModule_edit. now apply forallb_nth.
  - unfold BlockEditor.addModule, BlockEditor.with_property.
    cbn [Get bind spread]. rewrite Hm. cbn [BlockEditor.iterate bind].
    apply Hfin. apply is_LeftBrainData_set_modules; [exact Ht|].
    rewrite forallb_app, Hl. reflexivity.
  - unfold BlockEditor.deleteModule, BlockEditor.with_property.
    cbn [Get bind spread]. rewrite Hm.
    apply Hfin. apply is_LeftBrainData_set_modules; [exact Ht|].
    rewrite without_index_split, forallb_app.
    apply andb_true_iff. split.
    + apply forallb_forall. intros x Hx.
      apply (proj1 (forallb_forall _ _) Hl x).
      rewrite <- (firstn_skipn index l). apply in_or_app. now left.
    + apply forallb_forall. intros x Hx.
      apply (proj1 (forallb_forall _ _) Hl x).
      rewrite <- (firstn_skipn (S index) l). apply in_or_app. now right.
Qed.

(* ================================================================== *)
(** * The cards of the canvas *)
(* ================================================================== *)

(** X26: the locks of a card only tighten as a unit advances: a card that
    is locked at a stage is locked at every later stage of the
    enumeration; and the locks are nested: a locked image card means a
    locked prompt card, which means a locked structure card, which means
    a locked text card. *)
Theorem locks_only_tighten (n : NoteUnit) :
  (forall type n',
      Stage_value (stage n) <= Stage_value (stage n') ->
      EditableCard.locked type n = true ->
      EditableCard.locked type n' = true)
  /\ (EditableCard.locked ImageCard n = true ->
      EditableCard.locked PromptCard n = true)
  /\ (EditableCard.locked PromptCard n = true ->
      EditableCard.locked StructureCard n = true)
  /\ (EditableCard.locked StructureCard n = true ->
      EditableCard.locked SplitCard n = true)
  /\ (EditableCard.locked SplitCard n = false <->
      stage n = Input \/ stage n = Splitting \/ stage n = ReviewSplit).
Proof.
  split; [|split; [|split; [|split]]].
  - intros type n' Hle. destruct type; unfold EditableCard.locked;
      rewrite ?Nat.ltb_lt, ?Nat.leb_le; lia.
  - unfold EditableCard.locked. rewrite !Nat.leb_le. cbn [Stage_value]. lia.
  - unfold EditableCard.locked. rewrite !Nat.leb_le. cbn [Stage_value]. lia.
  - unfold EditableCard.locked. rewrite Nat.leb_le, Nat.ltb_lt.
    cbn [Stage_value]. lia.
  - unfold EditableCard.locked. rewrite Nat.ltb_ge.
    destruct (stage n); cbn [Stage_value]; split; intros H;
      try lia; auto;
      destruct H as [H|[H|H]]; discriminate H.
Qed.

Lemma keeps_text_locked_apply_to (n : NoteUnit) (s : step) :
  keeps_text_locked s ->
  EditableCard.locked SplitCard n = true ->
  EditableCard.locked SplitCard (apply_to n s) = true.
Proof.
  unfold keeps_text_locked, apply_to, EditableCard.locked. intros Hs Hn.
  destruct (jseqb (id n) (step_target s)); [|exact Hn].
  unfold merge; cbn [stage].
  destruct (p_stage (step_updates s)); cbn [over]; [|exact Hn].
  now apply Nat.ltb_lt.
Qed.

Lemma keeps_text_locked_run (trace : list step) (store : list NoteUnit) :
  Forall keeps_text_locked trace ->
  Forall (fun n => EditableCard.locked SplitCard n = true) store ->
  Forall (fun n => EditableCard.locked SplitCard n = true) (run trace store).
Proof.
  intros Ht Hs. rewrite run_map. apply Forall_map.
  eapply Forall_impl; [|exact Hs]. cbv beta. intros n Hn.
  revert n Hn. induction Ht as [|s l Hs' _ IH]; intros n Hn;
    cbn [fold_left]; [exact Hn|].
  apply IH. now apply keeps_text_locked_apply_to.
Qed.

Lemma wave_keeps_text_locked
      (ai : NoteUnit -> completion Gen.Response)
      (visualSettings : VisualSettings) (hasApiKey : bool)
      (hand : NoteUnit -> completion jsstring)
      (notes : list NoteUnit) (trace : list step) :
  handleBatchOrganize ai notes trace
  \/ handleBatchDesign visualSettings notes trace
  \/ handleBatchPaint hasApiKey hand notes trace ->
  Forall keeps_text_locked trace.
Proof.
  assert (Hlt : forall st, In st [ReviewStructure; ReviewPrompt; Done] ->
                           Stage_value ReviewSplit < Stage_value st).
  { intros st [<-|[<-|[<-|[]]]]; cbn [Stage_value]; lia. }
  intros [H | [H | H]].
  - eapply tasks_Forall; [exact H|]. intros u.
    unfold processNoteStructure, keeps_text_locked.
    destruct (processLeftBrain _ _); repeat constructor;
      cbn [step_updates p_stage Stage_value]; lia.
  - eapply tasks_Forall; [exact H|]. intros u.
    unfold designNote, keeps_text_locked.
    destruct (structure u) as [s|]; [|constructor].
    destruct (ToBoolean s); [|constructor].
    destruct (processRightBrain s visualSettings); repeat constructor;
      cbn [step_updates p_stage Stage_value]; lia.
  - unfold handleBatchPaint in H. destruct hasApiKey.
    + eapply in_sequence_Forall; [exact H|]. intros u.
      unfold paintNote, keeps_text_locked.
      destruct (falsy (generatedPrompt u)); [constructor|].
      destruct (hand u); repeat constructor;
        cbn [step_updates p_stage Stage_value]; lia.
    + rewrite H. constructor.
Qed.

(** X27: the text of a unit can never be edited on its card.  The text
    card is locked above stage [ReviewSplit]; the units [handleSplit]
    creates start in [Organizing], above it, and no wave takes a unit
    back: after [handleSplit], and after any structuring, design or
    rendering wave on these units, every text card is locked. *)
Theorem text_card_is_locked_from_the_start
        (rawText : jsstring) (hasApiKey : bool)
        (ai : completion Gen.Response) (uuidv4 : nat -> jsstring)
        (units : list NoteUnit) :
  handleSplit rawText hasApiKey ai uuidv4 = Some units ->
  Forall (fun n => EditableCard.locked SplitCard n = true
                   /\ EditableCard.isCompleted SplitCard n = false) units
  /\ forall wave_ai visualSettings hasKey hand notes trace,
      handleBatchOrganize wave_ai notes trace
      \/ handleBatchDesign visualSettings notes trace
      \/ handleBatchPaint hasKey hand notes trace ->
      Forall (fun n => EditableCard.locked SplitCard n = true)
             (run trace units).
Proof.
  unfold handleSplit. intros H.
  destruct (trim rawText) as [|c r]; [discriminate|].
  destruct (negb hasApiKey); [discriminate|].
  destruct (processSplitBrain ai (c :: r)) as [parts|]; [|discriminate].
  injection H as <-.
  destruct (newNotes_fields uuidv4 parts) as (_ & _ & _ & _ & Hf).
  assert (Hlocked : Forall (fun n => EditableCard.locked SplitCard n = true)
                           (newNotes uuidv4 parts)).
  { eapply Forall_impl; [|exact Hf]. cbv beta.
    intros n (Hs & _). unfold EditableCard.locked. now rewrite Hs. }
  split.
  - eapply Forall_impl; [|exact Hf]. cbv beta.
    intros n (Hs & _ & _ & Hstr & _).
    unfold EditableCard.locked, EditableCard.isCompleted.
    now rewrite Hs, Hstr.
  - intros wave_ai visualSettings hasKey hand notes trace Hw.
    apply keeps_text_locked_run; [|exact Hlocked].
    exact (@wave_keeps_text_locked wave_ai visualSettings hasKey hand notes
                                    trace Hw).
Qed.

Lemma findIndex_Some {A} (p : A -> bool) (l : list A) (i : nat) :
  findIndex p l = Some i ->
  exists x, nth_error l i = Some x /\ p x = true
            /\ forall j y, j < i -> nth_error l j = Some y -> p y = false.
Proof.
  revert i; induction l as [|x l IH]; intros i; cbn [findIndex];
    [discriminate|].
  destruct (p x) eqn:Hx.
  - intros E; injection E as <-. exists x. repeat split; [exact Hx|].
    intros j y Hj; lia.
  - destruct (findIndex p l) as [k|]; [|discriminate].
    intros E; injection E as <-.
    destruct (IH k eq_refl) as (z & Hz & Hpz & Hbefore).
    exists z. repeat split; [exact Hz | exact Hpz |].
    intros [|j] y Hj; cbn [nth_error].
    + intros E; injection E as <-. exact Hx.
    + apply Hbefore. lia.
Qed.

Lemma findIndex_None {A} (p : A -> bool) (l : list A) :
  findIndex p l = None -> Forall (fun x => p x = false) l.
Proof.
  induction l as [|x l IH]; cbn [findIndex]; [constructor|].
  destruct (p x) eqn:Hx; [discriminate|].
  destruct (findIndex p l); [discriminate|].
  intros _. constructor; [exact Hx | now apply IH].
Qed.

Lemma nth_nth_error {A} (l : list A) (i : nat) (d x : A) :
  nth_error l i = Some x -> nth i l d = x.
Proof.
  revert i; induction l as [|y l IH]; intros [|i]; cbn [nth_error nth];
    try discriminate.
  - now intros E; injection E.
  - apply IH.
Qed.

(** X28: the card the canvas focuses exists and matches its unit.  With
    no unit there is no focus.  Otherwise the focus is on the first unit
    that is processing, or, when none is, on the last unit; a focused
    image card has an image, a focused prompt card a prompt, a focused
    structure card a structure, and the text card is focused only for a
    unit without structure. *)
Theorem focus_is_on_an_existing_card (notes : list NoteUnit) :
  (getActiveCardInfo notes = None <-> notes = [])
  /\ forall i type,
      getActiveCardInfo notes = Some (i, type) ->
      exists n,
        nth_error notes i = Some n
        /\ ((isProcessing n = true
             /\ forall j m, j < i -> nth_error notes j = Some m ->
                            isProcessing m = false)
            \/ (Forall (fun m => isProcessing m = false) notes
                /\ i = length notes - 1))
        /\ match type with
           | SplitCard => truthy (structure n) = false
           | StructureCard => truthy (structure n) = true
           | PromptCard => falsy (generatedPrompt n) = false
           | ImageCard => falsy (finalImage n) = false
           end.
Proof.
  split.
  - destruct notes as [|first rest]; [split; reflexivity|].
    split; [|discriminate].
    unfold getActiveCardInfo.
    destruct (findIndex isProcessing (first :: rest));
      repeat match goal with
             | |- context [if ?b then _ else _] => destruct b
             end; discriminate.
  - intros i type. destruct notes as [|first rest]; [discriminate|].
    unfold getActiveCardInfo.
    destruct (findIndex isProcessing (first :: rest)) as [k|] eqn:Hf.
    + destruct (@findIndex_Some _ _ _ _ Hf) as (n & Hn & Hp & Hbefore).
      rewrite (@nth_nth_error _ _ _ first _ Hn).
      destruct (truthy (structure n)) eqn:Hs; cbn [negb].
      * destruct (falsy (generatedPrompt n)) eqn:Hg.
        -- intros E; injection E as <- <-. exists n. auto.
        -- destruct (falsy (finalImage n)) eqn:Hi;
             intros E; injection E as <- <-; exists n; auto.
      * intros E; injection E as <- <-. exists n. auto.
    + pose proof (@findIndex_None _ _ _ Hf) as Hnone.
      assert (Hlast : exists n,
                 nth_error (first :: rest) (length (first :: rest) - 1)
                 = Some n).
      { destruct (nth_error (first :: rest) (length (first :: rest) - 1))
          as [n|] eqn:E; [eauto|].
        apply nth_error_None in E. cbn [length] in E. lia. }
      destruct Hlast as [n Hn].
      rewrite (@nth_nth_error _ _ _ first _ Hn).
      destruct (falsy (finalImage n)) eqn:Hi; cbn [negb].
      * destruct (falsy (generatedPrompt n)) eqn:Hg; cbn [negb].
        -- destruct (truthy (structure n)) eqn:Hs;
             intros E; injection E as <- <-; exists n; auto.
        -- intros E; injection E as <- <-. exists n. auto.
      * intros E; injection E as <- <-. exists n. auto.
Qed.

(* ================================================================== *)
(** * The proxy of the image endpoint *)
(* ================================================================== *)




End Pipeline.

(* ================================================================== *)
(** * The statements at concrete inputs *)
(* ================================================================== *)

(** The scenario of the malformed reply "not json". *)
Lemma structure_fallback_witness :
  Demo.parse (unfence (Some (js "not json")) (js "{}")) = None
  /\ processLeftBrain Demo.parse (Demo.reply (js "not json")) Demo.sentence
     = Return fallbackOutline.
Proof.
  split; [reflexivity|].
  apply (@structure_fallback_on_malformed_response
           Demo.parse
           {| Gen.text := Some (js "not json"); Gen.candidates := None |}
           Demo.sentence (Demo.prompted 0)).
  left. reflexivity.
Defined.

(** The empty object [{}] is absorbed in the same way. *)
Example structure_fallback_on_empty_object :
  processLeftBrain Demo.parse (Demo.reply (js "```json
{}
```")) Demo.sentence = Return fallbackOutline.
Proof. reflexivity. Qed.

(** A rejected structuring call in a wave of three units: the unit gets
    the fallback outline and no error. *)
Example transport_failure_in_a_wave :
  let ai n := if jseqb (id n) (Demo.uuidv4 1)
              then Throw (Rejection 7) else Demo.reply (js "not json") in
  forall trace,
    handleBatchOrganize Demo.parse ai Demo.notes trace ->
    map error (run trace Demo.notes) = [None; None; None]
    /\ map stage (run trace Demo.notes)
       = [ReviewStructure; ReviewStructure; ReviewStructure]
    /\ map structure (run trace Demo.notes)
       = [Some fallbackOutline; Some fallbackOutline; Some fallbackOutline].
Proof.
  intros ai trace Ht.
  assert (Hnd : NoDup (map id Demo.notes)).
  { repeat constructor; cbn; intros H;
      repeat destruct H as [H|H]; try discriminate H; exact H. }
  rewrite (@structuring_wave_result
             Demo.notes
             (fun n => processLeftBrain Demo.parse (ai n) (originalText n))
             trace Hnd Ht).
  repeat split.
Qed.

(** Three failed attempts: three delays, the last one after the last
    attempt. *)
Lemma exhausted_retries_witness :
  processHand ascii_lower Demo.default_env Demo.always_down Demo.no_fetch
  = ([Attempt 0 InlinePart; Delay 1000;
      Attempt 1 InlinePart; Delay 2000;
      Attempt 2 InlinePart; Delay 3000], Throw (Rejection 2)).
Proof.
  apply (@exhausted_retries_wait_three_times
           ascii_lower Demo.default_env Demo.always_down Demo.no_fetch
           (Rejection 0) (Rejection 1) (Rejection 2));
    reflexivity.
Defined.

(** A success at the second attempt: one delay, no third attempt. *)
Example success_at_second_attempt :
  processHand ascii_lower Demo.default_env Demo.up_at_second_call
              Demo.no_fetch
  = ([Attempt 0 InlinePart; Delay 1000; Attempt 1 InlinePart],
     Return (js "data:image/png;base64,AAAA")).
Proof. reflexivity. Qed.

(** A model identifier without the marker goes to the prediction list. *)
Example imagen_model_uses_predictions :
  backendOf ascii_lower Demo.imagen_env = PredictionList
  /\ processHand ascii_lower Demo.imagen_env Demo.always_down Demo.prediction
     = ([Attempt 0 PredictionList],
        Return (js "data:image/png;base64,BBBB")).
Proof. split; reflexivity. Qed.




(** The defaults, as they appear in the prompt. *)
Example defaults_in_the_prompt :
  match processRightBrain (VObject []) Demo.settings with
  | Return prompt =>
    includes prompt (js "related to " ++ dq ++ js "abstract concepts" ++ dq)
    && includes prompt
         (js "Title: " ++ dq ++ js "未命名笔记" ++ dq ++ nl
          ++ js "Subtitle: " ++ dq ++ dq ++ nl
          ++ js "Modules:" ++ nl ++ nl ++ nl
          ++ js "Footer Watermark: " ++ dq ++ dq)
  | Throw _ => false
  end = true.
Proof. vm_compute. reflexivity. Qed.




(* ================================================================== *)
(** * More statements at concrete inputs *)
(* ================================================================== *)

(** An update addressed to no unit of the sample store. *)
Lemma update_of_unknown_id_witness :
  updateNote (js "nobody") (processing true) Demo.notes = Demo.notes.
Proof.
  apply (@update_of_unknown_id_changes_nothing
           (js "nobody") (processing true) Demo.notes).
  cbn; intros H; repeat destruct H as [H|H]; try discriminate H; exact H.
Defined.

(** Two updates of two units of the sample store. *)
Lemma updates_commute_witness :
  updateNote (Demo.uuidv4 0) (processing true)
             (updateNote (Demo.uuidv4 1) (failed (js "绘制失败")) Demo.notes)
  = updateNote (Demo.uuidv4 1) (failed (js "绘制失败"))
               (updateNote (Demo.uuidv4 0) (processing true) Demo.notes).
Proof.
  destruct (@updates_keep_ids_and_commute
              (Demo.uuidv4 0) (Demo.uuidv4 1) (processing true)
              (failed (js "绘制失败")) Demo.notes eq_refl eq_refl)
    as (_ & _ & H).
  apply H. vm_compute. discriminate.
Defined.

(** A long reply cut in two segments. *)
Lemma split_units_witness :
  exists units,
    handleSplit Demo.parse Demo.sentence true
                (Demo.reply (Demo.array_text [Demo.segment_a; Demo.segment_b]))
                Demo.uuidv4
    = Some units
    /\ map order units = [1; 2]
    /\ Forall (fun n => 100 <= length (originalText n)) units.
Proof.
  pose proof (@split_units_are_numbered_and_fresh
                Demo.parse Demo.sentence true
                (Demo.reply (Demo.array_text [Demo.segment_a; Demo.segment_b]))
                Demo.uuidv4 _ eq_refl)
    as (_ & _ & _ & Ho & _ & _ & _ & Hcase).
  eexists. split; [reflexivity|]. split; [exact Ho|].
  destruct Hcase as [H|H]; [discriminate H | exact H].
Defined.

(** Seven elements in chunks of three. *)
Lemma chunk_witness :
  0 < 3
  /\ concat (chunk [1; 2; 3; 4; 5; 6; 7] 3) = [1; 2; 3; 4; 5; 6; 7]
  /\ length (chunk [1; 2; 3; 4; 5; 6; 7] 3) = 3.
Proof.
  assert (H : 0 < 3) by lia. split; [exact H|].
  destruct (@chunk_is_an_ordered_partition nat [1; 2; 3; 4; 5; 6; 7] 3 H)
    as (Hc & Hl & _).
  split; [exact Hc | exact Hl].
Defined.

(** A reply with an outline of the declared type. *)
Lemma typed_reply_witness :
  exists outline prompt,
    processLeftBrain Scenario.parse (Demo.reply Scenario.outline_text)
                     Demo.sentence
    = Return outline
    /\ is_LeftBrainData outline = true
    /\ processRightBrain outline Demo.settings = Return prompt.
Proof.
  apply (@typed_reply_gives_a_prompt
           Scenario.parse (Demo.reply Scenario.outline_text) Demo.sentence
           Demo.settings).
  intros res json E Hp. injection E as <-.
  vm_compute in Hp. injection Hp as <-. reflexivity.
Defined.

(** The empty object in a fence, with line breaks. *)
Lemma code_fence_witness :
  processLeftBrain
    Demo.parse
    (Return {| Gen.text := Some (js "```JSON" ++ (nl ++ js "{}" ++ nl)
                                 ++ js "```");
               Gen.candidates := None |})
    Demo.sentence
  = processLeftBrain
      Demo.parse
      (Return {| Gen.text := Some (nl ++ js "{}" ++ nl);
                 Gen.candidates := None |})
      Demo.sentence.
Proof.
  apply (@code_fence_is_transparent
           Demo.parse (js "```JSON") (nl ++ js "{}" ++ nl) Demo.sentence None);
    reflexivity.
Defined.

(** The watermark of the prompt of the empty outline. *)
Lemma watermark_witness :
  exists prefix, forall w,
      processRightBrain
        (VObject [])
        {| styleId := js "healing"; colorTheme := []; watermark := w |}
      = Return (prefix ++ w ++ dq).
Proof.
  destruct (@watermark_is_the_last_clause (VObject []) (js "healing") []
                                          eq_refl) as [[e H] | H].
  - specialize (H []). vm_compute in H. discriminate H.
  - exact H.
Defined.

(** A text in the place of the outline. *)
Lemma no_object_witness :
  processRightBrain (VString (js "潮汐")) Demo.settings
  = processRightBrain (VObject []) Demo.settings.
Proof.
  apply (@data_that_is_no_object_never_throws
           (VString (js "潮汐")) Demo.settings).
  exact I.
Defined.

(** An outline whose modules are a text. *)
Lemma throws_only_TypeError_witness :
  is_LeftBrainData (VObject Scenario.broken_fields) = false.
Proof.
  apply (@prompt_synthesis_throws_only_TypeError
           (VObject Scenario.broken_fields) Demo.settings TypeError).
  reflexivity.
Defined.

Lemma modules_no_array_witness :
  processRightBrain (VObject Scenario.broken_fields) Demo.settings
  = Throw TypeError.
Proof.
  apply (@modules_that_are_no_array_throw
           Scenario.broken_fields (VString (js "成因, 影响")) Demo.settings);
    [reflexivity | reflexivity | exact I].
Defined.

(** A prediction model without a key: three attempts, six seconds. *)
Lemma missing_key_witness :
  processHand ascii_lower Scenario.env_without_key Demo.always_down
              Demo.prediction
  = ([Attempt 0 PredictionList; Delay 1000;
      Attempt 1 PredictionList; Delay 2000;
      Attempt 2 PredictionList; Delay 3000],
     Throw (Error (js "Missing API_KEY for Imagen request"))).
Proof.
  apply (@missing_key_is_retried_without_a_request
           ascii_lower Scenario.env_without_key Demo.always_down
           Demo.prediction);
    reflexivity.
Defined.

(** A success at the second attempt. *)
Lemma successful_rendering_witness :
  exists k,
    k <= 2
    /\ attempt ascii_lower Demo.default_env (Demo.up_at_second_call k)
               (Demo.no_fetch k)
       = Return Scenario.image.
Proof.
  destruct (@successful_rendering_retried_at_most_twice
              ascii_lower Demo.default_env Demo.up_at_second_call
              Demo.no_fetch Scenario.image eq_refl)
    as (k & Hk & Ha & _).
  exists k. split; [exact Hk | exact Ha].
Defined.

(** A design wave, its tasks run one after the other, over a unit with
    an outline and a unit whose outline has a text for its modules. *)
Lemma design_wave_witness :
  let notes := [ Scenario.structured_unit 0 Scenario.outline_fields;
                 Scenario.structured_unit 1 Scenario.broken_fields ] in
  map isProcessing
      (run (sequential (designNote Demo.settings) notes) notes)
  = [false; true]
  /\ map stage (run (sequential (designNote Demo.settings) notes) notes)
     = [ReviewPrompt; ReviewStructure].
Proof.
  intros notes.
  assert (Hnd : NoDup (map id notes)).
  { repeat constructor; cbn; intros H;
      repeat destruct H as [H|H]; try discriminate H; exact H. }
  destruct (@design_wave_leaves_failures_processing Demo.settings notes Hnd)
    as [_ H].
  rewrite (proj1 (H (sequential (designNote Demo.settings) notes)
                    (sequential_interleave _ _))).
  split; vm_compute; reflexivity.
Defined.

(** The design wave of the sample store, its tasks run one after the
    other. *)
Lemma waves_keep_units_witness :
  map id (run (sequential (designNote Demo.settings) Demo.notes) Demo.notes)
  = map id Demo.notes.
Proof.
  apply (@waves_keep_the_units_and_their_text
           Demo.parse (fun _ => Demo.reply (js "not json")) Demo.settings
           true (fun _ => Return Scenario.image) Demo.notes Demo.notes
           (sequential (designNote Demo.settings) Demo.notes)).
  right; left. apply sequential_interleave.
Defined.

(** A rendering that fails and is then repeated with success. *)
Lemma error_outlives_retry_witness :
  let hand1 := fun _ : NoteUnit => @Throw jsstring (Rejection 7) in
  let hand2 := fun _ : NoteUnit => Return Scenario.image in
  let trace1 :=
    sequential_chunks (fun n => paintNote (hand1 n) n)
                      (chunk [Demo.prompted 0] 3) in
  let trace2 :=
    sequential_chunks (fun n => paintNote (hand2 n) n)
                      (chunk (run trace1 [Demo.prompted 0]) 3) in
  nth_error (run trace2 (run trace1 [Demo.prompted 0])) 0
  = Some {| id := Demo.uuidv4 0; order := 1;
            originalText := Demo.sentence;
            stage := Done; isProcessing := false;
            error := Some (js "绘制失败");
            structure := Some (VObject []);
            generatedPrompt := Some (js "prompt");
            finalImage := Some Scenario.image |}.
Proof.
  intros hand1 hand2 trace1 trace2.
  assert (Hnd : NoDup (map id [Demo.prompted 0])).
  { repeat constructor. intros []. }
  exact (@error_outlives_a_successful_retry
           [Demo.prompted 0] hand1 hand2 trace1 trace2 Hnd
           (sequential_in_sequence _ _) (sequential_in_sequence _ _)
           0 (Demo.prompted 0) (Rejection 7) Scenario.image
           eq_refl eq_refl eq_refl eq_refl).
Defined.

(** Two units through the three waves, each wave run in sequence, with a
    structuring service that answers no JSON and an image service that
    answers at once. *)
Lemma pipeline_witness :
  let notes := newNotes Demo.uuidv4 [Demo.segment_a; Demo.segment_b] in
  let ai := fun _ : NoteUnit => Demo.reply (js "not json") in
  let hand := fun _ : NoteUnit => Return Scenario.image in
  let trace1 :=
    sequential
      (fun n => processNoteStructure
                  (processLeftBrain Demo.parse (ai n) (originalText n)) n)
      notes in
  let trace2 :=
    sequential (designNote Demo.settings) (run trace1 notes) in
  let trace3 :=
    sequential_chunks (fun n => paintNote (hand n) n)
                      (chunk (run trace2 (run trace1 notes)) 3) in
  map order (run trace3 (run trace2 (run trace1 notes))) = [1; 2]
  /\ map originalText (run trace3 (run trace2 (run trace1 notes)))
     = [Demo.segment_a; Demo.segment_b].
Proof.
  intros notes ai hand trace1 trace2 trace3.
  assert (Hnd : NoDup (map Demo.uuidv4 (seq 0 2))).
  { repeat constructor; cbn; intros H;
      repeat destruct H as [H|H]; try discriminate H; exact H. }
  destruct (@pipeline_ends_in_one_of_three_states
              Demo.parse Demo.uuidv4 [Demo.segment_a; Demo.segment_b]
              ai Demo.settings hand trace1 trace2 trace3 Hnd
              (sequential_interleave _ _) (sequential_interleave _ _)
              (sequential_in_sequence _ _))
    as (_ & Ho & Ht & _).
  split; [exact Ho | exact Ht].
Defined.

(** A module added to the sample outline and deleted again. *)
Lemma added_module_witness :
  exists added,
    BlockEditor.addModule (js "1700000000000")
                          (VObject Scenario.outline_fields)
    = Return added
    /\ BlockEditor.deleteModule added 1
       = Return (VObject Scenario.outline_fields).
Proof.
  destruct (@added_module_can_be_deleted
              (js "1700000000000") Scenario.outline_fields _ eq_refl)
    as [(added & Ha & _ & Hd) _].
  exists added. split; [exact Ha | exact Hd].
Defined.

(** The heading of the only module of the sample outline, edited. *)
Lemma module_edit_witness :
  exists edited l',
    BlockEditor.handleModuleChange (VObject Scenario.outline_fields) 0
                                   (js "heading") (js "原因")
    = Return edited
    /\ OptGet edited (js "modules") = VArray l'
    /\ length l' = 1
    /\ OptGet (nth 0 l' VUndefined) (js "heading") = VString (js "原因").
Proof.
  destruct (@module_edit_is_local
              Scenario.outline_fields _ 0 (js "heading") (js "原因") eq_refl)
    as (edited & l' & He & Hm & _ & Hl & _ & Hh & _).
  exists edited, l'. repeat split; assumption.
Defined.

(** The five edits of the sample outline. *)
Lemma edits_keep_type_witness :
  exists edited prompt,
    BlockEditor.deleteModule (VObject Scenario.outline_fields) 0
    = Return edited
    /\ is_LeftBrainData edited = true
    /\ processRightBrain edited Demo.settings = Return prompt.
Proof.
  pose proof (@edits_keep_the_outline_type
                Scenario.outline_fields _ (js "1700000000000") (js "原因")
                (js "heading") 0 Demo.settings eq_refl eq_refl) as H.
  do 4 (apply Forall_inv_tail in H). apply Forall_inv in H. exact H.
Defined.

(** The text cards of two units just created. *)
Lemma text_card_witness :
  exists units,
    handleSplit Demo.parse Demo.sentence true
                (Demo.reply (Demo.array_text [Demo.segment_a; Demo.segment_b]))
                Demo.uuidv4
    = Some units
    /\ Forall (fun n => EditableCard.locked SplitCard n = true
                        /\ EditableCard.isCompleted SplitCard n = false)
              units.
Proof.
  pose proof (@text_card_is_locked_from_the_start
                Demo.parse Demo.sentence true
                (Demo.reply (Demo.array_text [Demo.segment_a; Demo.segment_b]))
                Demo.uuidv4 _ eq_refl) as [H _].
  eexists. split; [reflexivity | exact H].
Defined.

Example js_ascii : js "m0 " = [109; 48; 32]%N.
Proof. reflexivity. Qed.

Example js_cjk : js "解析失败" = [35299; 26512; 22833; 36133]%N.
Proof. reflexivity. Qed.

Example js_astral : js "📒" = [55357; 56530]%N.
Proof. reflexivity. Qed.

Example trim_both : trim (js "  a b
 ") = js "a b".
Proof. reflexivity. Qed.

Example strip_fence :
  trim (remove_all (js "```") (remove_all_ci (js "```json") (js "```JSON
{}
```"))) = js "{}".
Proof. reflexivity. Qed.

Example decimal_12 : decimal 12 = js "12".
Proof. reflexivity. Qed.
